(** * Freshly: asset generation, caching and freshness classification

    A shallow embedding of the parts of the Freshly grocery tracker that
    decide how images are generated, cached and retried
    ([services/geminiService.ts], the effects of [App.tsx]) and how an
    expiry date is turned into a freshness status ([getExpiryStatus],
    [getCategoryKey], [handleManualAdd], [analyzeFoodImage]), together
    with the navigation, carousel, filter and selection handlers of
    [App.tsx], the recipe prompt of [generateRecipe] and the script that
    generates the onboarding images.

    Dates are milliseconds since the epoch, as [Date.prototype.getTime]
    returns them; [Expiry] has the classifier in a zone with a constant
    offset, [Zoned] in a zone with transitions.  Asynchronous functions are programs over the operations
    they await; one interpreter runs them to completion, another runs
    several of them interleaved at their [await]s. *)

From Stdlib Require Import ZArith QArith Qround Lia Lqa Ascii String.
From stdpp Require Import gmap strings list pretty.

Local Open Scope string_scope.
Local Open Scope Z_scope.

(** ** Dates and the expiry classifier ([App.tsx], [getExpiryStatus]) *)

Module Expiry.

Definition msPerDay : Z := 1000 * 60 * 60 * 24.

(** The local time zone is a fixed offset [tz] (milliseconds east of UTC):
    this module is the classifier as it runs in a zone whose offset never
    changes.  [Zoned] below has the same functions for a zone with
    transitions, and agrees with this module while the offset stays put. *)

(** The local calendar day of an instant, counted from the epoch. *)
Definition localDay (tz t : Z) : Z := (t + tz) / msPerDay.

(** [d.setHours(0, 0, 0, 0); d.getTime()] *)
Definition setHoursMidnight (tz t : Z) : Z := localDay tz t * msPerDay - tz.

(** [d.setDate(d.getDate() + days)] for a whole number of days in a zone
    with a constant offset: same local time of day, [days] later. *)
Definition setDatePlus (t days : Z) : Z := t + days * msPerDay.

Inductive Category := Urgent | Soon | Fresh.

Record ExpiryStatus := {
  label : Category;
  category : Category;
  daysLeft : Z;
  color : string;
  shadow : string
}.

(** [getExpiryStatus(expiryDate)], with the clock reading [now] of
    [new Date()] made a parameter and [expiryDate] already parsed. *)
Definition getExpiryStatus (tz expiryDate now : Z) : ExpiryStatus :=
  let today := setHoursMidnight tz now in
  let expiry := setHoursMidnight tz expiryDate in
  let diffTime := expiry - today in
  let daysLeft := diffTime / msPerDay in
  if daysLeft <=? 2 then
    {| label := Urgent; category := Urgent; daysLeft := daysLeft;
       color := "bg-orange-500"; shadow := "shadow-orange-500/20" |}
  else if daysLeft <=? 5 then
    {| label := Soon; category := Soon; daysLeft := daysLeft;
       color := "bg-amber-400"; shadow := "shadow-amber-400/20" |}
  else
    {| label := Fresh; category := Fresh; daysLeft := daysLeft;
       color := "bg-emerald-500"; shadow := "shadow-emerald-500/20" |}.

(** Days from 1970-01-01 to a date of the proleptic Gregorian calendar,
    used to write calendar dates in statements. *)
Definition daysFromCivil (y m d : Z) : Z :=
  let y' := if m <=? 2 then y - 1 else y in
  let era := y' / 400 in
  let yoe := y' - era * 400 in
  let mp := (m + 9) mod 12 in
  let doy := (153 * mp + 2) / 5 + d - 1 in
  let doe := yoe * 365 + yoe / 4 - yoe / 100 + doy in
  era * 146097 + doe - 719468.

(** An instant of the UTC day [y-m-d], [ms] milliseconds after midnight. *)
Definition utc (y m d ms : Z) : Z := daysFromCivil y m d * msPerDay + ms.

(** The instant [ms] (taken within one day) past local midnight of the
    date [y-m-d] in the zone [tz]. *)
Definition localInstant (tz y m d ms : Z) : Z :=
  utc y m d (ms mod msPerDay) - tz.

End Expiry.

(** ** Inventory items as the two write paths build them *)

Module Inventory.
Import Expiry.

Inductive Status := fresh | warning | expired.

(** [FoodItem] of [geminiService.ts]; [expiry_date] is the instant whose
    ISO text the code stores. *)
Record FoodItem := {
  name : string;
  category : string;
  expiry_date : Z;
  status : Status;
  image_url : option string
}.

Record Food := { food_name : string; shelfLife : Z }.

Record FoodCategory := {
  cat_id : string;
  cat_name : string;
  items : list Food
}.

(** [FOOD_CATEGORIES] (the icon glyphs are left out). *)
Definition FOOD_CATEGORIES : list FoodCategory := [
  {| cat_id := "lacteos"; cat_name := "Dairy"; items := [
       {| food_name := "Milk"; shelfLife := 7 |};
       {| food_name := "Yogurt"; shelfLife := 14 |};
       {| food_name := "Cheese"; shelfLife := 21 |};
       {| food_name := "Butter"; shelfLife := 60 |};
       {| food_name := "Eggs"; shelfLife := 30 |} ] |};
  {| cat_id := "frutas"; cat_name := "Fruits"; items := [
       {| food_name := "Apples"; shelfLife := 14 |};
       {| food_name := "Bananas"; shelfLife := 5 |};
       {| food_name := "Strawberries"; shelfLife := 3 |};
       {| food_name := "Oranges"; shelfLife := 14 |};
       {| food_name := "Grapes"; shelfLife := 7 |} ] |};
  {| cat_id := "granos"; cat_name := "Grains"; items := [
       {| food_name := "Rice"; shelfLife := 365 |};
       {| food_name := "Lentils"; shelfLife := 365 |};
       {| food_name := "Beans"; shelfLife := 365 |};
       {| food_name := "Pasta"; shelfLife := 365 |};
       {| food_name := "Oats"; shelfLife := 180 |} ] |};
  {| cat_id := "proteinas"; cat_name := "Proteins"; items := [
       {| food_name := "Chicken"; shelfLife := 3 |};
       {| food_name := "Beef"; shelfLife := 3 |};
       {| food_name := "Fish"; shelfLife := 2 |};
       {| food_name := "Pork"; shelfLife := 3 |};
       {| food_name := "Tofu"; shelfLife := 7 |} ] |};
  {| cat_id := "verduras"; cat_name := "Vegetables"; items := [
       {| food_name := "Spinach"; shelfLife := 5 |};
       {| food_name := "Tomatoes"; shelfLife := 7 |};
       {| food_name := "Carrots"; shelfLife := 21 |};
       {| food_name := "Broccoli"; shelfLife := 7 |};
       {| food_name := "Onions"; shelfLife := 30 |} ] |}
].

(** The item [handleManualAdd] passes to [addItem] for one selected food,
    in a zone with a constant offset ([Zoned.handleManualAdd_item] is the
    same function in any zone). *)
Definition handleManualAdd_item (now : Z) (selectedCategory : option FoodCategory)
    (food : Food) : FoodItem :=
  let expiryDate := setDatePlus now (shelfLife food) in
  {| name := food_name food;
     category := match selectedCategory with
                 | Some c => if decide (cat_name c = "") then "Other" else cat_name c
                 | None => "Other"
                 end;
     expiry_date := expiryDate;
     status := if shelfLife food >? 3 then fresh else warning;
     image_url := None |}.

End Inventory.

(** ** Dates in a zone with transitions, and the two write paths *)

Module Zoned.
Import Expiry Inventory.

(** The local time zone as [Date] sees it: the offset in force at a UTC
    instant ([LocalTZA(t, true)]) and the offset taken for a local time
    value ([LocalTZA(t, false)]; for a local time that a transition skips
    or repeats, the offset before the transition). *)
Record Zone := {
  utcOffset : Z -> Z;
  localOffset : Z -> Z
}.

Definition LocalTime (z : Zone) (t : Z) : Z := t + utcOffset z t.
Definition UTC (z : Zone) (tlocal : Z) : Z := tlocal - localOffset z tlocal.
Definition Day (t : Z) : Z := t / msPerDay.
Definition TimeWithinDay (t : Z) : Z := t mod msPerDay.

(** [TimeClip]; [None] is the time value of an invalid [Date]. *)
Definition TimeClip (t : Z) : option Z :=
  if Z.abs t <=? 8640000000000000 then Some t else None.

(** [DateFromTime]: the day of the month, 1 to 31, of a time value in the
    proleptic Gregorian calendar. *)
Definition DateFromTime (t : Z) : Z :=
  let z := Day t + 719468 in
  let era := z / 146097 in
  let doe := z - era * 146097 in
  let yoe := (doe - doe / 1460 + doe / 36524 - doe / 146096) / 365 in
  let doy := doe - (365 * yoe + yoe / 4 - yoe / 100) in
  let mp := (5 * doy + 2) / 153 in
  doy - (153 * mp + 2) / 5 + 1.

(** [d.getDate()] *)
Definition getDate (z : Zone) (t : Z) : Z := DateFromTime (LocalTime z t).

(** ToIntegerOrInfinity on a finite number: truncation towards zero. *)
Definition truncQ (x : Q) : Z := if Qle_bool 0 x then Qfloor x else Qceiling x.

(** [d.setDate(date)] on a valid [Date] with time value [t]: the day
    number is that of the first of [d]'s local month plus the truncated
    [date] minus one ([MakeDay]), the time within the day is kept, and the
    local time is converted back and clipped. *)
Definition setDate (z : Zone) (t : Z) (date : Q) : option Z :=
  let tlocal := LocalTime z t in
  let day := Day tlocal - (DateFromTime tlocal - 1) + truncQ date - 1 in
  TimeClip (UTC z (day * msPerDay + TimeWithinDay tlocal)).

(** [d.setHours(0, 0, 0, 0); d.getTime()], for instants far enough inside
    the range of time values for [TimeClip] to keep the result. *)
Definition setHoursMidnight (z : Zone) (t : Z) : Z :=
  UTC z (Day (LocalTime z t) * msPerDay).

(** [getExpiryStatus(expiryDate)] in the zone [z]. *)
Definition getExpiryStatus (z : Zone) (expiryDate now : Z) : ExpiryStatus :=
  let today := setHoursMidnight z now in
  let expiry := setHoursMidnight z expiryDate in
  let diffTime := expiry - today in
  let daysLeft := diffTime / msPerDay in
  if daysLeft <=? 2 then
    {| label := Urgent; Expiry.category := Urgent; daysLeft := daysLeft;
       color := "bg-orange-500"; shadow := "shadow-orange-500/20" |}
  else if daysLeft <=? 5 then
    {| label := Soon; Expiry.category := Soon; daysLeft := daysLeft;
       color := "bg-amber-400"; shadow := "shadow-amber-400/20" |}
  else
    {| label := Fresh; Expiry.category := Fresh; daysLeft := daysLeft;
       color := "bg-emerald-500"; shadow := "shadow-emerald-500/20" |}.

(** What evaluating an expression gives: a value, or the [RangeError]
    that [toISOString] throws on an invalid [Date]. *)
Inductive completion (A : Type) :=
  | Normal (a : A)
  | RangeError (msg : string).
Arguments Normal {A} a.
Arguments RangeError {A} msg.

(** The value of a completion that did not throw. *)
Definition value {A} (c : completion A) : option A :=
  match c with
  | Normal a => Some a
  | RangeError _ => None
  end.

(** [d.toISOString()], as the instant the text denotes. *)
Definition toISOString (d : option Z) : completion Z :=
  match d with
  | Some t => Normal t
  | None => RangeError "Invalid time value"
  end.

(** The item [handleManualAdd] passes to [addItem] for one selected food;
    [shelfLife] is one of the whole numbers of [FOOD_CATEGORIES]. *)
Definition handleManualAdd_item (z : Zone) (now : Z)
    (selectedCategory : option FoodCategory) (food : Food) : completion FoodItem :=
  let expiryDate := setDate z now (inject_Z (getDate z now + shelfLife food)) in
  match toISOString expiryDate with
  | Normal iso =>
      Normal
        {| name := food_name food;
           Inventory.category :=
             match selectedCategory with
             | Some c => if decide (cat_name c = "") then "Other" else cat_name c
             | None => "Other"
             end;
           expiry_date := iso;
           status := if shelfLife food >? 3 then fresh else warning;
           image_url := None |}
  | RangeError msg => RangeError msg
  end.

(** The model's answer parsed by [analyzeFoodImage].  The schema makes
    [estimated_days_left] a number; [None] is an answer without the field
    (the sum with it is NaN).  Numbers are rationals and the sum
    [getDate() + estimated_days_left] is exact, as the double sum is for
    an estimate below 2^31 in size with at most 21 binary places. *)
Record Analysis := {
  a_name : string;
  a_category : string;
  estimated_days_left : option Q
}.

(** [v <= n] on a number or NaN. *)
Definition numLe (v : option Q) (n : Q) : bool :=
  match v with
  | Some x => Qle_bool x n
  | None => false
  end.

(** What [analyzeFoodImage] returns, from the parsed [result] on. *)
Definition analyzeFoodImage_item (z : Zone) (now : Z) (result : Analysis)
    : completion FoodItem :=
  let expiryDate :=
    match estimated_days_left result with
    | Some x => setDate z now (inject_Z (getDate z now) + x)
    | None => None
    end in
  let status0 := fresh in
  let status1 := if numLe (estimated_days_left result) 2 then warning else status0 in
  let status2 := if numLe (estimated_days_left result) 0 then expired else status1 in
  match toISOString expiryDate with
  | Normal iso =>
      Normal {| name := a_name result;
                Inventory.category := a_category result;
                expiry_date := iso;
                status := status2;
                image_url := None |}
  | RangeError msg => RangeError msg
  end.

(** The item [handleProcessImage] passes to [addItem]: the analysed item
    with the captured photo.  A [RangeError] goes to its [catch]. *)
Definition handleProcessImage_item (z : Zone) (now : Z) (result : Analysis)
    (capturedImage : string) : completion FoodItem :=
  match analyzeFoodImage_item z now result with
  | Normal analyzed =>
      Normal {| name := name analyzed;
                Inventory.category := Inventory.category analyzed;
                expiry_date := expiry_date analyzed;
                status := status analyzed;
                image_url := Some capturedImage |}
  | RangeError msg => RangeError msg
  end.


(** The zone has the offset [tz] at the instant [t] and at the local
    midnight that starts [t]'s day. *)
Definition steadyAt (z : Zone) (tz t : Z) : Prop :=
  utcOffset z t = tz /\ localOffset z (Day (t + tz) * msPerDay) = tz.


(** America/New_York in 2024: UTC-5, and UTC-4 from 10 March 07:00 UTC
    to 3 November 06:00 UTC. *)
Definition newYork : Zone :=
  {| utcOffset := fun t =>
       if (utc 2024 3 10 25200000 <=? t) && (t <? utc 2024 11 3 21600000)
       then -14400000 else -18000000;
     localOffset := fun tlocal =>
       if (utc 2024 3 10 10800000 <=? tlocal) && (tlocal <? utc 2024 11 3 7200000)
       then -14400000 else -18000000 |}.

End Zoned.

(** ** Category names ([App.tsx], [CATEGORY_MAP] and [getCategoryKey]) *)

Module CategoryKey.

(** The values a property read of [CATEGORY_MAP] can produce.  The map is
    an object literal, so a read that finds no own property goes on to
    [Object.prototype]. *)
Inductive jsval :=
  | JUndefined
  | JStr (s : string)
  | JFunction (fname : string)
  | JObject (oname : string).

(** ToBoolean *)
Definition truthy (v : jsval) : bool :=
  match v with
  | JUndefined => false
  | JStr s => negb (bool_decide (s = ""))
  | JFunction _ | JObject _ => true
  end.

(** [a || b] *)
Definition js_or (a b : jsval) : jsval := if truthy a then a else b.

Definition isAsciiUpper (a : ascii) : bool :=
  let n := N_of_ascii a in ((65 <=? n) && (n <=? 90))%N.

(** Second byte of the UTF-8 form of U+00C0..U+00DE, without U+00D7. *)
Definition isLatin1UpperTail (a : ascii) : bool :=
  let n := N_of_ascii a in ((128 <=? n) && (n <=? 158) && negb (n =? 151))%N.

Definition plus32 (a : ascii) : ascii := ascii_of_N (N_of_ascii a + 32).

Definition lowerAscii (a : ascii) : ascii :=
  if isAsciiUpper a then plus32 a else a.

Definition isC3 (a : ascii) : bool := (N_of_ascii a =? 195)%N.

(** [String.prototype.toLowerCase] on UTF-8 text, for the letters of
    ASCII and of the Latin-1 supplement; other characters are kept. *)
Fixpoint toLowerCase (s : string) : string :=
  match s with
  | EmptyString => EmptyString
  | String a s' =>
      if isC3 a then
        match s' with
        | String b s'' =>
            if isLatin1UpperTail b
            then String a (String (plus32 b) (toLowerCase s''))
            else String a (toLowerCase s')
        | EmptyString => String a EmptyString
        end
      else String (lowerAscii a) (toLowerCase s')
  end.

(** The own properties of [CATEGORY_MAP], in source order (the later of
    the two revisions of [App.tsx]; it has every entry of the earlier one
    and adds 'grains', 'fruits' and 'proteins').  Keys are kept byte for
    byte as the source file has them. *)
Definition CATEGORY_MAP_entries : list (string * string) := [
  ("grains", "granos");
  ("vegetables", "verduras");
  ("fruits", "frutas");
  ("dairy", "lacteos");
  ("proteins", "proteinas");
  ("granos", "granos");
  ("verduras", "verduras");
  ("frutas", "frutas");
  ("l√°cteos", "lacteos");
  ("lacteos", "lacteos");
  ("prote√≠nas", "proteinas");
  ("proteinas", "proteinas");
  ("meat", "proteinas");
  ("fruit", "frutas");
  ("pantry", "granos")
].

Definition CATEGORY_MAP : gmap string string := list_to_map CATEGORY_MAP_entries.

(** The properties every object inherits from [Object.prototype]. *)
Definition Object_prototype (p : string) : jsval :=
  if bool_decide (p = "constructor") then JFunction "Object"
  else if bool_decide (p = "__proto__") then JObject "Object.prototype"
  else if bool_decide (p ∈ ["hasOwnProperty"; "isPrototypeOf";
                            "propertyIsEnumerable"; "toLocaleString";
                            "toString"; "valueOf";
                            "__defineGetter__"; "__defineSetter__";
                            "__lookupGetter__"; "__lookupSetter__"])
  then JFunction p
  else JUndefined.

(** [CATEGORY_MAP[p]] *)
Definition CATEGORY_MAP_get (p : string) : jsval :=
  match CATEGORY_MAP !! p with
  | Some v => JStr v
  | None => Object_prototype p
  end.

(** [getCategoryKey(cat)] for a string [cat]. *)
Definition getCategoryKey (cat : string) : jsval :=
  js_or (CATEGORY_MAP_get (toLowerCase cat)) (JStr (toLowerCase cat)).

Inductive outcome (A : Type) :=
  | Returns (a : A)
  | TypeError (msg : string).
Arguments Returns {A} a.
Arguments TypeError {A} msg.

(** [getCategoryKey(v)] for whatever value reaches it at run time:
    [cat.toLowerCase] is a function only on strings. *)
Definition getCategoryKey_dyn (v : jsval) : outcome jsval :=
  match v with
  | JStr s => Returns (getCategoryKey s)
  | _ => TypeError "cat.toLowerCase is not a function"
  end.

Definition canonicalIds : list string :=
  ["granos"; "verduras"; "frutas"; "lacteos"; "proteinas"].

End CategoryKey.

(** ** Asynchronous programs and the world they run in *)

Module Async.

(** A settled promise: fulfilled with a value or rejected with an error. *)
Inductive result (E A : Type) :=
  | Ok (a : A)
  | Throw (e : E).
Arguments Ok {E A} a.
Arguments Throw {E A} e.

(** What the fields read off a caught error can hold. *)
Inductive codeval :=
  | CUndefined
  | CNum (n : Z)
  | CStr (s : string).

(** A caught error, as far as the handlers look at it:
    [error?.error?.code] and [error?.status]. *)
Record jsError := {
  error_code : codeval;
  error_status : codeval
}.

Definition code_truthy (c : codeval) : bool :=
  match c with
  | CUndefined => false
  | CNum n => negb (n =? 0)
  | CStr s => negb (bool_decide (s = ""))
  end.

(** [a || b] on such fields. *)
Definition code_or (a b : codeval) : codeval := if code_truthy a then a else b.

(** [c === 429] *)
Definition is429 (c : codeval) : bool :=
  match c with
  | CNum n => n =? 429
  | _ => false
  end.

(** One part of a model response: [part.inlineData.data] when the part
    has inline data. *)
Record part := { inlineData : option string }.

(** [response.candidates?.[0]?.content?.parts], [None] when a link of the
    chain is missing. *)
Definition response := option (list part).

(** The loop over the parts that returns at the first inline image. *)
Fixpoint firstInlineData (parts : list part) : option string :=
  match parts with
  | [] => None
  | p :: rest =>
      match inlineData p with
      | Some d => Some d
      | None => firstInlineData rest
      end
  end.

Definition responseImage (r : response) : option string :=
  match r with
  | Some parts => firstInlineData parts
  | None => None
  end.

Definition dataUrl (d : string) : string := "data:image/png;base64," +:+ d.

(** The state of the two React components that hold images. *)
Record react := {
  images : gmap nat string;
  loadingImages : gmap nat bool;
  categoryIcons : gmap string string;
  itemIcons : gmap string string;
  emptyStates : gmap string string;
  loadingEmptyStates : gmap string bool
}.

(** The operations of an asynchronous function of the source.  The first
    six are awaited; a state setter and a console call return at once. *)
Inductive eff : Type -> Type :=
  | GenerateContent (prompt : string) : eff (result jsError response)
  | SetTimeout (ms : Z) : eff unit
  | IdbGet (key : string) : eff (result unit (option string))
  | IdbSet (key : string) (value : string) : eff (result unit unit)
  | IdbGetIcons : eff (result unit (option (gmap string string)))
  | IdbSetIcons (value : gmap string string) : eff (result unit unit)
  | SetState (f : react -> react) : eff unit
  | Console (msg : string) : eff unit.

Definition is_await {X} (e : eff X) : bool :=
  match e with
  | SetState _ | Console _ => false
  | _ => true
  end.

Definition isGenerate {X} (e : eff X) : bool :=
  match e with
  | GenerateContent _ => true
  | _ => false
  end.

Inductive prog (A : Type) : Type :=
  | Ret (a : A)
  | Vis {X : Type} (e : eff X) (k : X -> prog A).
Arguments Ret {A} a.
Arguments Vis {A X} e k.

Fixpoint bind {A B} (m : prog A) (f : A -> prog B) : prog B :=
  match m with
  | Ret a => f a
  | Vis e k => Vis e (fun x => bind (k x) f)
  end.

Definition call {X} (e : eff X) : prog X := Vis e Ret.

Notation "x <- m ;; k" := (bind m (fun x => k))
  (at level 20, m at level 99, k at level 200, only parsing).
Notation "m ;; k" := (bind m (fun _ => k))
  (at level 100, k at level 200, only parsing, right associativity).

(** What an observer of a run sees, in order. *)
Inductive event :=
  | EvCall (prompt : string) (at_ms : Z)
  | EvReply (at_ms : Z) (image : bool)
  | EvTimeout (ms : Z)
  | EvConsole (msg : string).

(** One answer of the image provider: how long it takes and what the
    awaited call settles to. *)
Record reply := {
  latency : N;
  answer : result jsError response
}.

(** The collaborators outside the program: the provider's answer to its
    n-th call, and the keys on which IndexedDB reads and writes reject. *)
Record oracle := {
  provider : nat -> reply;
  get_rejects : string -> bool;
  set_rejects : string -> bool
}.

(** The IndexedDB store holds string payloads under the image keys and a
    record of strings under 'categoryIcons', the two shapes the source
    casts what it reads to. *)
Record world := {
  idb : gmap string string;
  idb_icons : option (gmap string string);
  ui : react;
  clock : Z;
  ncalls : nat;
  trace : list event
}.

Definition with_idb (f : gmap string string -> gmap string string) (w : world) : world :=
  {| idb := f (idb w); idb_icons := idb_icons w; ui := ui w;
     clock := clock w; ncalls := ncalls w; trace := trace w |}.

Definition with_idb_icons (v : option (gmap string string)) (w : world) : world :=
  {| idb := idb w; idb_icons := v; ui := ui w;
     clock := clock w; ncalls := ncalls w; trace := trace w |}.

Definition with_ui (f : react -> react) (w : world) : world :=
  {| idb := idb w; idb_icons := idb_icons w; ui := f (ui w);
     clock := clock w; ncalls := ncalls w; trace := trace w |}.

Definition tick (ms : Z) (w : world) : world :=
  {| idb := idb w; idb_icons := idb_icons w; ui := ui w;
     clock := clock w + ms; ncalls := ncalls w; trace := trace w |}.

Definition emit (ev : event) (w : world) : world :=
  {| idb := idb w; idb_icons := idb_icons w; ui := ui w;
     clock := clock w; ncalls := ncalls w; trace := trace w ++ [ev] |}.

Definition count_call (w : world) : world :=
  {| idb := idb w; idb_icons := idb_icons w; ui := ui w;
     clock := clock w; ncalls := S (ncalls w); trace := trace w |}.

Definition hasImage (a : result jsError response) : bool :=
  match a with
  | Ok r => bool_decide (is_Some (responseImage r))
  | Throw _ => false
  end.

(** The marks an operation leaves on the world. *)
Definition dispatched (prompt : string) (w : world) : world :=
  count_call (emit (EvCall prompt (clock w)) w).

Definition answered (r : reply) (w : world) : world :=
  let w1 := tick (Z.of_N (latency r)) w in
  emit (EvReply (clock w1) (hasImage (answer r))) w1.

Definition waited (ms : Z) (w : world) : world :=
  emit (EvTimeout ms) (tick (Z.max 0 ms) w).

Definition logged (msg : string) (w : world) : world := emit (EvConsole msg) w.

Section Semantics.
Variable o : oracle.

(** Starting an operation.  A provider call is dispatched here; the
    ticket is its index among all provider calls. *)
Definition issue {X} (e : eff X) (w : world) : nat * world :=
  match e with
  | GenerateContent prompt => (ncalls w, dispatched prompt w)
  | _ => (O, w)
  end.

(** Settling an operation: the value the program gets back. *)
Definition complete {X} (e : eff X) (ticket : nat) (w : world) : X * world :=
  match e in eff X return X * world with
  | GenerateContent _ =>
      (answer (provider o ticket), answered (provider o ticket) w)
  | SetTimeout ms => (tt, waited ms w)
  | IdbGet key =>
      if get_rejects o key then (Throw tt, w) else (Ok (idb w !! key), w)
  | IdbSet key value =>
      if set_rejects o key then (Throw tt, w)
      else (Ok tt, with_idb (insert key value) w)
  | IdbGetIcons =>
      if get_rejects o "categoryIcons" then (Throw tt, w)
      else (Ok (idb_icons w), w)
  | IdbSetIcons value =>
      if set_rejects o "categoryIcons" then (Throw tt, w)
      else (Ok tt, with_idb_icons (Some value) w)
  | SetState f => (tt, with_ui f w)
  | Console msg => (tt, logged msg w)
  end.

(** A function run alone, from its call to its return. *)
Fixpoint run {A} (p : prog A) (w : world) : A * world :=
  match p with
  | Ret a => (a, w)
  | Vis e k =>
      let iw := issue e w in
      let xw := complete e (fst iw) (snd iw) in
      run (k (fst xw)) (snd xw)
  end.

(** A started function: suspended at an [await] (with the ticket of
    the operation it waits for) or finished. *)
Record task := {
  ticket : nat;
  code : prog unit
}.

(** Run the synchronous stretch up to the next [await], which it
    starts, or up to the end. *)
Fixpoint advance (p : prog unit) (w : world) : task * world :=
  match p with
  | Ret a => ({| ticket := O; code := Ret a |}, w)
  | Vis e k =>
      if is_await e then
        let iw := issue e w in
        ({| ticket := fst iw; code := Vis e k |}, snd iw)
      else
        let xw := complete e O w in
        advance (k (fst xw)) (snd xw)
  end.

(** The awaited operation settles and the function runs on. *)
Definition resume (t : task) (w : world) : task * world :=
  match code t with
  | Ret a => (t, w)
  | Vis e k =>
      let xw := complete e (ticket t) w in
      advance (k (fst xw)) (snd xw)
  end.

End Semantics.

End Async.

(** ** The image generators ([services/geminiService.ts]) *)

Module Gemini.
Import Async.

(** The prompt of [generateIndividualIcon].  (The later revision of the
    file words the prompt differently; the rest of the function is the
    same.) *)
Definition iconPrompt (name category : string) : string :=
  "3D hyperrealistic icon of a single " +:+ name +:+ " (" +:+ category +:+
  "), individual object, no background, transparent background, " +:+
  "natural detailed textures, soft studio lighting from top left, " +:+
  "subtle contact shadows, vibrant and juicy colors, Octane Render style, " +:+
  "3/4 view, isolated, high quality, ray-tracing.".

(** [generateIndividualIcon(name, category, retryCount)].  The recursion
    of the source is on [retryCount], which only grows while it is below
    3; [fuel] bounds the depth. *)
Fixpoint generateIndividualIcon_from (fuel : nat) (name category : string)
    (retryCount : Z) : prog string :=
  match fuel with
  | O => Ret ""
  | S fuel' =>
      r <- call (GenerateContent (iconPrompt name category)) ;;
      match r with
      | Ok response =>
          match responseImage response with
          | Some d => Ret (dataUrl d)
          | None => Ret ""
          end
      | Throw error =>
          if is429 (error_code error) && (retryCount <? 3) then
            call (SetTimeout (5000 * (retryCount + 1))) ;;
            generateIndividualIcon_from fuel' name category (retryCount + 1)
          else
            call (Console ("Error generating icon for " +:+ name +:+ ":")) ;;
            Ret ""
      end
  end.

(** Enough fuel for every retry that [retryCount < 3] allows. *)
Definition retryFuel (retryCount : Z) : nat := S (Z.to_nat (3 - retryCount)).

Definition generateIndividualIcon (name category : string) : prog string :=
  generateIndividualIcon_from (retryFuel 0) name category 0.

Definition onboardingPrompt (prompt : string) : string :=
  prompt +:+ " 3D render, high quality, isolated on pure white background, " +:+
  "vibrant colors, soft lighting.".

(** [generateOnboardingImage(prompt, retryCount)] *)
Fixpoint generateOnboardingImage_from (fuel : nat) (prompt : string)
    (retryCount : Z) : prog string :=
  match fuel with
  | O => Ret ""
  | S fuel' =>
      r <- call (GenerateContent (onboardingPrompt prompt)) ;;
      match r with
      | Ok response =>
          match responseImage response with
          | Some d => Ret (dataUrl d)
          | None => Ret ""
          end
      | Throw error =>
          let errorCode := code_or (error_code error) (error_status error) in
          if is429 errorCode && (retryCount <? 3) then
            let waitTime := 10000 * (retryCount + 1) in
            call (Console ("Rate limit hit for onboarding image, retrying in "
                           +:+ pretty waitTime +:+ "ms...")) ;;
            call (SetTimeout waitTime) ;;
            generateOnboardingImage_from fuel' prompt (retryCount + 1)
          else
            call (Console "Error generating onboarding image:") ;;
            Ret ""
      end
  end.

Definition generateOnboardingImage (prompt : string) : prog string :=
  generateOnboardingImage_from (retryFuel 0) prompt 0.

(** The errors each generator takes for a rate limit: the test of its
    [catch] block without the bound on [retryCount]. *)
Definition rateLimitedIcon (a : result jsError response) : bool :=
  match a with
  | Throw error => is429 (error_code error)
  | Ok _ => false
  end.

Definition rateLimitedOnboarding (a : result jsError response) : bool :=
  match a with
  | Throw error => is429 (code_or (error_code error) (error_status error))
  | Ok _ => false
  end.

(** What either generator returns for an answer it does not retry. *)
Definition resultOf (a : result jsError response) : string :=
  match a with
  | Ok response =>
      match responseImage response with
      | Some d => dataUrl d
      | None => ""
      end
  | Throw _ => ""
  end.

(** The waits before retries 1 to [k] with base delay [base]:
    [base * 1], ..., [base * k]. *)
Definition backoff (base : Z) (k : nat) : list Z :=
  map (fun attempt => base * (Z.of_nat attempt + 1)) (seq 0 k).

End Gemini.

(** ** The effects that fetch images ([App.tsx]) *)

Module App.
Import Async Gemini.

(** One onboarding step; only its prompt matters here. *)
Record OnboardingStep := { prompt : string }.
Definition steps : list OnboardingStep := [
  {| prompt :=
       "Generate a hyperrealistic 3D illustration of a modern, sleek " +:+
       "double-door refrigerator. The fridge should be fully stocked " +:+
       "with neatly organized fresh groceries in clear containers, " +:+
       "fruits, and vegetables. One of the bottom crisper drawers " +:+
       "should have a subtle green glow emanating from the " +:+
       "vegetables. Soft studio lighting, Octane Render style, front " +:+
       "3/4 view, pure white background." |};
  {| prompt :=
       "Generate a hyperrealistic 3D illustration of a hand holding " +:+
       "a modern smartphone. The phone screen displays an open " +:+
       "camera app interface, actively scanning a bunch of fresh " +:+
       "spinach and a half-cut avocado on a light wooden surface. A " +:+
       "clean, minimalist UI overlay with a green scanning box and " +:+
       "subtle text 'Spinach - Fresh' and '8 days' should be " +:+
       "visible. Soft studio lighting, Octane Render style, " +:+
       "eye-level perspective, pure white background." |};
  {| prompt :=
       "Generate a hyperrealistic 3D illustration of a simple, " +:+
       "elegant bowl of spaghetti with red sauce and fresh basil on " +:+
       "top, placed slightly off-center. Around the bowl, various 3D " +:+
       "ingredients like a red tomato, basil leaves, orecchiette " +:+
       "pasta, and other small pasta shapes should be gently " +:+
       "floating. In the background, a modern smartphone is " +:+
       "levitating, displaying a recipe app interface with '5 Steps' " +:+
       "visible. Soft studio lighting, Octane Render style, slightly " +:+
       "elevated perspective, pure white background." |}
].

Record EmptyState := {
  state_id : string;
  state_prompt : string
}.

Definition states : list EmptyState := [
  {| state_id := "inventory";
     state_prompt :=
       "3D hyperrealistic render of a modern, sleek, empty " +:+
       "double-door refrigerator with glass doors, white frame, " +:+
       "bright internal LED lighting, isolated on a pure white " +:+
       "background, high-end appliance, minimalist style." |};
  {| state_id := "recipes";
     state_prompt :=
       "3D hyperrealistic render of a rustic ceramic bowl on a " +:+
       "circular wooden board. Floating above the bowl are fresh " +:+
       "culinary ingredients: a ripe red tomato, fresh green basil " +:+
       "leaves, sliced red onion rings, sprigs of rosemary, and " +:+
       "scattered black peppercorns. Pure white background, soft " +:+
       "studio lighting, vibrant and appetizing colors." |}
].

(** The template strings that name the IndexedDB keys. *)
Definition onboardingKey (step : nat) : string := "onboarding_img_" +:+ pretty step.
Definition itemIconKey (name : string) : string := "item_icon_" +:+ name.
Definition emptyStateKey (id : string) : string := "empty_state_" +:+ id.

(** Truthiness of a string read from a record or from the store. *)
Definition present (v : option string) : bool :=
  match v with
  | Some s => negb (bool_decide (s = ""))
  | None => false
  end.

Definition flagged (v : option bool) : bool :=
  match v with
  | Some b => b
  | None => false
  end.

(** The state setters, each called with an updater [prev => ...]. *)
Definition setImages (f : gmap nat string -> gmap nat string) : prog unit :=
  call (SetState (fun r =>
    {| images := f (images r); loadingImages := loadingImages r;
       categoryIcons := categoryIcons r; itemIcons := itemIcons r;
       emptyStates := emptyStates r; loadingEmptyStates := loadingEmptyStates r |})).

Definition setLoadingImages (f : gmap nat bool -> gmap nat bool) : prog unit :=
  call (SetState (fun r =>
    {| images := images r; loadingImages := f (loadingImages r);
       categoryIcons := categoryIcons r; itemIcons := itemIcons r;
       emptyStates := emptyStates r; loadingEmptyStates := loadingEmptyStates r |})).

Definition setCategoryIcons (f : gmap string string -> gmap string string) : prog unit :=
  call (SetState (fun r =>
    {| images := images r; loadingImages := loadingImages r;
       categoryIcons := f (categoryIcons r); itemIcons := itemIcons r;
       emptyStates := emptyStates r; loadingEmptyStates := loadingEmptyStates r |})).

Definition setItemIcons (f : gmap string string -> gmap string string) : prog unit :=
  call (SetState (fun r =>
    {| images := images r; loadingImages := loadingImages r;
       categoryIcons := categoryIcons r; itemIcons := f (itemIcons r);
       emptyStates := emptyStates r; loadingEmptyStates := loadingEmptyStates r |})).

Definition setEmptyStates (f : gmap string string -> gmap string string) : prog unit :=
  call (SetState (fun r =>
    {| images := images r; loadingImages := loadingImages r;
       categoryIcons := categoryIcons r; itemIcons := itemIcons r;
       emptyStates := f (emptyStates r); loadingEmptyStates := loadingEmptyStates r |})).

Definition setLoadingEmptyStates (f : gmap string bool -> gmap string bool) : prog unit :=
  call (SetState (fun r =>
    {| images := images r; loadingImages := loadingImages r;
       categoryIcons := categoryIcons r; itemIcons := itemIcons r;
       emptyStates := emptyStates r; loadingEmptyStates := f (loadingEmptyStates r) |})).

(** The part of [fetchImage] after the cache lookups: the loading flag
    is checked and set, the image generated, shown and persisted, and
    the [finally] clears the flag. *)
Definition fetchImage_generate (step : nat) (loadingImages : gmap nat bool)
    : prog unit :=
  if flagged (loadingImages !! step) then Ret tt
  else
    setLoadingImages (fun prev => <[step := true]> prev) ;;
    match steps !! step with
    | Some s =>
        url <- generateOnboardingImage (prompt s) ;;
        if present (Some url) then
          setImages (fun prev => <[step := url]> prev) ;;
          stored <- call (IdbSet (onboardingKey step) url) ;;
          match stored with
          | Ok _ => Ret tt
          | Throw _ => call (Console "Error fetching onboarding image:")
          end
        else Ret tt
    | None => call (Console "Error fetching onboarding image:")
    end ;;
    setLoadingImages (fun prev => <[step := false]> prev).

(** [fetchImage] of the [Onboarding] component.  [step], [images] and
    [loadingImages] are the values of the render whose effect started the
    call: the closure reads them, not the current state. *)
Definition fetchImage (step : nat) (images : gmap nat string)
    (loadingImages : gmap nat bool) : prog unit :=
  if present (images !! step) then Ret tt
  else
    cached <- call (IdbGet (onboardingKey step)) ;;
    match cached with
    | Ok c =>
        if present c then setImages (fun prev => <[step := default "" c]> prev)
        else fetchImage_generate step loadingImages
    | Throw _ =>
        call (Console "IDB error") ;;
        fetchImage_generate step loadingImages
    end.

Record IconCategory := {
  icon_id : string;
  icon_name : string;
  icon_cat : string
}.

Definition categories : list IconCategory := [
  {| icon_id := "granos"; icon_name := "a bowl of rice"; icon_cat := "Grains" |};
  {| icon_id := "verduras"; icon_name := "fresh broccoli"; icon_cat := "Vegetables" |};
  {| icon_id := "frutas"; icon_name := "a red apple"; icon_cat := "Fruits" |};
  {| icon_id := "lacteos"; icon_name := "a bottle of milk"; icon_cat := "Dairy" |};
  {| icon_id := "proteinas"; icon_name := "a beef steak"; icon_cat := "Proteins" |}
].

(** One turn of the [for] loop of [fetchIcons]; [icons] is the local
    record the loop fills. *)
Definition fetchIcons_body (cat : IconCategory) (icons : gmap string string)
    : prog (gmap string string) :=
  iconUrl <- generateIndividualIcon (icon_name cat) (icon_cat cat) ;;
  if present (Some iconUrl) then
    setCategoryIcons (fun prev => <[icon_id cat := iconUrl]> prev) ;;
    call (SetTimeout 3000) ;;
    Ret (<[icon_id cat := iconUrl]> icons)
  else Ret icons.

Fixpoint fetchIcons_loop (cats : list IconCategory) (icons : gmap string string)
    : prog (gmap string string) :=
  match cats with
  | [] => Ret icons
  | cat :: rest =>
      icons' <- fetchIcons_body cat icons ;;
      fetchIcons_loop rest icons'
  end.

(** The part of [fetchIcons] after the cache lookup. *)
Definition fetchIcons_generate : prog unit :=
  icons <- fetchIcons_loop categories ∅ ;;
  stored <- call (IdbSetIcons icons) ;;
  match stored with
  | Ok _ => Ret tt
  | Throw _ => call (Console "Error saving to IndexedDB")
  end.

(** [fetchIcons] of the [App] component.  A stored record is an object,
    which is always truthy. *)
Definition fetchIcons : prog unit :=
  savedIcons <- call IdbGetIcons ;;
  match savedIcons with
  | Ok (Some saved) => setCategoryIcons (fun _ => saved)
  | Ok None => fetchIcons_generate
  | Throw _ =>
      call (Console "Error reading from IndexedDB") ;;
      fetchIcons_generate
  end.

Inductive ManualAddStep := StepCategories | StepItems | StepCongrats.

(** One turn of the [for] loop of [fetchItemIcons], on its locals
    [newIcons] and [changed]. *)
Definition fetchItemIcons_body (categoryName : string) (item : Inventory.Food)
    (newIcons : gmap string string) (changed : bool)
    : prog (gmap string string * bool) :=
  let name := Inventory.food_name item in
  if present (newIcons !! name) then Ret (newIcons, changed)
  else
    cached <- call (IdbGet (itemIconKey name)) ;;
    match cached with
    | Throw _ =>
        call (Console ("Error fetching icon for " +:+ name)) ;;
        Ret (newIcons, changed)
    | Ok c =>
        if present c then Ret (<[name := default "" c]> newIcons, true)
        else
          url <- generateIndividualIcon name categoryName ;;
          if present (Some url) then
            stored <- call (IdbSet (itemIconKey name) url) ;;
            match stored with
            | Ok _ =>
                call (SetTimeout 1000) ;;
                Ret (<[name := url]> newIcons, true)
            | Throw _ =>
                call (Console ("Error fetching icon for " +:+ name)) ;;
                Ret (<[name := url]> newIcons, changed)
            end
          else Ret (newIcons, changed)
    end.

Fixpoint fetchItemIcons_loop (categoryName : string) (items : list Inventory.Food)
    (newIcons : gmap string string) (changed : bool)
    : prog (gmap string string * bool) :=
  match items with
  | [] => Ret (newIcons, changed)
  | item :: rest =>
      r <- fetchItemIcons_body categoryName item newIcons changed ;;
      fetchItemIcons_loop categoryName rest (fst r) (snd r)
  end.

(** The effect that fetches item icons; [itemIcons] is the state of the
    render that started it. *)
Definition fetchItemIcons (selectedCategory : option Inventory.FoodCategory)
    (manualAddStep : option ManualAddStep) (itemIcons : gmap string string)
    : prog unit :=
  match selectedCategory, manualAddStep with
  | Some category, Some StepItems =>
      r <- fetchItemIcons_loop (Inventory.cat_name category)
             (Inventory.items category) itemIcons false ;;
      if snd r then setItemIcons (fun _ => fst r) else Ret tt
  | _, _ => Ret tt
  end.

(** One turn of the [for] loop of [fetchEmptyStates]; every path of the
    [try] ends in the [finally] that clears the loading flag. *)
Definition fetchEmptyStates_body (state : EmptyState) : prog unit :=
  let id := state_id state in
  cached <- call (IdbGet (emptyStateKey id)) ;;
  match cached with
  | Throw _ => call (Console ("Error fetching empty state " +:+ id))
  | Ok c =>
      if present c then
        setEmptyStates (fun prev => <[id := default "" c]> prev)
      else
        setLoadingEmptyStates (fun prev => <[id := true]> prev) ;;
        url <- generateOnboardingImage (state_prompt state) ;;
        if present (Some url) then
          setEmptyStates (fun prev => <[id := url]> prev) ;;
          stored <- call (IdbSet (emptyStateKey id) url) ;;
          match stored with
          | Ok _ => Ret tt
          | Throw _ => call (Console ("Error fetching empty state " +:+ id))
          end
        else Ret tt
  end ;;
  setLoadingEmptyStates (fun prev => <[id := false]> prev).

Fixpoint fetchEmptyStates_loop (sts : list EmptyState) : prog unit :=
  match sts with
  | [] => Ret tt
  | state :: rest =>
      fetchEmptyStates_body state ;;
      fetchEmptyStates_loop rest
  end.

Definition fetchEmptyStates : prog unit := fetchEmptyStates_loop states.

End App.

(** ** Several effects in flight *)

Module Scheduler.
Import Async.

(** What can happen next on the event loop: a render starts an effect
    (which closes over the state of that render), or the operation a
    task awaits settles. *)
Inductive step :=
  | Spawn (effect : react -> prog unit)
  | Settle (i : nat).

Definition step_pool (o : oracle) (s : step) (st : list task * world)
    : list task * world :=
  match s with
  | Spawn effect =>
      let tw := advance o (effect (ui (snd st))) (snd st) in
      ((fst st ++ [fst tw])%list, snd tw)
  | Settle i =>
      match fst st !! i with
      | Some t =>
          let tw := resume o t (snd st) in
          (<[i := fst tw]> (fst st), snd tw)
      | None => st
      end
  end.

Definition exec (o : oracle) (schedule : list step) (w : world)
    : list task * world :=
  fold_left (fun st s => step_pool o s st) schedule ([], w).

(** The tasks of a pool that wait for the provider. *)
Definition awaitsProvider (t : task) : bool :=
  match code t with
  | Vis (GenerateContent _) _ => true
  | _ => false
  end.

End Scheduler.

(** ** Reading a trace *)

Module Trace.
Import Async.

Definition isCall (ev : event) : bool :=
  match ev with
  | EvCall _ _ => true
  | _ => false
  end.

(** The prompts of the provider calls, in dispatch order. *)
Definition callPrompts (tr : list event) : list string :=
  omap (fun ev => match ev with EvCall p _ => Some p | _ => None end) tr.

(** The times at which provider calls were dispatched. *)
Definition callTimes (tr : list event) : list Z :=
  omap (fun ev => match ev with EvCall _ t => Some t | _ => None end) tr.

(** The backoff and spacing waits, in order. *)
Definition waits (tr : list event) : list Z :=
  omap (fun ev => match ev with EvTimeout ms => Some ms | _ => None end) tr.

Definition consoleLines (tr : list event) : list string :=
  omap (fun ev => match ev with EvConsole m => Some m | _ => None end) tr.

(** Provider calls made for one prompt. *)
Definition callsFor (p : string) (tr : list event) : nat :=
  length (filter (fun q => q = p) (callPrompts tr)).

(** The time of the first provider call of [tr], or [now] when it has
    none yet. *)
Fixpoint nextCallTime (tr : list event) (now : Z) : Z :=
  match tr with
  | [] => now
  | EvCall _ t :: _ => t
  | _ :: rest => nextCallTime rest now
  end.

(** Every answer that carried an image is followed by no provider call
    sooner than [gap] later; [now] stands for the earliest time a call
    not yet in the trace can be dispatched. *)
Fixpoint spacedAfterImage (gap : Z) (tr : list event) (now : Z) : Prop :=
  match tr with
  | [] => True
  | EvReply t true :: rest =>
      t + gap <= nextCallTime rest now /\ spacedAfterImage gap rest now
  | _ :: rest => spacedAfterImage gap rest now
  end.

(** No answer in [tr] carried an image. *)
Definition quiet (tr : list event) : Prop :=
  Forall (fun ev => match ev with EvReply _ true => False | _ => True end) tr.

(** No provider call of [tr] was dispatched before [t0]. *)
Definition callsNotBefore (t0 : Z) (tr : list event) : Prop :=
  Forall (fun ev => match ev with EvCall _ t => t0 <= t | _ => True end) tr.

(** An IndexedDB read that yields nothing usable: it rejects, finds no
    entry, or finds an empty string. *)
Definition missed (o : oracle) (w : world) (key : string) : Prop :=
  get_rejects o key = true \/ App.present (idb w !! key) = false.

(** What a generator call can do to the world, whatever the provider
    answers: it leaves the store and the React state alone, makes at
    least one and at most [fuel] provider calls, none before it was
    started, and the only answer with an image is the last event of a
    call that returns an image. *)
Definition generated (fuel : nat) (w : world) (r : string * world) : Prop :=
  ui (snd r) = ui w /\ idb (snd r) = idb w /\ idb_icons (snd r) = idb_icons w
  /\ (ncalls w <= ncalls (snd r) <= ncalls w + fuel)%nat
  /\ ((0 < fuel)%nat -> (ncalls w < ncalls (snd r))%nat)
  /\ clock w <= clock (snd r)
  /\ exists tr, trace (snd r) = (trace w ++ tr)%list
               /\ callsNotBefore (clock w) tr
               /\ if App.present (Some (fst r))
                  then exists tr0, tr = (tr0 ++ [EvReply (clock (snd r)) true])%list
                                   /\ quiet tr0
                  else quiet tr.



(** Whether a program can reach a provider call at all, whatever the
    operations before it return. *)
Fixpoint dispatches {A} (p : prog A) : Prop :=
  match p with
  | Ret _ => False
  | Vis e k => if isGenerate e then True else exists x, dispatches (k x)
  end.

(** What a generator call leaves behind when exactly [k] answers were
    retried, starting at retry count [rc]: [k + 1] provider calls with
    one prompt, the [k] waits of the linear schedule, and the store and
    the React state untouched. *)
Definition retried (prompt : string) (base rc : Z) (k : nat) (w w' : world) : Prop :=
  ncalls w' = (ncalls w + k + 1)%nat
  /\ callPrompts (trace w') = (callPrompts (trace w) ++ replicate (S k) prompt)%list
  /\ waits (trace w')
     = (waits (trace w)
        ++ map (fun i => base * (rc + Z.of_nat i + 1)) (seq 0 k))%list
  /\ idb w' = idb w /\ idb_icons w' = idb_icons w /\ ui w' = ui w.

End Trace.

(** ** Sample worlds and collaborators *)

Module Samples.
Import Async.

Definition react0 : react :=
  {| images := ∅; loadingImages := ∅; categoryIcons := ∅;
     itemIcons := ∅; emptyStates := ∅; loadingEmptyStates := ∅ |}.

(** A fresh session: nothing stored, nothing shown, no call made. *)
Definition world0 : world :=
  {| idb := ∅; idb_icons := None; ui := react0;
     clock := 0; ncalls := 0; trace := [] |}.

Definition error429 : jsError :=
  {| error_code := CNum 429; error_status := CStr "RESOURCE_EXHAUSTED" |}.

Definition error500 : jsError :=
  {| error_code := CNum 500; error_status := CStr "INTERNAL" |}.

Definition rateLimit (ms : N) : reply :=
  {| latency := ms; answer := Throw error429 |}.

Definition serverError (ms : N) : reply :=
  {| latency := ms; answer := Throw error500 |}.

Definition image (ms : N) (d : string) : reply :=
  {| latency := ms;
     answer := Ok (Some [ {| inlineData := None |}; {| inlineData := Some d |} ]) |}.

(** A response whose parts carry text only. *)
Definition noImage (ms : N) : reply :=
  {| latency := ms; answer := Ok (Some [ {| inlineData := None |} ]) |}.

Definition storageWorks : string -> bool := fun _ => false.
Definition storageFails : string -> bool := fun _ => true.

(** Three rate limits, then an image. *)
Definition thriceLimited : oracle :=
  {| provider := fun n => if (n <? 3)%nat then rateLimit 100 else image 200 "AAAA";
     get_rejects := storageWorks; set_rejects := storageWorks |}.

(** Rate limits for ever. *)
Definition alwaysLimited : oracle :=
  {| provider := fun _ => rateLimit 100;
     get_rejects := storageWorks; set_rejects := storageWorks |}.

(** Every call answered with an image after 100 ms. *)
Definition alwaysImage : oracle :=
  {| provider := fun _ => image 100 "AAAA";
     get_rejects := storageWorks; set_rejects := storageWorks |}.

(** The same provider when IndexedDB reads work and writes are refused. *)
Definition writesRefused : oracle :=
  {| provider := fun _ => image 100 "AAAA";
     get_rejects := storageWorks; set_rejects := storageFails |}.

(** The first call fails with a server error after 50 ms; later calls
    return images. *)
Definition firstFails : oracle :=
  {| provider := fun n => match n with O => serverError 50 | _ => image 100 "AAAA" end;
     get_rejects := storageWorks; set_rejects := storageWorks |}.

(** A session that finds step 0's image and the category icons stored. *)
Definition cachedWorld : world :=
  {| idb := {[ "onboarding_img_0" := "data:image/png;base64,BBBB" ]};
     idb_icons := Some {[ "granos" := "data:image/png;base64,CCCC" ]};
     ui := react0; clock := 0; ncalls := 0; trace := [] |}.

Definition alwaysServerError : oracle :=
  {| provider := fun _ => serverError 50;
     get_rejects := storageWorks; set_rejects := storageWorks |}.

End Samples.

(** ** Navigation, carousel, filters and selection ([App.tsx]) *)

Module Views.
Import Expiry Inventory.

(** What moves the [Onboarding] component: the button, keys and drags
    that call [handleNext] or [handlePrev], and the dot of step [i]. *)
Inductive NavEvent :=
  | NavNext
  | NavPrev
  | NavDot (i : nat).

(** [handleNext]: the new step, and whether [onFinish] was called. *)
Definition handleNext (step : nat) : nat * bool :=
  if Z.of_nat step <? Z.of_nat (length App.steps) - 1 then (S step, false)
  else (step, true).

(** [handlePrev] *)
Definition handlePrev (step : nat) : nat :=
  if 0 <? Z.of_nat step then (step - 1)%nat else step.

(** The [keydown] handler of [Onboarding]. *)
Definition onboardingKey (key : string) : option NavEvent :=
  if bool_decide (key = "ArrowRight") || bool_decide (key = "Enter")
     || bool_decide (key = " ")
  then Some NavNext
  else if bool_decide (key = "ArrowLeft") then Some NavPrev
  else None.

Definition navigate (ev : NavEvent) (step : nat) : nat * bool :=
  match ev with
  | NavNext => handleNext step
  | NavPrev => (handlePrev step, false)
  | NavDot i => (i, false)
  end.

(** The events of one visit; [onFinish] leaves the component, after
    which nothing reaches it. *)
Fixpoint onboardingRun (events : list NavEvent) (step : nat) : nat * bool :=
  match events with
  | [] => (step, false)
  | ev :: rest =>
      let r := navigate ev step in
      if snd r then r else onboardingRun rest (fst r)
  end.

(** A dot exists for each step and for nothing else. *)
Definition dotInRange (ev : NavEvent) : Prop :=
  match ev with
  | NavDot i => (i < length App.steps)%nat
  | _ => True
  end.

(** The updaters [prev => (prev + 1) % length] and
    [prev => (prev - 1 + length) % length] of the carousel; [%] is the
    remainder that takes the sign of the dividend. *)
Definition carouselNext (len prev : Z) : Z := Z.rem (prev + 1) len.
Definition carouselPrev (len prev : Z) : Z := Z.rem (prev - 1 + len) len.

(** The [keydown] handler of the carousel; [active] stands for the
    guards on the view, the tab and the open sheets. *)
Definition carouselKey (active : bool) (len : Z) (key : string) (prev : Z) : Z :=
  if negb active || (len =? 0) then prev
  else if bool_decide (key = "ArrowRight") then carouselNext len prev
  else if bool_decide (key = "ArrowLeft") then carouselPrev len prev
  else prev.

(** [filteredItems[carouselIndex % filteredItems.length]]; an index
    below zero reads [undefined]. *)
Definition currentItem {A} (filteredItems : list A) (carouselIndex : Z) : option A :=
  let i := Z.rem carouselIndex (Z.of_nat (length filteredItems)) in
  if i <? 0 then None else filteredItems !! Z.to_nat i.

(** What changes [carouselIndex]: a key or a drag on a list of [len]
    items, or a filter button, which resets it. *)
Inductive CarouselEvent :=
  | CarouselKey (active : bool) (len : nat) (key : string)
  | CarouselDragNext (len : nat)
  | CarouselDragPrev (len : nat)
  | CarouselFilter.

Definition carouselStep (ev : CarouselEvent) (idx : Z) : Z :=
  match ev with
  | CarouselKey active len key => carouselKey active (Z.of_nat len) key idx
  | CarouselDragNext len => carouselNext (Z.of_nat len) idx
  | CarouselDragPrev len => carouselPrev (Z.of_nat len) idx
  | CarouselFilter => 0
  end.

Definition carouselRun (events : list CarouselEvent) (idx : Z) : Z :=
  fold_left (fun i ev => carouselStep ev i) events idx.

(** The card that is dragged is only rendered for a non-empty list. *)
Definition dragOnItems (ev : CarouselEvent) : Prop :=
  match ev with
  | CarouselDragNext len | CarouselDragPrev len => (0 < len)%nat
  | _ => True
  end.

(** The strings [getExpiryStatus] puts in [category]. *)
Definition categoryLabel (c : Category) : string :=
  match c with
  | Urgent => "Urgent"
  | Soon => "Soon"
  | Fresh => "Fresh"
  end.

Definition statusLabel (tz now : Z) (item : FoodItem) : string :=
  categoryLabel (Expiry.category (getExpiryStatus tz (expiry_date item) now)).

(** [filteredItems]: [filter] is 'All' or one of the three labels.  One
    clock reading [now] stands for the readings of a render. *)
Definition filteredItems (tz now : Z) (filter : string) (items : list FoodItem)
    : list FoodItem :=
  base.filter (fun item => filter = "All" \/ statusLabel tz now item = filter) items.

(** [expiringCount] *)
Definition expiringCount (tz now : Z) (items : list FoodItem) : nat :=
  length (base.filter (fun i => statusLabel tz now i = "Hoy") items).

(** [categoriesWithItems.size >= 2] *)
Definition showChips (tz now : Z) (items : list FoodItem) : bool :=
  (2 <=? length (remove_dups (map (statusLabel tz now) items)))%nat.

(** [selectedItems.some(i => i.name === food.name)] *)
Definition isSelected (food : Food) (selectedItems : list Food) : bool :=
  existsb (fun i => bool_decide (food_name i = food_name food)) selectedItems.

(** The updater of [toggleItemSelection]. *)
Definition toggleItemSelection (food : Food) (prev : list Food) : list Food :=
  match List.find (fun i => bool_decide (food_name i = food_name food)) prev with
  | Some _ => base.filter (fun i => food_name i <> food_name food) prev
  | None => (prev ++ [food])%list
  end.





End Views.

(** ** The recipe prompt and the captured photo ([services/geminiService.ts]) *)

Module Recipes.
Import Expiry Inventory Async.

(** [Math.ceil((expiry - now) / (1000 * 60 * 60 * 24))].  The quotient
    is taken exact, which the double division is for spans below 2^25
    days. *)
Definition ceilDays (expiry now : Z) : Z := - ((now - expiry) / msPerDay).

(** The text for one item (later revision of the file). *)
Definition recipeEntry (now : Z) (i : FoodItem) : string :=
  name i +:+ " (expires in " +:+ pretty (ceilDays (expiry_date i) now) +:+ " days)".

#[global] Instance Status_eq_dec : EqDecision Status.
Proof. solve_decision. Defined.

(** [items.filter(i => i.status !== 'expired')] *)
Definition listedItems (items : list FoodItem) : list FoodItem :=
  base.filter (fun i => status i <> expired) items.

(** [Array.prototype.join] *)
Fixpoint joinWith (sep : string) (l : list string) : string :=
  match l with
  | [] => ""
  | [x] => x
  | x :: rest => x +:+ sep +:+ joinWith sep rest
  end.

(** [expiringItems] of [generateRecipe]; one clock reading [now] stands
    for the readings of [Date.now()]. *)
Definition expiringItems (now : Z) (items : list FoodItem) : string :=
  joinWith ", " (map (recipeEntry now) (listedItems items)).

(** [s.split(',')] *)
Fixpoint splitComma (s : string) : list string :=
  match s with
  | EmptyString => [EmptyString]
  | String c s' =>
      if bool_decide (c = ","%char) then EmptyString :: splitComma s'
      else match splitComma s' with
           | h :: t => String c h :: t
           | [] => [String c EmptyString]
           end
  end.

(** [base64Image.split(',')[1] || base64Image] of [analyzeFoodImage] *)
Definition inlineImageData (base64Image : string) : string :=
  match splitComma base64Image !! 1%nat with
  | Some piece => if bool_decide (piece = "") then base64Image else piece
  | None => base64Image
  end.

Fixpoint hasComma (s : string) : bool :=
  match s with
  | EmptyString => false
  | String c s' => bool_decide (c = ","%char) || hasComma s'
  end.

(** [Recipe] of the later revision. *)
Record Recipe := {
  recipe_title : string;
  recipe_description : string;
  prepTime : string;
  difficulty : string;
  ingredients : list string;
  recipe_steps : list string;
  imageUrl : option string
}.

Definition recipeImagePrompt (title : string) : string :=
  "Professional food photography of " +:+ title +:+
  ", high-end restaurant plating, close-up, soft natural lighting, " +:+
  "vibrant colors, bokeh background, 8k resolution, appetizing.".

(** [generateRecipeImage(title)]: no [try], so a rejected call rejects
    the function. *)
Definition generateRecipeImage (title : string) : prog (result jsError string) :=
  r <- call (GenerateContent (recipeImagePrompt title)) ;;
  match r with
  | Ok response =>
      match responseImage response with
      | Some d => Ret (Ok (dataUrl d))
      | None => Ret (Ok "")
      end
  | Throw error => Ret (Throw error)
  end.

(** The end of [generateRecipe], from the parsed [recipe] on. *)
Definition generateRecipe_image (recipe : Recipe) : prog Recipe :=
  r <- generateRecipeImage (recipe_title recipe) ;;
  match r with
  | Ok url =>
      Ret {| recipe_title := recipe_title recipe;
             recipe_description := recipe_description recipe;
             prepTime := prepTime recipe; difficulty := difficulty recipe;
             ingredients := ingredients recipe;
             recipe_steps := recipe_steps recipe;
             imageUrl := Some url |}
  | Throw _ =>
      call (Console "Error generating recipe image") ;;
      Ret recipe
  end.

End Recipes.

(** ** The script that generates the onboarding images *)

Module Script.
Import Async.

Definition scriptPrompt (prompt : string) : string :=
  prompt +:+ " 3D render, high quality, isolated on pure white background, " +:+
  "vibrant colors, soft lighting, Octane Render style.".

(** [generate(prompt)]: nothing is caught. *)
Definition generate (prompt : string) : prog (result jsError string) :=
  r <- call (GenerateContent (scriptPrompt prompt)) ;;
  match r with
  | Ok response =>
      match responseImage response with
      | Some d => Ret (Ok (dataUrl d))
      | None => Ret (Ok "")
      end
  | Throw error => Ret (Throw error)
  end.

(** The three prompts of the script, which are those of the onboarding
    steps. *)
Definition prompts : list string := map App.prompt App.steps.

(** The [for] loop of [main] from turn [i] on; [total] is
    [prompts.length] and [results] the array filled so far. *)
Fixpoint main_loop (total i : nat) (rest : list string) (results : list string)
    : prog (result jsError (list string)) :=
  match rest with
  | [] => Ret (Ok results)
  | p :: rest' =>
      call (Console ("Generating image " +:+ pretty (i + 1)%nat +:+ "...")) ;;
      img <- generate p ;;
      match img with
      | Throw error => Ret (Throw error)
      | Ok img =>
          (if Z.of_nat i <? Z.of_nat total - 1 then call (SetTimeout 5000)
           else Ret tt) ;;
          main_loop total (S i) rest' (results ++ [img])%list
      end
  end.

(** [main()]: what it resolves to is the array it prints, what it
    rejects with goes to [catch(console.error)]. *)
Definition main_on (ps : list string) : prog (result jsError (list string)) :=
  main_loop (length ps) 0 ps [].

Definition main : prog (result jsError (list string)) := main_on prompts.

End Script.

(** ** More readings of traces and more samples *)

Module Readings.
Import Async.

(** Consecutive times are at least [gap] apart. *)
Fixpoint gapsAtLeast (gap : Z) (ts : list Z) : Prop :=
  match ts with
  | t1 :: (t2 :: _) as rest => t1 + gap <= t2 /\ gapsAtLeast gap rest
  | _ => True
  end.

(** Whether an awaited provider call rejected. *)
Definition isThrow (a : result jsError response) : bool :=
  match a with
  | Throw _ => true
  | Ok _ => false
  end.

(** A trace without its console lines: the provider calls, their
    answers and the waits, in the order they happened. *)
Definition timeline (tr : list event) : list event :=
  omap (fun ev => match ev with EvConsole _ => None | _ => Some ev end) tr.

(** The timeline of a generator call whose first [k] answers are
    retried, started at time [t] with retry count [rc] when [n] provider
    calls had been made: each call is followed by its answer, each
    retried answer by the wait [base * (rc + 1)], and the next call is
    dispatched when that wait is over. *)
Fixpoint schedule (o : oracle) (prompt : string) (base : Z) (n : nat) (rc t : Z)
    (k : nat) : list event :=
  let r := provider o n in
  let t' := t + Z.of_N (latency r) in
  EvCall prompt t :: EvReply t' (hasImage (answer r)) ::
  match k with
  | O => []
  | S k' =>
      EvTimeout (base * (rc + 1))
      :: schedule o prompt base (S n) (rc + 1) (t' + base * (rc + 1)) k'
  end.

(** How urgent a category is. *)
Definition urgencyRank (c : Expiry.Category) : Z :=
  match c with
  | Expiry.Urgent => 0
  | Expiry.Soon => 1
  | Expiry.Fresh => 2
  end.

(** A new session over the same IndexedDB: the React state is fresh. *)
Definition reopened (w : world) : world :=
  {| idb := idb w; idb_icons := idb_icons w; ui := Samples.react0;
     clock := clock w; ncalls := ncalls w; trace := trace w |}.

(** The second call throws a server error; the others return images. *)
Definition secondFails : oracle :=
  {| provider := fun n => match n with
                          | 1%nat => Samples.serverError 50
                          | _ => Samples.image 100 "AAAA"
                          end;
     get_rejects := Samples.storageWorks; set_rejects := Samples.storageWorks |}.

(** A rate limit that carries its code in [status] only. *)
Definition status429 : jsError :=
  {| error_code := CUndefined; error_status := CNum 429 |}.

(** Three such rate limits, then an image. *)
Definition thriceStatusLimited : oracle :=
  {| provider := fun n => if (n <? 3)%nat
                          then {| latency := 100; answer := Throw status429 |}
                          else Samples.image 200 "AAAA";
     get_rejects := Samples.storageWorks; set_rejects := Samples.storageWorks |}.

(** Every call answered after 100 ms with a part whose inline data is
    the empty string. *)
Definition emptyData : oracle :=
  {| provider := fun _ =>
       {| latency := 100; answer := Ok (Some [ {| inlineData := Some "" |} ]) |};
     get_rejects := Samples.storageWorks; set_rejects := Samples.storageWorks |}.

(** One rate limit, then a response without an image. *)
Definition onceLimited : oracle :=
  {| provider := fun n => match n with
                          | O => Samples.rateLimit 100
                          | _ => Samples.noImage 100
                          end;
     get_rejects := Samples.storageWorks; set_rejects := Samples.storageWorks |}.

End Readings.

(** * Properties *)

Local Open Scope list_scope.

(** ** The expiry classifier *)

Section ExpiryFacts.
Import Expiry.

Lemma msPerDay_pos : 0 < msPerDay.
Proof. reflexivity. Qed.

(** The two midnights differ by a whole number of days, so the
    division of [getExpiryStatus] is exact. *)
Lemma midnight_difference (tz e now : Z) :
  (setHoursMidnight tz e - setHoursMidnight tz now) / msPerDay
  = localDay tz e - localDay tz now.
Proof.
  unfold setHoursMidnight.
  replace (localDay tz e * msPerDay - tz - (localDay tz now * msPerDay - tz))
    with ((localDay tz e - localDay tz now) * msPerDay) by ring.
  apply Z.div_mul. pose proof msPerDay_pos. lia.
Qed.

Lemma daysLeft_getExpiryStatus (tz e now : Z) :
  daysLeft (getExpiryStatus tz e now)
  = (setHoursMidnight tz e - setHoursMidnight tz now) / msPerDay.
Proof.
  unfold getExpiryStatus. cbv zeta.
  repeat case_match; reflexivity.
Qed.

Lemma daysLeft_localDay (tz e now : Z) :
  daysLeft (getExpiryStatus tz e now) = localDay tz e - localDay tz now.
Proof. rewrite daysLeft_getExpiryStatus. apply midnight_difference. Qed.

Lemma category_by_daysLeft (tz e now : Z) :
  category (getExpiryStatus tz e now)
  = if daysLeft (getExpiryStatus tz e now) <=? 2 then Urgent
    else if daysLeft (getExpiryStatus tz e now) <=? 5 then Soon
    else Fresh.
Proof.
  rewrite daysLeft_getExpiryStatus.
  unfold getExpiryStatus. cbv zeta.
  repeat case_match; reflexivity.
Qed.

Lemma category_thresholds (tz e now : Z) :
  let s := getExpiryStatus tz e now in
  (category s = Urgent <-> daysLeft s <= 2)
  /\ (category s = Soon <-> 3 <= daysLeft s <= 5)
  /\ (category s = Fresh <-> daysLeft s > 5).
Proof.
  cbv zeta. rewrite category_by_daysLeft.
  destruct (Z.leb_spec (daysLeft (getExpiryStatus tz e now)) 2);
    [|destruct (Z.leb_spec (daysLeft (getExpiryStatus tz e now)) 5)];
    repeat split; intros; try discriminate; try lia; try reflexivity.
Qed.

Lemma localDay_localInstant (tz y m d ms : Z) :
  localDay tz (localInstant tz y m d ms) = daysFromCivil y m d.
Proof.
  unfold localDay, localInstant, utc.
  replace (daysFromCivil y m d * msPerDay + ms mod msPerDay - tz + tz)
    with (ms mod msPerDay + daysFromCivil y m d * msPerDay) by ring.
  rewrite Z.div_add by discriminate.
  rewrite Z.div_small; [lia|].
  apply Z.mod_pos_bound, msPerDay_pos.
Qed.

Lemma classify_dates (tz y m d ms y' m' d' ms' : Z) :
  let s := getExpiryStatus tz (localInstant tz y' m' d' ms')
                              (localInstant tz y m d ms) in
  daysLeft s = daysFromCivil y' m' d' - daysFromCivil y m d.
Proof.
  cbv zeta. rewrite daysLeft_localDay, !localDay_localInstant. reflexivity.
Qed.

(** C5.  With both instants brought to local midnight and [daysLeft]
    the floor of their difference in days, the classifier answers
    Urgent exactly when [daysLeft <= 2], Soon exactly when
    [3 <= daysLeft <= 5] and Fresh exactly when [daysLeft > 5].  With
    today any instant of 2024-01-10 (in any fixed-offset zone), an
    expiry on 2024-01-11 is Urgent with 1 day left, on 2024-01-14 Soon
    with 4, on 2024-01-20 Fresh with 10, on 2024-01-09 Urgent with -1. *)
Theorem getExpiryStatus_thresholds :
  (forall tz e now : Z,
      let s := getExpiryStatus tz e now in
      daysLeft s = (setHoursMidnight tz e - setHoursMidnight tz now) / msPerDay
      /\ (category s = Urgent <-> daysLeft s <= 2)
      /\ (category s = Soon <-> 3 <= daysLeft s <= 5)
      /\ (category s = Fresh <-> daysLeft s > 5))
  /\ (forall tz msNow msExpiry : Z,
      let today := localInstant tz 2024 1 10 msNow in
      let on d := getExpiryStatus tz (localInstant tz 2024 1 d msExpiry) today in
      (category (on 11) = Urgent /\ daysLeft (on 11) = 1)
      /\ (category (on 14) = Soon /\ daysLeft (on 14) = 4)
      /\ (category (on 20) = Fresh /\ daysLeft (on 20) = 10)
      /\ (category (on 9) = Urgent /\ daysLeft (on 9) = -1)).
Proof.
  split.
  - intros tz e now. cbv zeta. split.
    + apply daysLeft_getExpiryStatus.
    + apply category_thresholds.
  - intros tz msNow msExpiry. cbv zeta.
    repeat split;
      rewrite ?category_by_daysLeft, classify_dates; reflexivity.
Qed.

(** C9.  The classifier is a total function of the two instants, and
    its answer does not depend on the time of day of [now]: two
    readings of the clock on the same local calendar day give the same
    category and the same [daysLeft] (the whole record, in fact). *)
Theorem getExpiryStatus_stable_within_day (tz e now1 now2 : Z) :
  localDay tz now1 = localDay tz now2 ->
  getExpiryStatus tz e now1 = getExpiryStatus tz e now2
  /\ category (getExpiryStatus tz e now1) = category (getExpiryStatus tz e now2)
  /\ daysLeft (getExpiryStatus tz e now1) = daysLeft (getExpiryStatus tz e now2).
Proof.
  intros Hday.
  assert (getExpiryStatus tz e now1 = getExpiryStatus tz e now2) as ->.
  { unfold getExpiryStatus, setHoursMidnight. rewrite Hday. reflexivity. }
  repeat split.
Qed.

Lemma getExpiryStatus_stable_within_day_witness :
  localDay (-18000000) (utc 2024 1 10 21600000)
    = localDay (-18000000) (utc 2024 1 11 17999999)
  /\ getExpiryStatus (-18000000) (utc 2024 1 14 0) (utc 2024 1 10 21600000)
     = getExpiryStatus (-18000000) (utc 2024 1 14 0) (utc 2024 1 11 17999999).
Proof.
  split; [reflexivity|].
  apply (getExpiryStatus_stable_within_day (-18000000) (utc 2024 1 14 0)
           (utc 2024 1 10 21600000) (utc 2024 1 11 17999999)).
  reflexivity.
Defined.

End ExpiryFacts.

(** ** The status stored with an inventory item *)

Section InventoryFacts.
Import Expiry Inventory.



End InventoryFacts.

(** ** Dates in a zone with transitions *)

Section ZonedFacts.
Import Expiry Inventory Zoned.

Lemma setHoursMidnight_steady (z : Zone) (tz t : Z) :
  steadyAt z tz t -> Zoned.setHoursMidnight z t = Expiry.setHoursMidnight tz t.
Proof.
  intros [Hu Hl]. unfold Zoned.setHoursMidnight, Expiry.setHoursMidnight,
    LocalTime, UTC, localDay, Day in *.
  rewrite Hu, Hl. reflexivity.
Qed.

Lemma getExpiryStatus_steady (z : Zone) (tz e now : Z) :
  steadyAt z tz e -> steadyAt z tz now ->
  Zoned.getExpiryStatus z e now = Expiry.getExpiryStatus tz e now.
Proof.
  intros He Hn. unfold Zoned.getExpiryStatus, Expiry.getExpiryStatus.
  rewrite (setHoursMidnight_steady z tz e He), (setHoursMidnight_steady z tz now Hn).
  reflexivity.
Qed.


Lemma zoned_daysLeft (z : Zone) (e now : Z) :
  daysLeft (Zoned.getExpiryStatus z e now)
  = (Zoned.setHoursMidnight z e - Zoned.setHoursMidnight z now) / msPerDay.
Proof.
  unfold Zoned.getExpiryStatus. cbv zeta.
  destruct (_ <=? 2); [reflexivity|]. destruct (_ <=? 5); reflexivity.
Qed.

Lemma zoned_category (z : Zone) (e now : Z) :
  let s := Zoned.getExpiryStatus z e now in
  (Expiry.category s = Urgent <-> daysLeft s <= 2)
  /\ (Expiry.category s = Soon <-> 3 <= daysLeft s <= 5)
  /\ (Expiry.category s = Fresh <-> daysLeft s > 5).
Proof.
  cbv zeta. unfold Zoned.getExpiryStatus. cbv zeta.
  destruct (Z.leb_spec ((Zoned.setHoursMidnight z e - Zoned.setHoursMidnight z now)
                        / msPerDay) 2);
    [|destruct (Z.leb_spec ((Zoned.setHoursMidnight z e
                            - Zoned.setHoursMidnight z now) / msPerDay) 5)];
    cbn; repeat split; intros; try discriminate; try lia.
Qed.


Lemma truncQ_Z (n : Z) : truncQ (inject_Z n) = n.
Proof.
  unfold truncQ. destruct (Qle_bool 0 (inject_Z n));
    [apply Qfloor_Z | apply Qceiling_Z].
Qed.





Lemma setDate_instant (z : Zone) (t : Z) (date : Q) (e : Z) :
  setDate z t date = Some e ->
  e = UTC z (LocalTime z t + (truncQ date - getDate z t) * msPerDay).
Proof.
  unfold setDate, TimeClip, getDate. cbv zeta.
  destruct (_ <=? 8640000000000000); [|discriminate].
  intros [= <-]. f_equal. unfold Day, TimeWithinDay.
  pose proof (Z.div_mod (LocalTime z t) msPerDay ltac:(discriminate)) as E.
  lia.
Qed.




Lemma numLe_iff (x n : Q) : numLe (Some x) n = true <-> (x <= n)%Q.
Proof. apply Qle_bool_iff. Qed.

Lemma manual_item (z : Zone) (now : Z) (cat : option FoodCategory) (food : Food)
    (item : FoodItem) :
  Zoned.handleManualAdd_item z now cat food = Normal item ->
  status item = (if shelfLife food >? 3 then fresh else warning)
  /\ name item = food_name food
  /\ image_url item = None
  /\ expiry_date item
     = UTC z (LocalTime z now + shelfLife food * msPerDay).
Proof.
  unfold Zoned.handleManualAdd_item. cbv zeta.
  destruct (setDate z now _) as [e|] eqn:He; [|discriminate].
  cbn [toISOString]. intros [= <-]. cbn.
  repeat split. apply setDate_instant in He. rewrite truncQ_Z in He.
  rewrite He. f_equal. lia.
Qed.

Lemma scan_item (z : Zone) (now : Z) (result : Analysis) (item : FoodItem) :
  analyzeFoodImage_item z now result = Normal item ->
  exists x : Q,
    estimated_days_left result = Some x
    /\ status item
       = (if Qle_bool x 0 then expired else if Qle_bool x 2 then warning else fresh)
    /\ name item = a_name result
    /\ image_url item = None
    /\ expiry_date item
       = UTC z (LocalTime z now
                + (truncQ (inject_Z (getDate z now) + x) - getDate z now) * msPerDay).
Proof.
  unfold analyzeFoodImage_item. cbv zeta.
  destruct (estimated_days_left result) as [x|]; [|discriminate].
  destruct (setDate z now _) as [e|] eqn:He; [|discriminate].
  cbn [toISOString numLe]. intros [= <-]. cbn. exists x.
  repeat split. apply setDate_instant in He. exact He.
Qed.

Lemma scan_status (x : Q) :
  let st := if Qle_bool x 0 then expired else if Qle_bool x 2 then warning else fresh in
  (st = expired <-> (x <= 0)%Q)
  /\ (st = warning <-> (0 < x)%Q /\ (x <= 2)%Q)
  /\ (st = fresh <-> (2 < x)%Q).
Proof.
  cbv zeta.
  destruct (Qle_bool x 0) eqn:H0; [|destruct (Qle_bool x 2) eqn:H2].
  - apply Qle_bool_iff in H0.
    assert (x <= 2)%Q as H2 by (eapply Qle_trans; [exact H0 | discriminate]).
    repeat split; intros; try discriminate; try assumption.
    + destruct H as [H _]. exfalso. apply (Qlt_not_le _ _ H H0).
    + exfalso. apply (Qlt_not_le _ _ H H2).
  - apply Qle_bool_iff in H2.
    assert (0 < x)%Q as Hpos.
    { apply Qnot_le_lt. intros H. apply Qle_bool_iff in H. congruence. }
    repeat split; intros; try discriminate; try assumption.
    + exfalso. apply (Qlt_not_le _ _ Hpos H).
    + exfalso. apply (Qlt_not_le _ _ H H2).
  - assert (2 < x)%Q as Hgt.
    { apply Qnot_le_lt. intros H. apply Qle_bool_iff in H. congruence. }
    assert (0 < x)%Q as Hpos by (eapply Qlt_trans; [|exact Hgt]; reflexivity).
    repeat split; intros; try discriminate; try assumption.
    + exfalso. apply (Qlt_not_le _ _ Hpos H).
    + destruct H as [_ H]. exfalso. apply (Qlt_not_le _ _ Hgt H).
Qed.

Lemma process_item (z : Zone) (now : Z) (result : Analysis) (photo : string)
    (item : FoodItem) :
  handleProcessImage_item z now result photo = Normal item ->
  exists analyzed : FoodItem,
    analyzeFoodImage_item z now result = Normal analyzed
    /\ status item = status analyzed
    /\ expiry_date item = expiry_date analyzed
    /\ image_url item = Some photo.
Proof.
  unfold handleProcessImage_item.
  destruct (analyzeFoodImage_item z now result) as [analyzed|msg];
    [|discriminate].
  intros [= <-]. exists analyzed. cbn. repeat split.
Qed.


End ZonedFacts.

Section ZonedScenarios.
Import Expiry Inventory Zoned.

Lemma DateFromTime_examples :
  DateFromTime (utc 2024 3 10 0) = 10
  /\ DateFromTime (utc 2024 2 29 86399999) = 29
  /\ DateFromTime (utc 1999 12 31 0) = 31
  /\ DateFromTime (utc 1970 1 1 0) = 1
  /\ DateFromTime (utc 1969 12 31 86399999) = 31
  /\ getDate newYork (utc 2024 3 10 14400000) = 9
  /\ getDate newYork (utc 2024 3 10 25200000) = 10.
Proof. vm_compute. repeat split. Qed.

(** An answer without an estimate, or with one that takes the date out
    of the range of time values, makes [analyzeFoodImage] throw; an
    estimate of half a day is stored as 'warning' and expires at the
    instant of writing, and one of minus half a day is stored as
    'expired' and expires a day before. *)
Lemma scan_edge_cases :
  let now := utc 2024 3 8 61200000 in
  let scan x := analyzeFoodImage_item newYork now
                  {| a_name := "Milk"; a_category := "Dairy";
                     estimated_days_left := x |} in
  scan None = RangeError "Invalid time value"
  /\ scan (Some (inject_Z 200000000)) = RangeError "Invalid time value"
  /\ status <$> value (scan (Some (1 # 2)%Q)) = Some warning
  /\ expiry_date <$> value (scan (Some (1 # 2)%Q)) = Some now
  /\ status <$> value (scan (Some (- (1 # 2))%Q)) = Some expired
  /\ expiry_date <$> value (scan (Some (- (1 # 2))%Q))
     = Some (utc 2024 3 7 61200000).
Proof. vm_compute. repeat split. Qed.



End ZonedScenarios.

(** ** Category keys *)

Section CategoryKeyFacts.
Import CategoryKey.

Local Ltac by_bytes a :=
  destruct a as [[] [] [] [] [] [] [] []]; vm_compute; try tauto; try congruence.

Lemma plus32_tail (b : ascii) :
  isLatin1UpperTail b = true ->
  isLatin1UpperTail (plus32 b) = false
  /\ isC3 (plus32 b) = false
  /\ lowerAscii (plus32 b) = plus32 b.
Proof. by_bytes b. Qed.

Lemma lowerAscii_idem (a : ascii) : lowerAscii (lowerAscii a) = lowerAscii a.
Proof. by_bytes a. Qed.

Lemma lowerAscii_not_C3 (a : ascii) :
  isC3 a = false -> isC3 (lowerAscii a) = false.
Proof. by_bytes a. Qed.

Lemma lowerAscii_not_tail (a : ascii) :
  isLatin1UpperTail a = false -> isLatin1UpperTail (lowerAscii a) = false.
Proof. by_bytes a. Qed.

(** A byte that does not end an upper-case Latin-1 letter is followed,
    after lower-casing, by text that does not start with one either. *)
Lemma toLowerCase_head (b : ascii) (s : string) :
  isLatin1UpperTail b = false ->
  exists b' t, toLowerCase (String b s) = String b' t
               /\ isLatin1UpperTail b' = false.
Proof.
  intros Hb. cbn [toLowerCase].
  destruct (isC3 b) eqn:HC.
  - destruct s as [|c s'].
    + eauto.
    + destruct (isLatin1UpperTail c); eauto.
  - eexists _, _. split; [reflexivity|]. by apply lowerAscii_not_tail.
Qed.

Lemma toLowerCase_idem_bounded (n : nat) :
  forall s : string, (String.length s <= n)%nat ->
                     toLowerCase (toLowerCase s) = toLowerCase s.
Proof.
  induction n as [|n IH]; intros s Hlen.
  - destruct s; [reflexivity | cbn in Hlen; lia].
  - destruct s as [|a s']; [reflexivity|].
    cbn [String.length] in Hlen.
    cbn [toLowerCase]. destruct (isC3 a) eqn:HC.
    + destruct s' as [|b s''].
      * cbn [toLowerCase]. rewrite HC. reflexivity.
      * destruct (isLatin1UpperTail b) eqn:Hb.
        -- destruct (plus32_tail b Hb) as (H1 & H2 & H3).
           cbn [toLowerCase]. rewrite HC, H1.
           cbn [toLowerCase]. rewrite H2, H3.
           rewrite IH; [reflexivity|]. cbn [String.length] in Hlen. lia.
        -- destruct (toLowerCase_head b s'' Hb) as (b' & t & Heq & Hb').
           assert (toLowerCase (String a (toLowerCase (String b s'')))
                   = String a (toLowerCase (toLowerCase (String b s'')))) as ->.
           { rewrite Heq. cbn [toLowerCase]. rewrite HC, Hb'.
             reflexivity. }
           rewrite IH; [reflexivity | lia].
    + cbn [toLowerCase]. rewrite lowerAscii_not_C3 by assumption.
      rewrite lowerAscii_idem, IH; [reflexivity | lia].
Qed.

(** Lower-casing is idempotent. *)
Lemma toLowerCase_idem (s : string) :
  toLowerCase (toLowerCase s) = toLowerCase s.
Proof. by apply (toLowerCase_idem_bounded (String.length s)). Qed.

(** Every listed alias maps to its canonical id, which is one of the
    five. *)
Lemma aliases_canonical :
  Forall (fun kv => getCategoryKey kv.1 = JStr kv.2 /\ kv.2 ∈ canonicalIds)
         CATEGORY_MAP_entries.
Proof.
  repeat (apply Forall_cons; split;
          [split; [vm_compute; reflexivity | set_solver] |]).
  apply Forall_nil_2.
Qed.

(** Each canonical id maps to itself. *)
Lemma canonical_fixed :
  Forall (fun k => getCategoryKey k = JStr k) canonicalIds.
Proof.
  repeat (apply Forall_cons; split; [vm_compute; reflexivity |]).
  apply Forall_nil_2.
Qed.

Lemma CATEGORY_MAP_values (k v : string) :
  CATEGORY_MAP !! k = Some v -> v ∈ canonicalIds.
Proof.
  intros Hk. apply elem_of_list_to_map_2 in Hk.
  pose proof aliases_canonical as HF.
  rewrite Forall_forall in HF. apply (HF (k, v) Hk).
Qed.

(** Away from the property names that [Object.prototype] answers,
    [getCategoryKey] returns a string, is idempotent, sends a known
    name to a canonical id and an unknown one to its lower-case form. *)
Lemma getCategoryKey_own (c : string) :
  Object_prototype (toLowerCase c) = JUndefined ->
  exists s,
    getCategoryKey c = JStr s
    /\ getCategoryKey_dyn (getCategoryKey c) = Returns (getCategoryKey c)
    /\ (forall v, CATEGORY_MAP !! toLowerCase c = Some v ->
                  s = v /\ v ∈ canonicalIds)
    /\ (CATEGORY_MAP !! toLowerCase c = None -> s = toLowerCase c).
Proof.
  intros Hproto. unfold getCategoryKey, CATEGORY_MAP_get.
  destruct (CATEGORY_MAP !! toLowerCase c) as [v|] eqn:Hk.
  - pose proof (CATEGORY_MAP_values _ _ Hk) as Hv.
    assert (getCategoryKey v = JStr v) as Hfix.
    { pose proof canonical_fixed as HF. rewrite Forall_forall in HF. by apply HF. }
    assert (truthy (JStr v) = true) as Ht.
    { unfold canonicalIds in Hv. set_unfold.
      destruct Hv as [->|[->|[->|[->|[->|[]]]]]]; reflexivity. }
    exists v. unfold js_or. rewrite Ht. cbn [getCategoryKey_dyn].
    rewrite Hfix. repeat split; congruence.
  - rewrite Hproto. exists (toLowerCase c).
    cbn [js_or truthy getCategoryKey_dyn].
    unfold getCategoryKey, CATEGORY_MAP_get.
    rewrite toLowerCase_idem, Hk, Hproto. cbn [js_or truthy].
    repeat split; congruence.
Qed.

(** C10 at the inputs where the code leaves it.  [CATEGORY_MAP] is an
    object literal, so reading the key 'constructor' (in any casing of
    the category) finds the inherited [Object] function, which is
    truthy and is returned in place of a string; applying
    [getCategoryKey] to that result throws.  '__proto__' likewise
    yields the prototype object.  Neither input is mapped to its
    lower-case form. *)
Theorem getCategoryKey_inherited_property :
  getCategoryKey "constructor" = JFunction "Object"
  /\ getCategoryKey "Constructor" = JFunction "Object"
  /\ getCategoryKey_dyn (getCategoryKey "constructor")
     = TypeError "cat.toLowerCase is not a function"
  /\ getCategoryKey "__proto__" = JObject "Object.prototype"
  /\ getCategoryKey "constructor" <> JStr (toLowerCase "constructor").
Proof. vm_compute. repeat split; discriminate. Qed.

End CategoryKeyFacts.

(** ** Running asynchronous programs *)

Section RunFacts.
Import Async Trace.
Context (o : oracle).

Lemma run_bind {A B} (m : prog A) (f : A -> prog B) (w : world) :
  run o (bind m f) w = run o (f (fst (run o m w))) (snd (run o m w)).
Proof.
  revert w. induction m as [a | X e k IH]; intros w; cbn [bind run].
  - reflexivity.
  - apply IH.
Qed.

Lemma callPrompts_app (t1 t2 : list event) :
  callPrompts (t1 ++ t2) = callPrompts t1 ++ callPrompts t2.
Proof. apply omap_app. Qed.

Lemma waits_app (t1 t2 : list event) : waits (t1 ++ t2) = waits t1 ++ waits t2.
Proof. apply omap_app. Qed.

Lemma callTimes_app (t1 t2 : list event) :
  callTimes (t1 ++ t2) = callTimes t1 ++ callTimes t2.
Proof. apply omap_app. Qed.

Lemma consoleLines_app (t1 t2 : list event) :
  consoleLines (t1 ++ t2) = consoleLines t1 ++ consoleLines t2.
Proof. apply omap_app. Qed.

End RunFacts.

(** ** Retry and backoff in the generators *)

Section GeneratorFacts.
Import Async Gemini Trace.
Context (o : oracle).

Lemma retryFuel_0 : retryFuel 0 = 4%nat.
Proof. reflexivity. Qed.

Lemma retried_step prompt base rc k w w1 w' :
  ncalls w1 = S (ncalls w) ->
  callPrompts (trace w1) = callPrompts (trace w) ++ [prompt] ->
  waits (trace w1) = waits (trace w) ++ [base * (rc + 1)] ->
  idb w1 = idb w -> idb_icons w1 = idb_icons w -> ui w1 = ui w ->
  retried prompt base (rc + 1) k w1 w' ->
  retried prompt base rc (S k) w w'.
Proof.
  intros Hn Hp Hw Hi Hic Hu (Hn' & Hp' & Hw' & Hi' & Hic' & Hu').
  unfold retried. repeat split; try congruence.
  - lia.
  - rewrite Hp', Hp, <- app_assoc. reflexivity.
  - rewrite Hw', Hw, <- app_assoc. f_equal.
    cbn [seq map app].
    replace (rc + Z.of_nat 0 + 1) with (rc + 1) by lia. f_equal.
    rewrite <- seq_shift, map_map. apply map_ext. intros i. f_equal. lia.
Qed.

Lemma icon_attempts (name category : string) :
  forall (k fuel : nat) (rc : Z) (w : world),
    (k < fuel)%nat -> rc + Z.of_nat k <= 3 ->
    (forall i, (i < k)%nat ->
               rateLimitedIcon (answer (provider o (ncalls w + i))) = true) ->
    (rc + Z.of_nat k < 3 ->
     rateLimitedIcon (answer (provider o (ncalls w + k))) = false) ->
    fst (run o (generateIndividualIcon_from fuel name category rc) w)
    = resultOf (answer (provider o (ncalls w + k)))
    /\ retried (iconPrompt name category) 5000 rc k w
         (snd (run o (generateIndividualIcon_from fuel name category rc) w)).
Proof.
  induction k as [|k IH]; intros fuel rc w Hfuel Hrc Hrl Hlast.
  - destruct fuel as [|fuel]; [lia|].
    cbn [generateIndividualIcon_from]. rewrite run_bind.
    cbn [call run issue complete fst snd].
    rewrite Nat.add_0_r in *.
    unfold retried, resultOf.
    destruct (answer (provider o (ncalls w))) as [resp|err] eqn:Ha.
    + destruct (responseImage resp); cbn;
        rewrite ?callPrompts_app, ?waits_app, ?app_nil_r;
        repeat split; try reflexivity; lia.
    + assert ((is429 (error_code err) && (rc <? 3)) = false) as ->.
      { destruct (Z.ltb_spec rc 3) as [Hlt|Hge].
        - cbn in Hlast. rewrite Hlast by lia. reflexivity.
        - apply andb_false_r. }
      rewrite run_bind. cbn.
      rewrite ?callPrompts_app, ?waits_app, ?app_nil_r.
      repeat split; try reflexivity; lia.
  - destruct fuel as [|fuel]; [lia|].
    cbn [generateIndividualIcon_from]. rewrite run_bind.
    cbn [call run issue complete fst snd].
    assert (0 < S k)%nat as Hpos by lia.
    pose proof (Hrl O Hpos) as H0. rewrite Nat.add_0_r in H0.
    destruct (answer (provider o (ncalls w))) as [resp|err] eqn:Ha;
      [discriminate|].
    cbn in H0. rewrite H0.
    assert ((rc <? 3) = true) as -> by (apply Z.ltb_lt; lia).
    cbn [andb]. rewrite run_bind.
    cbn [call run issue complete fst snd].
    set (w1 := waited _ _).
    assert (ncalls w1 = S (ncalls w)) as Hn1 by reflexivity.
    assert (k < fuel)%nat as Hfuel' by lia.
    assert (rc + 1 + Z.of_nat k <= 3) as Hrc' by lia.
    assert (forall i, (i < k)%nat ->
              rateLimitedIcon (answer (provider o (ncalls w1 + i))) = true)
      as Hrl'.
    { intros i Hi. rewrite Hn1.
      replace (S (ncalls w) + i)%nat with (ncalls w + S i)%nat by lia.
      apply Hrl. lia. }
    assert (rc + 1 + Z.of_nat k < 3 ->
            rateLimitedIcon (answer (provider o (ncalls w1 + k))) = false)
      as Hlast'.
    { intros Hlt. rewrite Hn1.
      replace (S (ncalls w) + k)%nat with (ncalls w + S k)%nat by lia.
      apply Hlast. lia. }
    destruct (IH fuel (rc + 1) w1 Hfuel' Hrc' Hrl' Hlast') as [Hres Hret].
    rewrite Hn1 in Hres.
    replace (S (ncalls w) + k)%nat with (ncalls w + S k)%nat in Hres by lia.
    split; [exact Hres|].
    eapply retried_step; [exact Hn1| | | | | |exact Hret];
      subst w1; cbn; rewrite ?callPrompts_app, ?waits_app, ?app_nil_r;
      reflexivity.
Qed.

Lemma onboarding_attempts (prompt : string) :
  forall (k fuel : nat) (rc : Z) (w : world),
    (k < fuel)%nat -> rc + Z.of_nat k <= 3 ->
    (forall i, (i < k)%nat ->
               rateLimitedOnboarding (answer (provider o (ncalls w + i))) = true) ->
    (rc + Z.of_nat k < 3 ->
     rateLimitedOnboarding (answer (provider o (ncalls w + k))) = false) ->
    fst (run o (generateOnboardingImage_from fuel prompt rc) w)
    = resultOf (answer (provider o (ncalls w + k)))
    /\ retried (onboardingPrompt prompt) 10000 rc k w
         (snd (run o (generateOnboardingImage_from fuel prompt rc) w)).
Proof.
  induction k as [|k IH]; intros fuel rc w Hfuel Hrc Hrl Hlast.
  - destruct fuel as [|fuel]; [lia|].
    cbn [generateOnboardingImage_from]. rewrite run_bind.
    cbn [call run issue complete fst snd].
    rewrite Nat.add_0_r in *.
    unfold retried, resultOf.
    destruct (answer (provider o (ncalls w))) as [resp|err] eqn:Ha.
    + destruct (responseImage resp); cbn;
        rewrite ?callPrompts_app, ?waits_app, ?app_nil_r;
        repeat split; try reflexivity; lia.
    + assert ((is429 (code_or (error_code err) (error_status err)) && (rc <? 3)) = false) as ->.
      { destruct (Z.ltb_spec rc 3) as [Hlt|Hge].
        - cbn in Hlast. rewrite Hlast by lia. reflexivity.
        - apply andb_false_r. }
      rewrite run_bind. cbn.
      rewrite ?callPrompts_app, ?waits_app, ?app_nil_r.
      repeat split; try reflexivity; lia.
  - destruct fuel as [|fuel]; [lia|].
    cbn [generateOnboardingImage_from]. rewrite run_bind.
    cbn [call run issue complete fst snd].
    assert (0 < S k)%nat as Hpos by lia.
    pose proof (Hrl O Hpos) as H0. rewrite Nat.add_0_r in H0.
    destruct (answer (provider o (ncalls w))) as [resp|err] eqn:Ha;
      [discriminate|].
    cbn in H0. rewrite H0.
    assert ((rc <? 3) = true) as -> by (apply Z.ltb_lt; lia).
    cbn [andb]. rewrite !run_bind.
    cbn [call run issue complete fst snd].
    set (w1 := waited _ _).
    assert (ncalls w1 = S (ncalls w)) as Hn1 by reflexivity.
    assert (k < fuel)%nat as Hfuel' by lia.
    assert (rc + 1 + Z.of_nat k <= 3) as Hrc' by lia.
    assert (forall i, (i < k)%nat ->
              rateLimitedOnboarding (answer (provider o (ncalls w1 + i))) = true)
      as Hrl'.
    { intros i Hi. rewrite Hn1.
      replace (S (ncalls w) + i)%nat with (ncalls w + S i)%nat by lia.
      apply Hrl. lia. }
    assert (rc + 1 + Z.of_nat k < 3 ->
            rateLimitedOnboarding (answer (provider o (ncalls w1 + k))) = false)
      as Hlast'.
    { intros Hlt. rewrite Hn1.
      replace (S (ncalls w) + k)%nat with (ncalls w + S k)%nat by lia.
      apply Hlast. lia. }
    destruct (IH fuel (rc + 1) w1 Hfuel' Hrc' Hrl' Hlast') as [Hres Hret].
    rewrite Hn1 in Hres.
    replace (S (ncalls w) + k)%nat with (ncalls w + S k)%nat in Hres by lia.
    split; [exact Hres|].
    eapply retried_step; [exact Hn1| | | | | |exact Hret];
      subst w1; cbn; rewrite ?callPrompts_app, ?waits_app, ?app_nil_r;
      reflexivity.
Qed.

(** The generator half of C6.  An answer that is not a rate limit and
    carries no image (an error with another code, or a response
    without inline data) ends the call at once: one provider call, no
    wait, and the empty string returned rather than thrown. *)
Lemma no_retry_on_other_failure (w : world) :
  hasImage (answer (provider o (ncalls w))) = false ->
  (forall name category : string,
      rateLimitedIcon (answer (provider o (ncalls w))) = false ->
      fst (run o (generateIndividualIcon name category) w) = ""
      /\ retried (iconPrompt name category) 5000 0 0 w
           (snd (run o (generateIndividualIcon name category) w)))
  /\ (forall prompt : string,
      rateLimitedOnboarding (answer (provider o (ncalls w))) = false ->
      fst (run o (generateOnboardingImage prompt) w) = ""
      /\ retried (onboardingPrompt prompt) 10000 0 0 w
           (snd (run o (generateOnboardingImage prompt) w))).
Proof.
  intros Hno.
  assert (resultOf (answer (provider o (ncalls w))) = "") as Hempty.
  { unfold hasImage, resultOf in *.
    destruct (answer (provider o (ncalls w))) as [resp|]; [|reflexivity].
    destruct (responseImage resp); [|reflexivity].
    rewrite bool_decide_eq_false in Hno. exfalso. apply Hno. by eexists. }
  split.
  - intros name category Hrl.
    destruct (icon_attempts name category 0 (retryFuel 0) 0 w)
      as (Hres & Hret).
    + rewrite retryFuel_0; lia.
    + lia.
    + intros i Hi. lia.
    + intros _. by rewrite Nat.add_0_r.
    + rewrite Nat.add_0_r in Hres.
      split; [etransitivity; [exact Hres | exact Hempty] | exact Hret].
  - intros prompt Hrl.
    destruct (onboarding_attempts prompt 0 (retryFuel 0) 0 w)
      as (Hres & Hret).
    + rewrite retryFuel_0; lia.
    + lia.
    + intros i Hi. lia.
    + intros _. by rewrite Nat.add_0_r.
    + rewrite Nat.add_0_r in Hres.
      split; [etransitivity; [exact Hres | exact Hempty] | exact Hret].
Qed.

End GeneratorFacts.

(** ** What the effects write, and fuel *)

Section StoreFacts.
Import Async Gemini App Trace.
Context (o : oracle).















(** No generator runs out of fuel: with more fuel than [retryFuel]
    allots the run is the same. *)
Lemma icon_fuel_enough (name category : string) :
  forall (fuel : nat) (rc : Z) (w : world),
    (Z.to_nat (3 - rc) < fuel)%nat ->
    run o (generateIndividualIcon_from fuel name category rc) w
    = run o (generateIndividualIcon_from (retryFuel rc) name category rc) w.
Proof.
  induction fuel as [|fuel IH]; intros rc w Hfuel; [lia|].
  unfold retryFuel. cbn [generateIndividualIcon_from]. rewrite !run_bind.
  cbn [call run issue complete fst snd].
  destruct (answer (provider o (ncalls w))) as [resp|err]; [reflexivity|].
  destruct (is429 (error_code err)); cbn [andb]; [|reflexivity].
  destruct (Z.ltb_spec rc 3) as [Hlt|Hge]; [|reflexivity].
  rewrite !run_bind. cbn [call run issue complete fst snd].
  replace (Z.to_nat (3 - rc)) with (retryFuel (rc + 1))
    by (unfold retryFuel; lia).
  apply IH. lia.
Qed.

Lemma onboarding_fuel_enough (prompt : string) :
  forall (fuel : nat) (rc : Z) (w : world),
    (Z.to_nat (3 - rc) < fuel)%nat ->
    run o (generateOnboardingImage_from fuel prompt rc) w
    = run o (generateOnboardingImage_from (retryFuel rc) prompt rc) w.
Proof.
  induction fuel as [|fuel IH]; intros rc w Hfuel; [lia|].
  unfold retryFuel. cbn [generateOnboardingImage_from]. rewrite !run_bind.
  cbn [call run issue complete fst snd].
  destruct (answer (provider o (ncalls w))) as [resp|err]; [reflexivity|].
  cbv zeta.
  destruct (is429 (code_or (error_code err) (error_status err)));
    cbn [andb]; [|reflexivity].
  destruct (Z.ltb_spec rc 3) as [Hlt|Hge]; [|reflexivity].
  rewrite !run_bind. cbn [call run issue complete fst snd].
  replace (Z.to_nat (3 - rc)) with (retryFuel (rc + 1))
    by (unfold retryFuel; lia).
  apply IH. lia.
Qed.

End StoreFacts.

(** ** The effects of the components *)

Section AppFacts.
Import Async Gemini App Trace.
Context (o : oracle).

(** An operation other than a provider call leaves the call count and
    the list of calls as they are. *)
Lemma quiet_operation {X} (e : eff X) (tk : nat) (w : world) :
  isGenerate e = false ->
  issue e w = (O, w)
  /\ ncalls (snd (complete o e tk w)) = ncalls w
  /\ callPrompts (trace (snd (complete o e tk w))) = callPrompts (trace w).
Proof.
  destruct e; cbn [isGenerate]; intros He; try discriminate;
    cbn [issue complete]; repeat case_match; cbn;
    rewrite ?callPrompts_app, ?app_nil_r; auto.
Qed.

Lemma run_no_dispatch {A} (p : prog A) :
  forall w, ~ dispatches p ->
    ncalls (snd (run o p w)) = ncalls w
    /\ callPrompts (trace (snd (run o p w))) = callPrompts (trace w).
Proof.
  induction p as [a | X e k IH]; intros w Hnd; cbn [run].
  - split; reflexivity.
  - cbn [dispatches] in Hnd.
    destruct (isGenerate e) eqn:He; [exfalso; apply Hnd; exact I|].
    destruct (quiet_operation e O w He) as (Hi & Hn & Hp).
    rewrite Hi. cbn [fst snd].
    destruct (IH (fst (complete o e O w)) (snd (complete o e O w))) as [Hn' Hp'].
    { intros Hd. apply Hnd. eexists. exact Hd. }
    split; congruence.
Qed.

(** Nor does it when it runs among other tasks. *)
Lemma advance_no_dispatch (p : prog unit) :
  forall w, ~ dispatches p ->
    ~ dispatches (code (fst (advance o p w)))
    /\ ncalls (snd (advance o p w)) = ncalls w
    /\ callPrompts (trace (snd (advance o p w))) = callPrompts (trace w).
Proof.
  induction p as [a | X e k IH]; intros w Hnd; cbn [advance].
  - cbn. auto.
  - pose proof Hnd as Hnd'. cbn [dispatches] in Hnd'.
    destruct (isGenerate e) eqn:He; [exfalso; apply Hnd'; exact I|].
    destruct (quiet_operation e O w He) as (Hi & Hn & Hp).
    destruct (is_await e).
    + rewrite Hi. cbn [fst snd code]. auto.
    + destruct (IH (fst (complete o e O w)) (snd (complete o e O w)))
        as (Hd' & Hn' & Hp').
      { intros Hd. apply Hnd'. eexists. exact Hd. }
      repeat split; [exact Hd' | congruence | congruence].
Qed.

Lemma resume_no_dispatch (t : task) (w : world) :
  ~ dispatches (code t) ->
  ~ dispatches (code (fst (resume o t w)))
  /\ ncalls (snd (resume o t w)) = ncalls w
  /\ callPrompts (trace (snd (resume o t w))) = callPrompts (trace w).
Proof.
  intros Hnd. unfold resume.
  destruct (code t) as [a | X e k] eqn:Hc.
  - cbn. rewrite Hc. auto.
  - pose proof Hnd as Hnd'. cbn [dispatches] in Hnd'.
    destruct (isGenerate e) eqn:He; [exfalso; apply Hnd'; exact I|].
    destruct (quiet_operation e (ticket t) w He) as (Hi & Hn & Hp).
    destruct (advance_no_dispatch (k (fst (complete o e (ticket t) w)))
                (snd (complete o e (ticket t) w))) as (Hd' & Hn' & Hp').
    { intros Hd. apply Hnd'. eexists. exact Hd. }
    repeat split; [exact Hd' | congruence | congruence].
Qed.

Lemma fetchImage_generate_flagged (step : nat) (loading : gmap nat bool) :
  flagged (loading !! step) = true ->
  fetchImage_generate step loading = Ret tt.
Proof. intros H. unfold fetchImage_generate. by rewrite H. Qed.

Lemma fetchImage_guarded (step : nat) (imgs : gmap nat string)
    (loading : gmap nat bool) :
  present (imgs !! step) = true \/ flagged (loading !! step) = true ->
  ~ dispatches (fetchImage step imgs loading).
Proof.
  intros Hguard. unfold fetchImage.
  destruct (present (imgs !! step)) eqn:Hp; [cbn; tauto|].
  destruct Hguard as [|Hflag]; [discriminate|].
  rewrite (fetchImage_generate_flagged _ _ Hflag).
  cbn. intros [x Hx]. destruct x as [c|e].
  - destruct (present c); cbn in Hx; [destruct Hx as [? []] | exact Hx].
  - cbn in Hx. destruct Hx as [? []].
Qed.

Lemma dataUrl_present (d : string) : present (Some (dataUrl d)) = true.
Proof. reflexivity. Qed.

Lemma callsNotBefore_mono (t0 t1 : Z) (tr : list event) :
  t0 <= t1 -> callsNotBefore t1 tr -> callsNotBefore t0 tr.
Proof.
  intros Hle H. unfold callsNotBefore in *.
  eapply Forall_impl; [exact H|].
  intros [] ?; try exact I. lia.
Qed.

Lemma generated_retry (fuel : nat) (w w1 : world) (r : string * world)
    (pre : list event) :
  ui w1 = ui w -> idb w1 = idb w -> idb_icons w1 = idb_icons w ->
  ncalls w1 = S (ncalls w) -> clock w <= clock w1 ->
  trace w1 = trace w ++ pre -> callsNotBefore (clock w) pre -> quiet pre ->
  generated fuel w1 r -> generated (S fuel) w r.
Proof.
  intros Hu Hi Hic Hn Hc Ht Hcb Hq (Hu' & Hi' & Hic' & Hn' & Hn'' & Hc' & tr & Ht' & Hcb' & Himg).
  unfold generated. repeat split; try congruence; try lia.
  exists (pre ++ tr). repeat split.
  - rewrite Ht', Ht, <- app_assoc. reflexivity.
  - apply Forall_app. split; [exact Hcb|].
    eapply callsNotBefore_mono; [exact Hc | exact Hcb'].
  - destruct (present (Some (fst r))).
    + destruct Himg as (tr0 & -> & Hq0). exists (pre ++ tr0).
      split; [by rewrite <- app_assoc|]. apply Forall_app. by split.
    + apply Forall_app. by split.
Qed.

Lemma generated_once (fuel : nat) (w w' : world) (url : string) (tr : list event) :
  ui w' = ui w -> idb w' = idb w -> idb_icons w' = idb_icons w ->
  ncalls w' = S (ncalls w) -> clock w <= clock w' ->
  trace w' = trace w ++ tr -> callsNotBefore (clock w) tr ->
  (if present (Some url)
   then exists tr0, tr = tr0 ++ [EvReply (clock w') true] /\ quiet tr0
   else quiet tr) ->
  generated (S fuel) w (url, w').
Proof.
  intros. unfold generated. cbn [fst snd].
  repeat split; try congruence; try lia. by exists tr.
Qed.

Lemma icon_generated (name category : string) :
  forall (fuel : nat) (rc : Z) (w : world),
    generated fuel w (run o (generateIndividualIcon_from fuel name category rc) w).
Proof.
  induction fuel as [|fuel IH]; intros rc w.
  - cbn. unfold generated. cbn. repeat split; try lia.
    exists []. rewrite app_nil_r. repeat split; constructor.
  - cbn [generateIndividualIcon_from]. rewrite run_bind.
    cbn [call run issue complete fst snd].
    destruct (answer (provider o (ncalls w))) as [resp|err] eqn:Ha.
    + destruct (responseImage resp) as [d|] eqn:Hd.
      * assert (hasImage (answer (provider o (ncalls w))) = true) as Hhas.
        { unfold hasImage. rewrite Ha, Hd. apply bool_decide_eq_true_2. eauto. }
        cbn [run]. eapply generated_once; try reflexivity.
        -- cbn. lia.
        -- cbn. rewrite <- app_assoc. reflexivity.
        -- repeat constructor. lia.
        -- rewrite dataUrl_present. eexists [_]. split.
           ++ cbn. rewrite Hhas. reflexivity.
           ++ repeat constructor.
      * assert (hasImage (answer (provider o (ncalls w))) = false) as Hhas.
        { unfold hasImage. rewrite Ha, Hd.
          apply bool_decide_eq_false_2, is_Some_None. }
        cbn [run]. eapply generated_once; try reflexivity.
        -- cbn. lia.
        -- cbn. rewrite <- app_assoc. reflexivity.
        -- repeat constructor. lia.
        -- change (present (Some "")) with false. cbv iota.
           rewrite Hhas. repeat constructor.
    + assert (hasImage (answer (provider o (ncalls w))) = false) as Hhas.
      { unfold hasImage. by rewrite Ha. }
      destruct (is429 (error_code err) && (rc <? 3)) eqn:Hretry.
      * rewrite run_bind. cbn [call run issue complete fst snd].
        eapply generated_retry; [..|apply IH]; try reflexivity.
        -- cbn. lia.
        -- cbn. rewrite <- !app_assoc. reflexivity.
        -- repeat constructor. lia.
        -- rewrite Hhas. repeat constructor.
      * rewrite run_bind. cbn [call run issue complete fst snd].
        eapply generated_once; try reflexivity.
        -- cbn. lia.
        -- cbn. rewrite <- !app_assoc. reflexivity.
        -- repeat constructor. lia.
        -- change (present (Some "")) with false. cbv iota.
           rewrite Hhas. repeat constructor.
Qed.
Lemma onboarding_generated (prompt : string) :
  forall (fuel : nat) (rc : Z) (w : world),
    generated fuel w (run o (generateOnboardingImage_from fuel prompt rc) w).
Proof.
  induction fuel as [|fuel IH]; intros rc w.
  - cbn. unfold generated. cbn. repeat split; try lia.
    exists []. rewrite app_nil_r. repeat split; constructor.
  - cbn [generateOnboardingImage_from]. rewrite run_bind.
    cbn [call run issue complete fst snd].
    destruct (answer (provider o (ncalls w))) as [resp|err] eqn:Ha.
    + destruct (responseImage resp) as [d|] eqn:Hd.
      * assert (hasImage (answer (provider o (ncalls w))) = true) as Hhas.
        { unfold hasImage. rewrite Ha, Hd. apply bool_decide_eq_true_2. eauto. }
        cbn [run]. eapply generated_once; try reflexivity.
        -- cbn. lia.
        -- cbn. rewrite <- app_assoc. reflexivity.
        -- repeat constructor. lia.
        -- rewrite dataUrl_present. eexists [_]. split.
           ++ cbn. rewrite Hhas. reflexivity.
           ++ repeat constructor.
      * assert (hasImage (answer (provider o (ncalls w))) = false) as Hhas.
        { unfold hasImage. rewrite Ha, Hd.
          apply bool_decide_eq_false_2, is_Some_None. }
        cbn [run]. eapply generated_once; try reflexivity.
        -- cbn. lia.
        -- cbn. rewrite <- app_assoc. reflexivity.
        -- repeat constructor. lia.
        -- change (present (Some "")) with false. cbv iota.
           rewrite Hhas. repeat constructor.
    + assert (hasImage (answer (provider o (ncalls w))) = false) as Hhas.
      { unfold hasImage. by rewrite Ha. }
      cbv zeta.
      destruct (is429 (code_or (error_code err) (error_status err)) && (rc <? 3)) eqn:Hretry.
      * rewrite !run_bind. cbn [call run issue complete fst snd].
        eapply generated_retry; [..|apply IH]; try reflexivity.
        -- cbn. lia.
        -- cbn. rewrite <- !app_assoc. reflexivity.
        -- repeat constructor. lia.
        -- rewrite Hhas. repeat constructor.
      * rewrite run_bind. cbn [call run issue complete fst snd].
        eapply generated_once; try reflexivity.
        -- cbn. lia.
        -- cbn. rewrite <- !app_assoc. reflexivity.
        -- repeat constructor. lia.
        -- change (present (Some "")) with false. cbv iota.
           rewrite Hhas. repeat constructor.
Qed.

Lemma nextCallTime_app (t1 t2 : list event) (now : Z) :
  nextCallTime (t1 ++ t2) now = nextCallTime t1 (nextCallTime t2 now).
Proof. induction t1 as [|[] t1 IH]; cbn; auto. Qed.

Lemma nextCallTime_mono (tr : list event) (now now' : Z) :
  now <= now' -> nextCallTime tr now <= nextCallTime tr now'.
Proof. intros H. induction tr as [|[] tr IH]; cbn; auto; lia. Qed.

Lemma nextCallTime_lower (tr : list event) (t0 now : Z) :
  callsNotBefore t0 tr -> t0 <= now -> t0 <= nextCallTime tr now.
Proof.
  intros Hcb Hle. induction Hcb as [|ev tr Hev _ IH]; cbn; [exact Hle|].
  destruct ev; auto.
Qed.

Lemma spaced_app (gap : Z) (t1 t2 : list event) (now : Z) :
  spacedAfterImage gap t1 (nextCallTime t2 now) ->
  spacedAfterImage gap t2 now ->
  spacedAfterImage gap (t1 ++ t2) now.
Proof.
  intros H1 H2. induction t1 as [|ev t1 IH]; cbn; [exact H2|].
  destruct ev as [| t [] | |]; cbn in H1; auto.
  destruct H1 as [Hgap H1]. split; [|auto].
  by rewrite nextCallTime_app.
Qed.

Lemma spaced_mono (gap : Z) (tr : list event) (now now' : Z) :
  now <= now' -> spacedAfterImage gap tr now -> spacedAfterImage gap tr now'.
Proof.
  intros Hle. induction tr as [|ev tr IH]; cbn; [auto|].
  destruct ev as [| t [] | |]; auto.
  intros [Hgap H]. split; [|auto].
  pose proof (nextCallTime_mono tr now now' Hle). lia.
Qed.

Lemma quiet_spaced (gap : Z) (tr : list event) (now : Z) :
  quiet tr -> spacedAfterImage gap tr now.
Proof.
  induction 1 as [|ev tr Hev _ IH]; cbn; [exact I|].
  destruct ev as [| t [] | |]; auto. destruct Hev.
Qed.

(** The spacing predicate does reject a call that follows an image too
    closely. *)
Example spacedAfterImage_rejects :
  ~ spacedAfterImage 3000 [EvReply 100 true; EvCall "p" 200] 0
  /\ spacedAfterImage 3000 [EvReply 100 true; EvTimeout 3000; EvCall "p" 3100] 0.
Proof. cbn. split; [lia | repeat split; lia]. Qed.

(** One turn of the loop of [fetchIcons] keeps the spacing. *)
Lemma fetchIcons_body_spaced (cat : IconCategory) (icons : gmap string string)
    (w : world) (base tr : list event) :
  trace w = base ++ tr ->
  spacedAfterImage 3000 tr (clock w) ->
  exists tr',
    trace (snd (run o (fetchIcons_body cat icons) w)) = base ++ tr'
    /\ spacedAfterImage 3000 tr'
         (clock (snd (run o (fetchIcons_body cat icons) w))).
Proof.
  intros Ht Hsp. unfold fetchIcons_body. rewrite run_bind.
  pose proof (icon_generated (icon_name cat) (icon_cat cat) (retryFuel 0) 0 w)
    as (_ & _ & _ & _ & _ & Hclock & trg & Htrg & Hcb & Himg).
  fold (generateIndividualIcon (icon_name cat) (icon_cat cat)) in *.
  destruct (run o (generateIndividualIcon (icon_name cat) (icon_cat cat)) w)
    as [url wg] eqn:Hg.
  cbn [fst snd] in *.
  destruct (present (Some url)).
  - destruct Himg as (tr0 & -> & Hq0).
    rewrite !run_bind.
    cbn [setCategoryIcons call run issue complete fst snd].
    exists (tr ++ (tr0 ++ [EvReply (clock wg) true]) ++ [EvTimeout 3000]).
    split.
    + cbn. rewrite Htrg, Ht, <- !app_assoc. reflexivity.
    + cbn [waited with_ui tick emit clock].
      rewrite Z.max_r by lia.
      apply spaced_app.
      * eapply spaced_mono; [|exact Hsp].
        rewrite nextCallTime_app. apply nextCallTime_lower; [exact Hcb|].
        cbn. lia.
      * rewrite <- app_assoc. apply spaced_app.
        -- by apply quiet_spaced.
        -- cbn. lia.
  - cbn [run fst snd]. exists (tr ++ trg). split.
    + rewrite Htrg, Ht, <- app_assoc. reflexivity.
    + apply spaced_app.
      * eapply spaced_mono; [|exact Hsp].
        apply nextCallTime_lower; [exact Hcb | exact Hclock].
      * by apply quiet_spaced.
Qed.

Lemma fetchIcons_loop_spaced (cats : list IconCategory) :
  forall (icons : gmap string string) (w : world) (base tr : list event),
    trace w = base ++ tr ->
    spacedAfterImage 3000 tr (clock w) ->
    exists tr',
      trace (snd (run o (fetchIcons_loop cats icons) w)) = base ++ tr'
      /\ spacedAfterImage 3000 tr'
           (clock (snd (run o (fetchIcons_loop cats icons) w))).
Proof.
  induction cats as [|cat rest IH]; intros icons w base tr Ht Hsp.
  - cbn. eauto.
  - cbn [fetchIcons_loop]. rewrite run_bind.
    destruct (fetchIcons_body_spaced cat icons w base tr Ht Hsp)
      as (tr1 & Ht1 & Hsp1).
    apply (IH _ _ base tr1 Ht1 Hsp1).
Qed.

Lemma fetchIcons_generate_spaced (w : world) (base tr : list event) :
  trace w = base ++ tr ->
  spacedAfterImage 3000 tr (clock w) ->
  exists tr',
    trace (snd (run o fetchIcons_generate w)) = base ++ tr'
    /\ spacedAfterImage 3000 tr' (clock (snd (run o fetchIcons_generate w))).
Proof.
  intros Ht Hsp. unfold fetchIcons_generate. rewrite !run_bind.
  destruct (fetchIcons_loop_spaced categories ∅ w base tr Ht Hsp)
    as (tr1 & Ht1 & Hsp1).
  destruct (run o (fetchIcons_loop categories ∅) w) as [icons wl].
  cbn [fst snd] in *.
  cbn [call run issue complete fst snd].
  destruct (set_rejects o "categoryIcons"); cbn [fst snd run].
  - cbn [call run issue complete fst snd].
    exists (tr1 ++ [EvConsole "Error saving to IndexedDB"]).
    split; [cbn; rewrite Ht1, <- app_assoc; reflexivity|].
    apply spaced_app; cbn; [exact Hsp1 | exact I].
  - exists tr1. split; [exact Ht1 | exact Hsp1].
Qed.

(** C3, as the code has it.  In a run of [fetchIcons] the provider
    calls follow one another, and after every answer that carried an
    image no call is dispatched within the next 3000 ms: not by this
    run, and not by anything that starts when it has returned. *)
Theorem fetchIcons_spacing (w : world) :
  exists tr,
    trace (snd (run o fetchIcons w)) = trace w ++ tr
    /\ spacedAfterImage 3000 tr (clock (snd (run o fetchIcons w))).
Proof.
  unfold fetchIcons. rewrite run_bind.
  cbn [call run issue complete fst snd].
  destruct (get_rejects o "categoryIcons"); cbn [fst snd].
  - rewrite run_bind. cbn [call run issue complete fst snd].
    apply (fetchIcons_generate_spaced _ (trace w)
             [EvConsole "Error reading from IndexedDB"]);
      [reflexivity | exact I].
  - destruct (idb_icons w) as [saved|].
    + cbn. exists []. by rewrite app_nil_r.
    + apply (fetchIcons_generate_spaced w (trace w) []);
        [by rewrite app_nil_r | exact I].
Qed.
End AppFacts.

(** ** Failure and persistence in the effects *)

Section OnboardingFacts.
Import Async Gemini App Trace.
Context (o : oracle).

(** [fetchImage] on a cache miss, in terms of the generator call it
    makes: where that call starts and what is done with its result. *)
Lemma fetchImage_miss (step : nat) (imgs : gmap nat string)
    (loading : gmap nat bool) (s : OnboardingStep) (w : world) :
  present (imgs !! step) = false ->
  missed o w (onboardingKey step) ->
  flagged (loading !! step) = false ->
  steps !! step = Some s ->
  exists w1 : world,
    ui w1 = ui (snd (run o (setLoadingImages (fun prev => <[step := true]> prev)) w))
    /\ idb w1 = idb w /\ idb_icons w1 = idb_icons w
    /\ ncalls w1 = ncalls w /\ clock w1 = clock w
    /\ waits (trace w1) = waits (trace w)
    /\ callPrompts (trace w1) = callPrompts (trace w)
    /\ let g := run o (generateOnboardingImage (prompt s)) w1 in
       let w' := snd (run o (fetchImage step imgs loading) w) in
       ncalls w' = ncalls (snd g)
       /\ waits (trace w') = waits (trace (snd g))
       /\ callPrompts (trace w') = callPrompts (trace (snd g))
       /\ idb_icons w' = idb_icons (snd g)
       /\ loadingImages (ui w') = <[step := false]> (loadingImages (ui (snd g)))
       /\ (present (Some (fst g)) = false ->
           images (ui w') = images (ui (snd g)) /\ idb w' = idb (snd g))
       /\ (present (Some (fst g)) = true ->
           images (ui w') = <[step := fst g]> (images (ui (snd g)))
           /\ (set_rejects o (onboardingKey step) = true -> idb w' = idb (snd g))
           /\ (set_rejects o (onboardingKey step) = false ->
               idb w' = <[onboardingKey step := fst g]> (idb (snd g)))).
Proof.
  intros Himg Hmiss Hflag Hstep.
  assert (forall w0 : world,
    let w1 := snd (run o (setLoadingImages (fun prev => <[step := true]> prev)) w0) in
    let g := run o (generateOnboardingImage (prompt s)) w1 in
    let w' := snd (run o (fetchImage_generate step loading) w0) in
    ncalls w' = ncalls (snd g)
    /\ waits (trace w') = waits (trace (snd g))
    /\ callPrompts (trace w') = callPrompts (trace (snd g))
    /\ idb_icons w' = idb_icons (snd g)
    /\ loadingImages (ui w') = <[step := false]> (loadingImages (ui (snd g)))
    /\ (present (Some (fst g)) = false ->
        images (ui w') = images (ui (snd g)) /\ idb w' = idb (snd g))
    /\ (present (Some (fst g)) = true ->
        images (ui w') = <[step := fst g]> (images (ui (snd g)))
        /\ (set_rejects o (onboardingKey step) = true -> idb w' = idb (snd g))
        /\ (set_rejects o (onboardingKey step) = false ->
            idb w' = <[onboardingKey step := fst g]> (idb (snd g))))) as Hgen.
  { intros w0. cbv zeta. unfold fetchImage_generate. rewrite Hflag, Hstep.
    rewrite !run_bind.
    set (w1 := snd (run o (setLoadingImages _) w0)).
    destruct (run o (generateOnboardingImage (prompt s)) w1) as [url wg].
    cbn [fst snd].
    destruct (present (Some url)) eqn:Hurl.
    - rewrite !run_bind.
      cbn [setImages setLoadingImages call run issue complete fst snd].
      destruct (set_rejects o (onboardingKey step)) eqn:Hset;
        cbn [fst snd run call issue complete]; cbn;
        rewrite ?waits_app, ?callPrompts_app, ?app_nil_r;
        repeat split; try reflexivity; try discriminate.
    - cbn [setImages setLoadingImages call run issue complete fst snd]. cbn.
      repeat split; try reflexivity; try discriminate. }
  unfold fetchImage. rewrite Himg, run_bind.
  cbn [call run issue complete fst snd].
  destruct (get_rejects o (onboardingKey step)) eqn:Hget; cbn [fst snd].
  - rewrite run_bind. cbn [call run issue complete fst snd].
    exists (snd (run o (setLoadingImages (fun prev => <[step := true]> prev))
                   (logged "IDB error" w))).
    split; [|split; [|split; [|split; [|split; [|split; [|split]]]]]];
      [..|apply Hgen]; cbn;
      rewrite ?waits_app, ?callPrompts_app, ?app_nil_r; reflexivity.
  - destruct Hmiss as [Hrej|Hnone]; [congruence|]. rewrite Hnone.
    exists (snd (run o (setLoadingImages (fun prev => <[step := true]> prev)) w)).
    split; [|split; [|split; [|split; [|split; [|split; [|split]]]]]];
      [..|apply Hgen]; reflexivity.
Qed.

Lemma fetchImage_generate_calls (step : nat) (loading : gmap nat bool) (w : world) :
  (ncalls w <= ncalls (snd (run o (fetchImage_generate step loading) w))
   <= ncalls w + 4)%nat.
Proof.
  unfold fetchImage_generate.
  destruct (flagged (loading !! step)); [cbn; lia|].
  rewrite !run_bind.
  set (w1 := snd (run o (setLoadingImages _) w)).
  assert (ncalls w1 = ncalls w) as Hn1 by reflexivity.
  destruct (steps !! step) as [s|].
  - rewrite !run_bind.
    pose proof (onboarding_generated o (prompt s) (retryFuel 0) 0 w1)
      as (_ & _ & _ & Hn & _).
    fold (generateOnboardingImage (prompt s)) in Hn.
    rewrite retryFuel_0 in Hn.
    destruct (run o (generateOnboardingImage (prompt s)) w1) as [url wg].
    cbn [fst snd] in *.
    destruct (present (Some url)).
    + rewrite !run_bind.
      cbn [setImages setLoadingImages call run issue complete fst snd].
      destruct (set_rejects o (onboardingKey step)); cbn; lia.
    + cbn. lia.
  - cbn. lia.
Qed.

(** Whatever the store and the provider do, one request makes at most
    four provider calls. *)
Lemma fetchImage_calls (step : nat) (imgs : gmap nat string)
    (loading : gmap nat bool) (w : world) :
  (ncalls w <= ncalls (snd (run o (fetchImage step imgs loading) w))
   <= ncalls w + 4)%nat.
Proof.
  unfold fetchImage.
  destruct (present (imgs !! step)); [cbn; lia|].
  rewrite run_bind. cbn [call run issue complete fst snd].
  destruct (get_rejects o (onboardingKey step)); cbn [fst snd].
  - rewrite run_bind. cbn [call run issue complete fst snd].
    pose proof (fetchImage_generate_calls step loading (logged "IDB error" w)).
    cbn in *. lia.
  - destruct (present (idb w !! onboardingKey step)).
    + cbn. lia.
    + apply fetchImage_generate_calls.
Qed.

Lemma fetchIcons_failed_write (w : world) :
  set_rejects o "categoryIcons" = true ->
  snd (run o fetchIcons_generate w)
  = logged "Error saving to IndexedDB"
      (snd (run o (fetchIcons_loop categories ∅) w)).
Proof.
  intros Hset. unfold fetchIcons_generate. rewrite !run_bind.
  cbn [call run issue complete fst snd]. rewrite Hset. reflexivity.
Qed.

(** C6 as amended.  An answer that is neither a rate limit nor an image
    (an error with a code other than 429, or a response none of whose
    parts carries inline data) is not retried: the generator makes that
    one provider call, waits for nothing and returns the empty string
    instead of throwing.  [fetchImage] then leaves the step without an
    image and with its loading flag cleared, and stores nothing.  (A
    part that carries inline data counts as an image whatever its
    data.) *)
Theorem other_failure_fails_at_once (w : world) :
  hasImage (answer (provider o (ncalls w))) = false ->
  (forall name category : string,
      rateLimitedIcon (answer (provider o (ncalls w))) = false ->
      let r := run o (generateIndividualIcon name category) w in
      fst r = "" /\ ncalls (snd r) = S (ncalls w)
      /\ waits (trace (snd r)) = waits (trace w))
  /\ (forall prompt : string,
      rateLimitedOnboarding (answer (provider o (ncalls w))) = false ->
      let r := run o (generateOnboardingImage prompt) w in
      fst r = "" /\ ncalls (snd r) = S (ncalls w)
      /\ waits (trace (snd r)) = waits (trace w))
  /\ (forall (step : nat) (imgs : gmap nat string) (loading : gmap nat bool)
             (s : OnboardingStep),
      rateLimitedOnboarding (answer (provider o (ncalls w))) = false ->
      present (imgs !! step) = false ->
      missed o w (onboardingKey step) ->
      flagged (loading !! step) = false ->
      steps !! step = Some s ->
      let w' := snd (run o (fetchImage step imgs loading) w) in
      ncalls w' = S (ncalls w)
      /\ waits (trace w') = waits (trace w)
      /\ images (ui w') = images (ui w)
      /\ idb w' = idb w
      /\ loadingImages (ui w') !! step = Some false).
Proof.
  intros Hno. split; [|split].
  - intros name category Hrl. cbv zeta.
    destruct (proj1 (no_retry_on_other_failure o w Hno) name category Hrl)
      as (Hres & Hn & _ & Hw & _).
    rewrite Hw, Hn, app_nil_r. repeat split; [exact Hres | lia].
  - intros prompt Hrl. cbv zeta.
    destruct (proj2 (no_retry_on_other_failure o w Hno) prompt Hrl)
      as (Hres & Hn & _ & Hw & _).
    rewrite Hw, Hn, app_nil_r. repeat split; [exact Hres | lia].
  - intros step imgs loading s Hrl Himg Hmiss Hflag Hstep.
    destruct (fetchImage_miss step imgs loading s w Himg Hmiss Hflag Hstep)
      as (w1 & Hu1 & Hi1 & _ & Hn1 & _ & Hw1 & _ & Hrun).
    cbv zeta in *.
    destruct Hrun as (Hn & Hw & _ & _ & Hload & Hfail & _).
    rewrite <- Hn1 in Hno, Hrl.
    destruct (proj2 (no_retry_on_other_failure o w1 Hno) (prompt s) Hrl)
      as (Hres & Hn' & _ & Hw' & Hi' & _ & Hu').
    rewrite Hres in Hfail. destruct (Hfail eq_refl) as [Himgs Hidb].
    rewrite Hn, Hw, Himgs, Hidb, Hload, Hn', Hw', Hu', Hi', Hu1, Hi1, Hn1.
    rewrite app_nil_r, lookup_insert_eq.
    repeat split; try reflexivity; [lia | exact Hw1].
Qed.

(** The write that fails after [fetchImage] generated an image is only
    logged: the image stays in the React state for the session. *)
Lemma fetchImage_survives_failed_write (step : nat) (imgs : gmap nat string)
    (loading : gmap nat bool) (s : OnboardingStep) (resp : response)
    (d : string) (w : world) :
  answer (provider o (ncalls w)) = Ok resp -> responseImage resp = Some d ->
  set_rejects o (onboardingKey step) = true ->
  present (imgs !! step) = false ->
  missed o w (onboardingKey step) ->
  flagged (loading !! step) = false ->
  steps !! step = Some s ->
  let w' := snd (run o (fetchImage step imgs loading) w) in
  images (ui w') !! step = Some (dataUrl d)
  /\ loadingImages (ui w') !! step = Some false
  /\ idb w' = idb w
  /\ ncalls w' = S (ncalls w).
Proof.
  intros Ha Hd Hset Himg Hmiss Hflag Hstep.
  destruct (fetchImage_miss step imgs loading s w Himg Hmiss Hflag Hstep)
    as (w1 & Hu1 & Hi1 & _ & Hn1 & _ & Hw1 & _ & Hrun).
  cbv zeta in *.
  destruct Hrun as (Hn & _ & _ & _ & Hload & _ & Hok).
  destruct (onboarding_attempts o (prompt s) 0 (retryFuel 0) 0 w1)
    as (Hres & Hn' & _ & _ & Hi' & _ & Hu').
  { rewrite retryFuel_0. lia. }
  { lia. }
  { intros i Hi. lia. }
  { intros _. rewrite Nat.add_0_r, Hn1, Ha. reflexivity. }
  fold (generateOnboardingImage (prompt s)) in *.
  rewrite Nat.add_0_r, Hn1, Ha in Hres. cbn [resultOf] in Hres.
  rewrite Hd in Hres. rewrite Hres in Hok.
  destruct (Hok (dataUrl_present d)) as (Himgs & Hidb & _).
  rewrite Himgs, Hload, (Hidb Hset), Hn, Hn', Hi', Hi1, Hn1.
  rewrite !lookup_insert_eq. repeat split; try reflexivity. lia.
Qed.

(** The turn of [fetchItemIcons] whose write fails keeps the icon in
    the local record but does not report a change. *)
Lemma fetchItemIcons_body_failed_write (categoryName : string)
    (item : Inventory.Food) (newIcons : gmap string string) (changed : bool)
    (resp : response) (d : string) (w : world) :
  answer (provider o (ncalls w)) = Ok resp -> responseImage resp = Some d ->
  set_rejects o (itemIconKey (Inventory.food_name item)) = true ->
  get_rejects o (itemIconKey (Inventory.food_name item)) = false ->
  present (newIcons !! Inventory.food_name item) = false ->
  present (idb w !! itemIconKey (Inventory.food_name item)) = false ->
  fst (run o (fetchItemIcons_body categoryName item newIcons changed) w)
  = (<[Inventory.food_name item := dataUrl d]> newIcons, changed).
Proof.
  intros Ha Hd Hset Hget Hnew Hmiss.
  unfold fetchItemIcons_body. cbv zeta. rewrite Hnew, run_bind.
  cbn [call run issue complete fst snd]. rewrite Hget. cbn [fst snd].
  rewrite Hmiss, run_bind.
  destruct (icon_attempts o (Inventory.food_name item) categoryName 0
              (retryFuel 0) 0 w) as (Hres & _).
  { rewrite retryFuel_0. lia. }
  { lia. }
  { intros i Hi. lia. }
  { intros _. rewrite Nat.add_0_r, Ha. reflexivity. }
  fold (generateIndividualIcon (Inventory.food_name item) categoryName) in *.
  rewrite Nat.add_0_r, Ha in Hres. cbn [resultOf] in Hres. rewrite Hd in Hres.
  rewrite Hres, (dataUrl_present d), !run_bind.
  cbn [call run issue complete fst snd]. rewrite Hset. reflexivity.
Qed.
Lemma fetchItemIcons_body_present (categoryName : string)
    (item : Inventory.Food) (newIcons : gmap string string) (changed : bool) :
  present (newIcons !! Inventory.food_name item) = true ->
  fetchItemIcons_body categoryName item newIcons changed = Ret (newIcons, changed).
Proof. intros H. unfold fetchItemIcons_body. cbv zeta. by rewrite H. Qed.

(** C1, as the code has it.  A request for an onboarding image started
    from a render in which the step already has its image, or in which
    its loading flag is set, cannot reach the provider: run alone it
    makes no call, and started among other tasks it makes none at its
    start nor at any later resumption.  A turn of [fetchItemIcons] for
    an item whose icon the render already had makes no call either.
    Any request makes at most four provider calls, the attempt and its
    three retries. *)
Theorem guarded_request_makes_no_call (step : nat) (imgs : gmap nat string)
    (loading : gmap nat bool) :
  present (imgs !! step) = true \/ flagged (loading !! step) = true ->
  ~ dispatches (fetchImage step imgs loading)
  /\ (forall w : world,
        ncalls (snd (run o (fetchImage step imgs loading) w)) = ncalls w
        /\ callPrompts (trace (snd (run o (fetchImage step imgs loading) w)))
           = callPrompts (trace w))
  /\ (forall w : world,
        ~ dispatches (code (fst (advance o (fetchImage step imgs loading) w)))
        /\ ncalls (snd (advance o (fetchImage step imgs loading) w)) = ncalls w)
  /\ (forall (t : task) (w : world),
        ~ dispatches (code t) ->
        ~ dispatches (code (fst (resume o t w)))
        /\ ncalls (snd (resume o t w)) = ncalls w)
  /\ (forall (categoryName : string) (item : Inventory.Food)
             (newIcons : gmap string string) (changed : bool),
        present (newIcons !! Inventory.food_name item) = true ->
        ~ dispatches (fetchItemIcons_body categoryName item newIcons changed))
  /\ (forall (step' : nat) (imgs' : gmap nat string) (loading' : gmap nat bool)
             (w : world),
        (ncalls (snd (run o (fetchImage step' imgs' loading') w))
         <= ncalls w + 4)%nat).
Proof.
  intros Hguard.
  pose proof (fetchImage_guarded step imgs loading Hguard) as Hnd.
  split; [exact Hnd|]. split; [|split; [|split; [|split]]].
  - intros w. by apply run_no_dispatch.
  - intros w.
    destruct (advance_no_dispatch o (fetchImage step imgs loading) w Hnd)
      as (H1 & H2 & _).
    by split.
  - intros t w Ht.
    destruct (resume_no_dispatch o t w Ht) as (H1 & H2 & _). by split.
  - intros categoryName item newIcons changed Hp.
    rewrite fetchItemIcons_body_present by exact Hp. cbn. tauto.
  - intros step' imgs' loading' w. apply fetchImage_calls.
Qed.

End OnboardingFacts.

(** ** Scenarios *)

Section Scenarios.
Import Async Gemini App Trace Scheduler Samples.

(** C7 where the code departs from it.  With IndexedDB reads working
    and writes refused, [fetchItemIcons] for the Dairy category makes
    five provider calls, each answered with an image, logs five
    errors, and leaves [itemIcons] empty: [changed] is only set after
    the write, so [setItemIcons] is never called and the generated
    icons never reach the React state.  With writes accepted the same
    run shows them. *)
Theorem item_icons_lost_on_failed_write :
  let dairy := Inventory.FOOD_CATEGORIES !! 0%nat in
  let refused := snd (run writesRefused (fetchItemIcons dairy (Some StepItems) ∅) world0) in
  let stored := snd (run alwaysImage (fetchItemIcons dairy (Some StepItems) ∅) world0) in
  (ncalls refused = 5%nat
   /\ callPrompts (trace refused)
      = map (fun name => iconPrompt name "Dairy")
            ["Milk"; "Yogurt"; "Cheese"; "Butter"; "Eggs"]
   /\ consoleLines (trace refused)
      = map (fun name => "Error fetching icon for " +:+ name)
            ["Milk"; "Yogurt"; "Cheese"; "Butter"; "Eggs"]
   /\ itemIcons (ui refused) = ∅)
  /\ (ncalls stored = 5%nat
      /\ itemIcons (ui stored) !! "Milk" = Some (dataUrl "AAAA")).
Proof. vm_compute. repeat split. Qed.

(** C1 as stated fails.  Step 0 is requested, the user moves to step 1
    and back before the first IndexedDB read has settled: both
    requests for step 0 closed over a state without the loading flag,
    and both reach the provider (tasks 0 and 2 wait for it at once).
    Selecting the Dairy category again while its first icon is being
    generated starts a second generation of the Milk icon: item icons
    have no loading flag.  And a single request that meets three rate
    limits makes four provider calls. *)
Lemma duplicate_generation_in_flight :
  let spawnImage step :=
    Spawn (fun r => fetchImage step (images r) (loadingImages r)) in
  let spawnItems :=
    Spawn (fun r => fetchItemIcons (Inventory.FOOD_CATEGORIES !! 0%nat)
                      (Some StepItems) (itemIcons r)) in
  let twoImages :=
    exec alwaysImage
      [spawnImage 0%nat; spawnImage 1%nat; spawnImage 0%nat; Settle 0; Settle 2]
      world0 in
  let twoItems :=
    exec alwaysImage [spawnItems; Settle 0; spawnItems; Settle 1] world0 in
  (callPrompts (trace (snd twoImages))
   = map (fun s => onboardingPrompt (prompt s)) (take 1 steps ++ take 1 steps)
   /\ map awaitsProvider (fst twoImages) = [true; false; true])
  /\ (callPrompts (trace (snd twoItems))
      = [iconPrompt "Milk" "Dairy"; iconPrompt "Milk" "Dairy"]
      /\ map awaitsProvider (fst twoItems) = [true; true])
  /\ ncalls (snd (run thriceLimited (fetchImage 0 ∅ ∅) world0)) = 4%nat.
Proof. vm_compute. repeat split. Qed.

(** C3 as stated fails.  When the first icon generation of
    [fetchIcons] fails after 50 ms, the call for the next category is
    dispatched at once, 50 ms after the first: the 3000 ms wait follows
    successful generations only.  [fetchEmptyStates] waits for nothing
    between its two calls.  And the two effects, both started when the
    component mounts, dispatch their first calls at the same time. *)
Lemma calls_closer_than_spacing :
  let failing := snd (run firstFails fetchIcons world0) in
  let empty := snd (run alwaysImage fetchEmptyStates world0) in
  let mount :=
    snd (exec alwaysImage
           [Spawn (fun _ => fetchIcons); Spawn (fun _ => fetchEmptyStates);
            Settle 0; Settle 1] world0) in
  (callTimes (trace failing) = [0; 50; 3150; 6250; 9350]
   /\ take 2 (callPrompts (trace failing))
      = [iconPrompt "a bowl of rice" "Grains"; iconPrompt "fresh broccoli" "Vegetables"]
   /\ waits (trace failing) = [3000; 3000; 3000; 3000])
  /\ (callTimes (trace empty) = [0; 100] /\ waits (trace empty) = [])
  /\ (callTimes (trace mount) = [0; 0]
      /\ callPrompts (trace mount)
         = iconPrompt "a bowl of rice" "Grains"
           :: map (fun s => onboardingPrompt (state_prompt s)) (take 1 states)).
Proof. vm_compute. repeat split. Qed.

Lemma other_failure_fails_at_once_witness :
  hasImage (answer (provider alwaysServerError (ncalls world0))) = false
  /\ fst (run alwaysServerError (generateIndividualIcon "Milk" "Dairy") world0) = ""
  /\ ncalls (snd (run alwaysServerError
                    (generateIndividualIcon "Milk" "Dairy") world0)) = 1%nat.
Proof.
  split; [reflexivity|].
  destruct (proj1 (other_failure_fails_at_once alwaysServerError world0 eq_refl)
              "Milk" "Dairy" eq_refl) as (Hres & Hn & _).
  split; [exact Hres | exact Hn].
Defined.

Lemma guarded_request_makes_no_call_witness :
  flagged (({[ 0%nat := true ]} : gmap nat bool) !! 0%nat) = true
  /\ ncalls (snd (run alwaysImage
                    (fetchImage 0 ∅ {[ 0%nat := true ]}) world0)) = 0%nat.
Proof.
  assert (flagged (({[ 0%nat := true ]} : gmap nat bool) !! 0%nat) = true)
    as Hflag by reflexivity.
  split; [exact Hflag|].
  apply (proj1 (proj2 (guarded_request_makes_no_call alwaysImage 0%nat ∅
                         {[ 0%nat := true ]} (or_intror Hflag)))).
Defined.

End Scenarios.

(** ** The order of calls and waits, and stored item icons *)

Section TimelineFacts.
Import Async Gemini Trace Readings.
Context (o : oracle).

Lemma timeline_app (t1 t2 : list event) :
  timeline (t1 ++ t2) = timeline t1 ++ timeline t2.
Proof. apply omap_app. Qed.

Lemma rateLimitedIcon_no_image (a : result jsError response) :
  rateLimitedIcon a = true -> hasImage a = false.
Proof. destruct a; [discriminate | reflexivity]. Qed.

Lemma rateLimitedOnboarding_no_image (a : result jsError response) :
  rateLimitedOnboarding a = true -> hasImage a = false.
Proof. destruct a; [discriminate | reflexivity]. Qed.

Lemma icon_timeline (name category : string) :
  forall (k fuel : nat) (rc : Z) (w : world),
    (k < fuel)%nat -> 0 <= rc -> rc + Z.of_nat k <= 3 ->
    (forall i, (i < k)%nat ->
               rateLimitedIcon (answer (provider o (ncalls w + i))) = true) ->
    (rc + Z.of_nat k < 3 ->
     rateLimitedIcon (answer (provider o (ncalls w + k))) = false) ->
    exists tr,
      trace (snd (run o (generateIndividualIcon_from fuel name category rc) w))
      = trace w ++ tr
      /\ timeline tr
         = schedule o (iconPrompt name category) 5000 (ncalls w) rc (clock w) k.
Proof.
  induction k as [|k IH]; intros fuel rc w Hfuel Hrc0 Hrc Hrl Hlast.
  - destruct fuel as [|fuel]; [lia|].
    cbn [generateIndividualIcon_from]. rewrite run_bind.
    cbn [call run issue complete fst snd].
    rewrite Nat.add_0_r in *. cbn [schedule].
    destruct (answer (provider o (ncalls w))) as [resp|err] eqn:Ha.
    + eexists. split.
      * destruct (responseImage resp); cbn; rewrite <- app_assoc; reflexivity.
      * cbn. rewrite Ha. reflexivity.
    + assert ((is429 (error_code err) && (rc <? 3)) = false) as ->.
      { destruct (Z.ltb_spec rc 3) as [Hlt|Hge].
        - cbn in Hlast. rewrite Hlast by lia. reflexivity.
        - apply andb_false_r. }
      rewrite run_bind. eexists. split.
      * cbn. rewrite <- !app_assoc. reflexivity.
      * cbn. rewrite Ha. reflexivity.
  - destruct fuel as [|fuel]; [lia|].
    cbn [generateIndividualIcon_from]. rewrite run_bind.
    cbn [call run issue complete fst snd].
    assert (0 < S k)%nat as Hpos by lia.
    pose proof (Hrl O Hpos) as H0. rewrite Nat.add_0_r in H0.
    destruct (answer (provider o (ncalls w))) as [resp|err] eqn:Ha;
      [discriminate|].
    cbn in H0. rewrite H0.
    assert ((rc <? 3) = true) as -> by (apply Z.ltb_lt; lia).
    cbn [andb]. rewrite run_bind.
    cbn [call run issue complete fst snd].
    set (w1 := waited _ _).
    assert (ncalls w1 = S (ncalls w)) as Hn1 by reflexivity.
    assert (clock w1 = clock w + Z.of_N (latency (provider o (ncalls w)))
                       + 5000 * (rc + 1)) as Hc1.
    { subst w1. cbn. lia. }
    assert (trace w1
            = trace w ++ [EvCall (iconPrompt name category) (clock w);
                          EvReply (clock w + Z.of_N (latency (provider o (ncalls w))))
                                  (hasImage (answer (provider o (ncalls w))));
                          EvTimeout (5000 * (rc + 1))]) as Ht1.
    { subst w1. cbn. rewrite <- !app_assoc. reflexivity. }
    destruct (IH fuel (rc + 1) w1) as (tr & Htr & Htl).
    + lia.
    + lia.
    + lia.
    + intros i Hi. rewrite Hn1.
      replace (S (ncalls w) + i)%nat with (ncalls w + S i)%nat by lia.
      apply Hrl. lia.
    + intros Hlt. rewrite Hn1.
      replace (S (ncalls w) + k)%nat with (ncalls w + S k)%nat by lia.
      apply Hlast. lia.
    + eexists. split.
      * rewrite Htr, Ht1, <- app_assoc. reflexivity.
      * rewrite timeline_app, Htl, Hn1, Hc1. reflexivity.
Qed.

Lemma onboarding_timeline (prompt : string) :
  forall (k fuel : nat) (rc : Z) (w : world),
    (k < fuel)%nat -> 0 <= rc -> rc + Z.of_nat k <= 3 ->
    (forall i, (i < k)%nat ->
               rateLimitedOnboarding (answer (provider o (ncalls w + i))) = true) ->
    (rc + Z.of_nat k < 3 ->
     rateLimitedOnboarding (answer (provider o (ncalls w + k))) = false) ->
    exists tr,
      trace (snd (run o (generateOnboardingImage_from fuel prompt rc) w))
      = trace w ++ tr
      /\ timeline tr
         = schedule o (onboardingPrompt prompt) 10000 (ncalls w) rc (clock w) k.
Proof.
  induction k as [|k IH]; intros fuel rc w Hfuel Hrc0 Hrc Hrl Hlast.
  - destruct fuel as [|fuel]; [lia|].
    cbn [generateOnboardingImage_from]. rewrite run_bind.
    cbn [call run issue complete fst snd].
    rewrite Nat.add_0_r in *. cbn [schedule].
    destruct (answer (provider o (ncalls w))) as [resp|err] eqn:Ha.
    + eexists. split.
      * destruct (responseImage resp); cbn; rewrite <- app_assoc; reflexivity.
      * cbn. rewrite Ha. reflexivity.
    + assert ((is429 (code_or (error_code err) (error_status err)) && (rc <? 3))
              = false) as ->.
      { destruct (Z.ltb_spec rc 3) as [Hlt|Hge].
        - cbn in Hlast. rewrite Hlast by lia. reflexivity.
        - apply andb_false_r. }
      rewrite run_bind. eexists. split.
      * cbn. rewrite <- !app_assoc. reflexivity.
      * cbn. rewrite Ha. reflexivity.
  - destruct fuel as [|fuel]; [lia|].
    cbn [generateOnboardingImage_from]. rewrite run_bind.
    cbn [call run issue complete fst snd].
    assert (0 < S k)%nat as Hpos by lia.
    pose proof (Hrl O Hpos) as H0. rewrite Nat.add_0_r in H0.
    destruct (answer (provider o (ncalls w))) as [resp|err] eqn:Ha;
      [discriminate|].
    cbn in H0. rewrite H0.
    assert ((rc <? 3) = true) as -> by (apply Z.ltb_lt; lia).
    cbn [andb]. rewrite !run_bind.
    cbn [call run issue complete fst snd].
    set (w1 := waited _ _).
    assert (ncalls w1 = S (ncalls w)) as Hn1 by reflexivity.
    assert (clock w1 = clock w + Z.of_N (latency (provider o (ncalls w)))
                       + 10000 * (rc + 1)) as Hc1.
    { subst w1. cbn. lia. }
    assert (exists pre,
              trace w1 = trace w ++ pre
              /\ timeline pre
                 = [EvCall (onboardingPrompt prompt) (clock w);
                    EvReply (clock w + Z.of_N (latency (provider o (ncalls w))))
                            (hasImage (answer (provider o (ncalls w))));
                    EvTimeout (10000 * (rc + 1))]) as (pre & Ht1 & Hpre).
    { subst w1. eexists. split.
      - cbn. rewrite <- !app_assoc. reflexivity.
      - reflexivity. }
    destruct (IH fuel (rc + 1) w1) as (tr & Htr & Htl).
    + lia.
    + lia.
    + lia.
    + intros i Hi. rewrite Hn1.
      replace (S (ncalls w) + i)%nat with (ncalls w + S i)%nat by lia.
      apply Hrl. lia.
    + intros Hlt. rewrite Hn1.
      replace (S (ncalls w) + k)%nat with (ncalls w + S k)%nat by lia.
      apply Hlast. lia.
    + exists (pre ++ tr). split.
      * rewrite Htr, Ht1, <- app_assoc. reflexivity.
      * rewrite timeline_app, Htl, Hpre, Hn1, Hc1. reflexivity.
Qed.

End TimelineFacts.

Section BackoffFacts.
Import Async Gemini Trace Readings.
Context (o : oracle).

Lemma status_only_limit (err : jsError) :
  code_truthy (error_code err) = false -> is429 (error_status err) = true ->
  rateLimitedIcon (Throw err) = false /\ rateLimitedOnboarding (Throw err) = true.
Proof.
  intros Hc Hs. cbn. unfold code_or. rewrite Hc. split; [|exact Hs].
  destruct (error_code err) as [|n|s]; try reflexivity.
  cbn in *. apply negb_false_iff in Hc. apply Z.eqb_eq in Hc. by subst n.
Qed.

Lemma onboarding_retry_from (prompt : string) (err : jsError) (w : world)
    (fuel : nat) (rc : Z) :
  answer (provider o (ncalls w)) = Throw err ->
  rateLimitedOnboarding (Throw err) = true ->
  0 <= rc < 3 -> (0 < fuel)%nat ->
  (S (ncalls w)
   < ncalls (snd (run o (generateOnboardingImage_from (S fuel) prompt rc) w)))%nat
  /\ exists rest,
       waits (trace (snd (run o (generateOnboardingImage_from (S fuel) prompt rc) w)))
       = waits (trace w) ++ 10000 * (rc + 1) :: rest.
Proof.
  intros Ha Hrl Hrc Hfuel.
  cbn [generateOnboardingImage_from]. rewrite run_bind.
  cbn [call run issue complete fst snd]. rewrite Ha.
  cbn in Hrl. rewrite Hrl.
  assert ((rc <? 3) = true) as -> by (apply Z.ltb_lt; lia).
  cbn [andb]. rewrite !run_bind.
  cbn [call run issue complete fst snd].
  set (w1 := waited _ _).
  pose proof (onboarding_generated o prompt fuel (rc + 1) w1)
    as (_ & _ & _ & _ & Hn & _ & tr & Htr & _).
  specialize (Hn Hfuel).
  assert (ncalls w1 = S (ncalls w)) as Hn1 by reflexivity.
  split; [lia|].
  exists (waits tr). rewrite Htr, waits_app. subst w1. cbn.
  rewrite !waits_app. cbn. rewrite !app_nil_r, <- app_assoc. reflexivity.
Qed.

Lemma onboarding_first_retry (prompt : string) (err : jsError) (w : world) :
  answer (provider o (ncalls w)) = Throw err ->
  rateLimitedOnboarding (Throw err) = true ->
  (S (ncalls w) < ncalls (snd (run o (generateOnboardingImage prompt) w)))%nat
  /\ exists rest,
       waits (trace (snd (run o (generateOnboardingImage prompt) w)))
       = waits (trace w) ++ 10000 * 1 :: rest.
Proof.
  intros Ha Hrl. unfold generateOnboardingImage. rewrite retryFuel_0.
  apply (onboarding_retry_from prompt err w 3 0 Ha Hrl); lia.
Qed.

(** C2 where the code keeps it, and where it does not.  While the
    answers are rate limits by a generator's own test, the generator
    waits its base delay times (attempt + 1) and only then calls again,
    three times at most.  After three rate limits the calls, answers and
    waits of the run are, in this order: call, answer, wait base * 1,
    call, answer, wait base * 2, call, answer, wait base * 3, call,
    answer, each call dispatched at the instant the wait before it ends
    (5 s steps for icons, 10 s steps for onboarding images); exactly
    four provider calls are made, the fourth answer decides the result,
    and there is no fifth call.  The two tests differ:
    [generateIndividualIcon] reads [error.error.code] only, so a rate
    limit that carries 429 in [error.status] ends the icon call after
    one provider call and no wait, while [generateOnboardingImage]
    waits 10 s and calls again on the same answer. *)
Theorem rate_limit_backoff (w : world) :
  (forall name category : string,
      (forall i, (i < 3)%nat ->
         rateLimitedIcon (answer (provider o (ncalls w + i))) = true) ->
      let r := run o (generateIndividualIcon name category) w in
      let fourth := answer (provider o (ncalls w + 3)) in
      let lat i := Z.of_N (latency (provider o (ncalls w + i))) in
      let t1 := clock w + lat 0%nat + 5000 * 1 in
      let t2 := t1 + lat 1%nat + 5000 * 2 in
      let t3 := t2 + lat 2%nat + 5000 * 3 in
      ncalls (snd r) = (ncalls w + 4)%nat
      /\ callPrompts (trace (snd r))
         = callPrompts (trace w) ++ replicate 4 (iconPrompt name category)
      /\ waits (trace (snd r))
         = waits (trace w) ++ [5000 * 1; 5000 * 2; 5000 * 3]
      /\ (forall resp d, fourth = Ok resp -> responseImage resp = Some d ->
                         fst r = dataUrl d)
      /\ (rateLimitedIcon fourth = true -> fst r = "")
      /\ exists tr,
           trace (snd r) = trace w ++ tr
           /\ timeline tr
              = [EvCall (iconPrompt name category) (clock w);
                 EvReply (clock w + lat 0%nat) false;
                 EvTimeout (5000 * 1);
                 EvCall (iconPrompt name category) t1;
                 EvReply (t1 + lat 1%nat) false;
                 EvTimeout (5000 * 2);
                 EvCall (iconPrompt name category) t2;
                 EvReply (t2 + lat 2%nat) false;
                 EvTimeout (5000 * 3);
                 EvCall (iconPrompt name category) t3;
                 EvReply (t3 + lat 3%nat) (hasImage fourth)])
  /\ (forall prompt : string,
      (forall i, (i < 3)%nat ->
         rateLimitedOnboarding (answer (provider o (ncalls w + i))) = true) ->
      let r := run o (generateOnboardingImage prompt) w in
      let fourth := answer (provider o (ncalls w + 3)) in
      let lat i := Z.of_N (latency (provider o (ncalls w + i))) in
      let t1 := clock w + lat 0%nat + 10000 * 1 in
      let t2 := t1 + lat 1%nat + 10000 * 2 in
      let t3 := t2 + lat 2%nat + 10000 * 3 in
      ncalls (snd r) = (ncalls w + 4)%nat
      /\ callPrompts (trace (snd r))
         = callPrompts (trace w) ++ replicate 4 (onboardingPrompt prompt)
      /\ waits (trace (snd r))
         = waits (trace w) ++ [10000 * 1; 10000 * 2; 10000 * 3]
      /\ (forall resp d, fourth = Ok resp -> responseImage resp = Some d ->
                         fst r = dataUrl d)
      /\ (rateLimitedOnboarding fourth = true -> fst r = "")
      /\ exists tr,
           trace (snd r) = trace w ++ tr
           /\ timeline tr
              = [EvCall (onboardingPrompt prompt) (clock w);
                 EvReply (clock w + lat 0%nat) false;
                 EvTimeout (10000 * 1);
                 EvCall (onboardingPrompt prompt) t1;
                 EvReply (t1 + lat 1%nat) false;
                 EvTimeout (10000 * 2);
                 EvCall (onboardingPrompt prompt) t2;
                 EvReply (t2 + lat 2%nat) false;
                 EvTimeout (10000 * 3);
                 EvCall (onboardingPrompt prompt) t3;
                 EvReply (t3 + lat 3%nat) (hasImage fourth)])
  /\ 5000 * 1 <= 5000 * 2 <= 5000 * 3
  /\ 10000 * 1 <= 10000 * 2 <= 10000 * 3
  /\ (forall (name category prompt : string) (err : jsError),
      answer (provider o (ncalls w)) = Throw err ->
      code_truthy (error_code err) = false ->
      is429 (error_status err) = true ->
      let icon := run o (generateIndividualIcon name category) w in
      let onboarding := run o (generateOnboardingImage prompt) w in
      (fst icon = ""
       /\ ncalls (snd icon) = S (ncalls w)
       /\ waits (trace (snd icon)) = waits (trace w))
      /\ ((S (ncalls w) < ncalls (snd onboarding))%nat
          /\ exists rest,
               waits (trace (snd onboarding))
               = waits (trace w) ++ 10000 * 1 :: rest)).
Proof.
  split; [|split; [|split; [lia|split; [lia|]]]].
  - intros name category Hrl. cbv zeta.
    destruct (icon_attempts o name category 3 (retryFuel 0) 0 w)
      as (Hres & Hn & Hp & Hw & _);
      [rewrite retryFuel_0; lia | lia | exact Hrl | lia |].
    destruct (icon_timeline o name category 3 (retryFuel 0) 0 w)
      as (tr & Htr & Htl);
      [rewrite retryFuel_0; lia | lia | lia | exact Hrl | lia |].
    fold (generateIndividualIcon name category) in *.
    split; [rewrite Hn; lia|]. split; [exact Hp|]. split; [exact Hw|].
    split; [|split].
    + intros resp d Hfourth Himg. rewrite Hres, Hfourth. cbn. by rewrite Himg.
    + intros Hfourth. rewrite Hres.
      destruct (answer (provider o (ncalls w + 3))); [discriminate | reflexivity].
    + exists tr. split; [exact Htr|]. rewrite Htl. cbn [schedule].
      pose proof (rateLimitedIcon_no_image _ (Hrl 0%nat ltac:(lia))) as H0.
      pose proof (rateLimitedIcon_no_image _ (Hrl 1%nat ltac:(lia))) as H1.
      pose proof (rateLimitedIcon_no_image _ (Hrl 2%nat ltac:(lia))) as H2.
      replace (S (ncalls w)) with (ncalls w + 1)%nat by lia.
      replace (S (ncalls w + 1)) with (ncalls w + 2)%nat by lia.
      replace (S (ncalls w + 2)) with (ncalls w + 3)%nat by lia.
      rewrite Nat.add_0_r in H0 |- *. rewrite H0, H1, H2.
      reflexivity.
  - intros prompt Hrl. cbv zeta.
    destruct (onboarding_attempts o prompt 3 (retryFuel 0) 0 w)
      as (Hres & Hn & Hp & Hw & _);
      [rewrite retryFuel_0; lia | lia | exact Hrl | lia |].
    destruct (onboarding_timeline o prompt 3 (retryFuel 0) 0 w)
      as (tr & Htr & Htl);
      [rewrite retryFuel_0; lia | lia | lia | exact Hrl | lia |].
    fold (generateOnboardingImage prompt) in *.
    split; [rewrite Hn; lia|]. split; [exact Hp|]. split; [exact Hw|].
    split; [|split].
    + intros resp d Hfourth Himg. rewrite Hres, Hfourth. cbn. by rewrite Himg.
    + intros Hfourth. rewrite Hres.
      destruct (answer (provider o (ncalls w + 3))); [discriminate | reflexivity].
    + exists tr. split; [exact Htr|]. rewrite Htl. cbn [schedule].
      pose proof (rateLimitedOnboarding_no_image _ (Hrl 0%nat ltac:(lia))) as H0.
      pose proof (rateLimitedOnboarding_no_image _ (Hrl 1%nat ltac:(lia))) as H1.
      pose proof (rateLimitedOnboarding_no_image _ (Hrl 2%nat ltac:(lia))) as H2.
      replace (S (ncalls w)) with (ncalls w + 1)%nat by lia.
      replace (S (ncalls w + 1)) with (ncalls w + 2)%nat by lia.
      replace (S (ncalls w + 2)) with (ncalls w + 3)%nat by lia.
      rewrite Nat.add_0_r in H0 |- *. rewrite H0, H1, H2.
      reflexivity.
  - intros name category prompt err Ha Hcode Hstatus. cbv zeta.
    destruct (status_only_limit err Hcode Hstatus) as (Hicon & Honb).
    split.
    + destruct (icon_attempts o name category 0 (retryFuel 0) 0 w)
        as (Hres & Hn & _ & Hw & _).
      * rewrite retryFuel_0. lia.
      * lia.
      * intros i Hi. lia.
      * intros _. rewrite Nat.add_0_r, Ha. exact Hicon.
      * fold (generateIndividualIcon name category) in *.
        rewrite Nat.add_0_r, Ha in Hres. cbn in Hw. rewrite app_nil_r in Hw.
        split; [exact Hres|]. split; [rewrite Hn; lia | exact Hw].
    + apply (onboarding_first_retry prompt err w Ha Honb).
Qed.

(** X17.  Whatever the provider answers, each generator makes between
    one and four provider calls: the first [k <= 3] answers are rate
    limits by the generator's own test, the result is read off answer
    [k] alone, all calls carry the same prompt, the store and the React
    state are not touched, and the calls, answers and waits of the run
    are those of [schedule]: each retried answer is followed by the wait
    [base * (attempt + 1)], and the next call is dispatched when that
    wait is over. *)
Theorem generators_bounded_attempts (w : world) :
  (forall name category : string,
      let r := run o (generateIndividualIcon name category) w in
      exists k : nat,
        (k <= 3)%nat
        /\ (forall i, (i < k)%nat ->
              rateLimitedIcon (answer (provider o (ncalls w + i))) = true)
        /\ fst r = resultOf (answer (provider o (ncalls w + k)))
        /\ retried (iconPrompt name category) 5000 0 k w (snd r)
        /\ exists tr,
             trace (snd r) = trace w ++ tr
             /\ timeline tr
                = schedule o (iconPrompt name category) 5000 (ncalls w) 0
                    (clock w) k)
  /\ (forall prompt : string,
      let r := run o (generateOnboardingImage prompt) w in
      exists k : nat,
        (k <= 3)%nat
        /\ (forall i, (i < k)%nat ->
              rateLimitedOnboarding (answer (provider o (ncalls w + i))) = true)
        /\ fst r = resultOf (answer (provider o (ncalls w + k)))
        /\ retried (onboardingPrompt prompt) 10000 0 k w (snd r)
        /\ exists tr,
             trace (snd r) = trace w ++ tr
             /\ timeline tr
                = schedule o (onboardingPrompt prompt) 10000 (ncalls w) 0
                    (clock w) k).
Proof.
  split.
  - intros name category r. subst r. unfold generateIndividualIcon.
    rewrite retryFuel_0.
    assert (forall k : nat,
              (k <= 3)%nat ->
              (forall i, (i < k)%nat ->
                 rateLimitedIcon (answer (provider o (ncalls w + i))) = true) ->
              (Z.of_nat k < 3 ->
               rateLimitedIcon (answer (provider o (ncalls w + k))) = false) ->
              exists k0 : nat,
                (k0 <= 3)%nat
                /\ (forall i, (i < k0)%nat ->
                      rateLimitedIcon (answer (provider o (ncalls w + i))) = true)
                /\ fst (run o (generateIndividualIcon_from 4 name category 0) w)
                   = resultOf (answer (provider o (ncalls w + k0)))
                /\ retried (iconPrompt name category) 5000 0 k0 w
                     (snd (run o (generateIndividualIcon_from 4 name category 0) w))
                /\ exists tr,
                     trace (snd (run o (generateIndividualIcon_from 4 name category 0) w))
                     = trace w ++ tr
                     /\ timeline tr
                        = schedule o (iconPrompt name category) 5000 (ncalls w) 0
                            (clock w) k0) as Hcase.
    { intros k Hk Hl Hlast. exists k. split; [exact Hk|]. split; [exact Hl|].
      destruct (icon_attempts o name category k 4 0 w) as (Hres & Hret);
        [lia | lia | exact Hl | exact Hlast |].
      split; [exact Hres|]. split; [exact Hret|].
      apply (icon_timeline o name category k 4 0 w);
        [lia | lia | lia | exact Hl | exact Hlast]. }
    destruct (rateLimitedIcon (answer (provider o (ncalls w + 0)))) eqn:H0;
      [destruct (rateLimitedIcon (answer (provider o (ncalls w + 1)))) eqn:H1;
       [destruct (rateLimitedIcon (answer (provider o (ncalls w + 2)))) eqn:H2|]|].
    + apply (Hcase 3%nat); [lia | | lia].
      intros i Hi. destruct i as [|[|[|i]]]; try assumption; lia.
    + apply (Hcase 2%nat); [lia | | intros _; exact H2].
      intros i Hi. destruct i as [|[|i]]; try assumption; lia.
    + apply (Hcase 1%nat); [lia | | intros _; exact H1].
      intros i Hi. destruct i as [|i]; try assumption; lia.
    + apply (Hcase 0%nat); [lia | | intros _; exact H0].
      intros i Hi. lia.
  - intros prompt r. subst r. unfold generateOnboardingImage.
    rewrite retryFuel_0.
    assert (forall k : nat,
              (k <= 3)%nat ->
              (forall i, (i < k)%nat ->
                 rateLimitedOnboarding (answer (provider o (ncalls w + i))) = true) ->
              (Z.of_nat k < 3 ->
               rateLimitedOnboarding (answer (provider o (ncalls w + k))) = false) ->
              exists k0 : nat,
                (k0 <= 3)%nat
                /\ (forall i, (i < k0)%nat ->
                      rateLimitedOnboarding (answer (provider o (ncalls w + i)))
                      = true)
                /\ fst (run o (generateOnboardingImage_from 4 prompt 0) w)
                   = resultOf (answer (provider o (ncalls w + k0)))
                /\ retried (onboardingPrompt prompt) 10000 0 k0 w
                     (snd (run o (generateOnboardingImage_from 4 prompt 0) w))
                /\ exists tr,
                     trace (snd (run o (generateOnboardingImage_from 4 prompt 0) w))
                     = trace w ++ tr
                     /\ timeline tr
                        = schedule o (onboardingPrompt prompt) 10000 (ncalls w) 0
                            (clock w) k0) as Hcase.
    { intros k Hk Hl Hlast. exists k. split; [exact Hk|]. split; [exact Hl|].
      destruct (onboarding_attempts o prompt k 4 0 w) as (Hres & Hret);
        [lia | lia | exact Hl | exact Hlast |].
      split; [exact Hres|]. split; [exact Hret|].
      apply (onboarding_timeline o prompt k 4 0 w);
        [lia | lia | lia | exact Hl | exact Hlast]. }
    destruct (rateLimitedOnboarding (answer (provider o (ncalls w + 0)))) eqn:H0;
      [destruct (rateLimitedOnboarding (answer (provider o (ncalls w + 1)))) eqn:H1;
       [destruct (rateLimitedOnboarding (answer (provider o (ncalls w + 2)))) eqn:H2|]|].
    + apply (Hcase 3%nat); [lia | | lia].
      intros i Hi. destruct i as [|[|[|i]]]; try assumption; lia.
    + apply (Hcase 2%nat); [lia | | intros _; exact H2].
      intros i Hi. destruct i as [|[|i]]; try assumption; lia.
    + apply (Hcase 1%nat); [lia | | intros _; exact H1].
      intros i Hi. destruct i as [|i]; try assumption; lia.
    + apply (Hcase 0%nat); [lia | | intros _; exact H0].
      intros i Hi. lia.
Qed.

End BackoffFacts.

Section CachedIconFacts.
Import Async Gemini App Trace.
Context (o : oracle).





End CachedIconFacts.

Section MoreScenarios.
Import Async Gemini App Trace Scheduler Samples Readings.

(** C6 as stated fails for an empty payload.  A response part that
    carries inline data whose [data] is the empty string counts as an
    image: both generators return the non-empty string
    'data:image/png;base64,', and [fetchImage] shows it, stores it and
    logs nothing, after one provider call. *)
Lemma empty_payload_is_shown :
  let shown := snd (run emptyData (fetchImage 0 ∅ ∅) world0) in
  hasImage (answer (provider emptyData 0)) = true
  /\ fst (run emptyData (generateIndividualIcon "Milk" "Dairy") world0)
     = "data:image/png;base64,"
  /\ fst (run emptyData (generateOnboardingImage "a fridge") world0)
     = "data:image/png;base64,"
  /\ images (ui shown) !! 0%nat = Some "data:image/png;base64,"
  /\ idb shown !! onboardingKey 0 = Some "data:image/png;base64,"
  /\ loadingImages (ui shown) !! 0%nat = Some false
  /\ ncalls shown = 1%nat
  /\ consoleLines (trace shown) = [].
Proof. vm_compute. repeat split. Qed.

Lemma rate_limit_backoff_witness :
  (forall i, (i < 3)%nat ->
     rateLimitedIcon (answer (provider thriceLimited (ncalls world0 + i))) = true)
  /\ ncalls (snd (run thriceLimited (generateIndividualIcon "Milk" "Dairy") world0))
     = 4%nat
  /\ waits (trace (snd (run thriceLimited
                           (generateIndividualIcon "Milk" "Dairy") world0)))
     = [5000; 10000; 15000]
  /\ callTimes (trace (snd (run thriceLimited
                              (generateIndividualIcon "Milk" "Dairy") world0)))
     = [0; 5100; 15200; 30300]
  /\ answer (provider thriceStatusLimited 0) = Throw status429
  /\ ncalls (snd (run thriceStatusLimited
                    (generateIndividualIcon "Milk" "Dairy") world0)) = 1%nat
  /\ waits (trace (snd (run thriceStatusLimited
                           (generateIndividualIcon "Milk" "Dairy") world0))) = []
  /\ ncalls (snd (run thriceStatusLimited
                    (generateOnboardingImage "a fridge") world0)) = 4%nat.
Proof.
  assert (forall i, (i < 3)%nat ->
            rateLimitedIcon (answer (provider thriceLimited (ncalls world0 + i)))
            = true) as Hrl.
  { intros i Hi. destruct i as [|[|[|i]]]; [reflexivity..|lia]. }
  split; [exact Hrl|].
  destruct (proj1 (rate_limit_backoff thriceLimited world0) "Milk" "Dairy" Hrl)
    as (Hn & _ & Hw & _).
  split; [exact Hn|]. split; [exact Hw|]. split; [reflexivity|].
  split; [reflexivity|].
  destruct (proj2 (proj2 (proj2 (proj2 (rate_limit_backoff thriceStatusLimited world0))))
              "Milk" "Dairy" "a fridge" status429 eq_refl eq_refl eq_refl)
    as ((_ & Hn1 & Hw1) & _).
  split; [exact Hn1|]. split; [exact Hw1|]. reflexivity.
Defined.


End MoreScenarios.

(** ** Navigation and the carousel *)

Section ViewFacts.
Import Expiry Inventory Views.

Lemma steps_length : length App.steps = 3%nat.
Proof. reflexivity. Qed.

Lemma navigate_in_range (ev : NavEvent) (step : nat) :
  (step < length App.steps)%nat -> dotInRange ev ->
  (fst (navigate ev step) < length App.steps)%nat.
Proof.
  intros Hs Hev. pose proof steps_length as L.
  destruct ev as [| |i]; cbn [navigate fst].
  - unfold handleNext.
    destruct (Z.ltb_spec (Z.of_nat step) (Z.of_nat (length App.steps) - 1));
      cbn [fst]; lia.
  - unfold handlePrev. destruct (Z.ltb_spec 0 (Z.of_nat step)); lia.
  - exact Hev.
Qed.

Lemma carouselStep_nonneg (ev : CarouselEvent) (idx : Z) :
  0 <= idx -> dragOnItems ev -> 0 <= carouselStep ev idx.
Proof.
  intros Hi Hev. destruct ev as [active len key|len|len|]; cbn [carouselStep].
  - unfold carouselKey, carouselNext, carouselPrev.
    destruct (negb active); cbn [orb]; [exact Hi|].
    destruct (Z.eqb_spec (Z.of_nat len) 0); [exact Hi|].
    repeat case_bool_decide; try exact Hi; apply Z.rem_nonneg; lia.
  - cbn in Hev. apply Z.rem_nonneg; lia.
  - cbn in Hev. apply Z.rem_nonneg; lia.
  - lia.
Qed.

Lemma currentItem_defined {A} (items : list A) (idx : Z) :
  0 <= idx -> items <> [] -> is_Some (currentItem items idx).
Proof.
  intros Hi Hne. unfold currentItem. cbv zeta.
  assert (0 < Z.of_nat (length items)) as Hlen.
  { destruct items; [done | cbn; lia]. }
  pose proof (Z.rem_bound_pos idx _ Hi Hlen) as [Hlo Hhi].
  destruct (Z.ltb_spec (Z.rem idx (Z.of_nat (length items))) 0); [lia|].
  apply lookup_lt_is_Some. lia.
Qed.

(** X2.  Started at a non-negative index, the carousel index stays
    non-negative under any run of arrow keys, drags and filter changes, also
    when the length of the filtered list changes between them, and the card
    read at [filteredItems[carouselIndex % filteredItems.length]] is defined
    for every non-empty list: the negative remainder of JavaScript's [%] is
    never reached. *)
Theorem carousel_item_defined {A} (events : list CarouselEvent) (idx : Z)
    (items : list A) :
  0 <= idx -> Forall dragOnItems events -> items <> [] ->
  0 <= carouselRun events idx
  /\ is_Some (currentItem items (carouselRun events idx)).
Proof.
  intros Hi Hev Hne.
  assert (0 <= carouselRun events idx) as Hr.
  { unfold carouselRun. revert idx Hi.
    induction Hev as [|ev rest Hd _ IH]; intros idx Hi; [exact Hi|].
    cbn [fold_left]. apply IH. by apply carouselStep_nonneg. }
  split; [exact Hr | by apply currentItem_defined].
Qed.

Lemma carousel_item_defined_witness :
  0 <= 0
  /\ is_Some (currentItem ["a"; "b"; "c"]
       (carouselRun [CarouselKey true 3 "ArrowLeft"; CarouselDragNext 3;
                     CarouselKey false 3 "ArrowRight"; CarouselKey true 3 "ArrowLeft"]
          0)).
Proof.
  assert (0 <= 0) as H0 by lia.
  assert (Forall dragOnItems
            [CarouselKey true 3 "ArrowLeft"; CarouselDragNext 3;
             CarouselKey false 3 "ArrowRight"; CarouselKey true 3 "ArrowLeft"])
    as Hev by (repeat constructor; cbn; lia).
  assert (["a"; "b"; "c"] <> []) as Hne by discriminate.
  split; [exact H0|].
  exact (proj2 (carousel_item_defined _ 0 ["a"; "b"; "c"] H0 Hev Hne)).
Defined.

(** X3.  On a list of fixed positive length the two carousel updaters undo
    each other: next then previous, and previous then next, show the item
    that was shown before (and give back the index itself when it was
    below the length). *)
Theorem carousel_next_prev_inverse (len idx : Z) :
  0 < len -> 0 <= idx ->
  Z.rem (carouselPrev len (carouselNext len idx)) len = Z.rem idx len
  /\ Z.rem (carouselNext len (carouselPrev len idx)) len = Z.rem idx len
  /\ (idx < len ->
      carouselPrev len (carouselNext len idx) = idx
      /\ carouselNext len (carouselPrev len idx) = idx).
Proof.
  intros Hlen Hidx. unfold carouselNext, carouselPrev.
  assert (Z.rem (idx + 1) len = (idx + 1) mod len) as E1
    by (apply Z.rem_mod_nonneg; lia).
  assert (Z.rem (idx - 1 + len) len = (idx - 1 + len) mod len) as E2
    by (apply Z.rem_mod_nonneg; lia).
  pose proof (Z.mod_pos_bound (idx + 1) len Hlen) as B1.
  pose proof (Z.mod_pos_bound (idx - 1 + len) len Hlen) as B2.
  rewrite E1, E2.
  assert (Z.rem ((idx + 1) mod len - 1 + len) len = idx mod len) as R1.
  { rewrite Z.rem_mod_nonneg by lia.
    replace ((idx + 1) mod len - 1 + len) with ((idx + 1) mod len + (len - 1)) by lia.
    rewrite Z.add_mod_idemp_l by lia.
    replace (idx + 1 + (len - 1)) with (idx + 1 * len) by lia.
    apply Z.mod_add. lia. }
  assert (Z.rem ((idx - 1 + len) mod len + 1) len = idx mod len) as R2.
  { rewrite Z.rem_mod_nonneg by lia.
    rewrite Z.add_mod_idemp_l by lia.
    replace (idx - 1 + len + 1) with (idx + 1 * len) by lia.
    apply Z.mod_add. lia. }
  rewrite R1, R2.
  assert (Z.rem idx len = idx mod len) as E0 by (apply Z.rem_mod_nonneg; lia).
  assert (Z.rem (idx mod len) len = idx mod len) as E3.
  { pose proof (Z.mod_pos_bound idx len Hlen).
    rewrite Z.rem_mod_nonneg by lia. apply Z.mod_mod. lia. }
  rewrite E0, E3. split; [reflexivity|]. split; [reflexivity|].
  intros Hlt. rewrite Z.mod_small by lia. split; reflexivity.
Qed.

Lemma carousel_next_prev_inverse_witness :
  0 < 3 /\ carouselPrev 3 (carouselNext 3 2) = 2.
Proof.
  split; [lia|].
  destruct (carousel_next_prev_inverse 3 2) as (_ & _ & H); [lia | lia |].
  apply H. lia.
Defined.

End ViewFacts.

Section MoreViewFacts.
Import Expiry Inventory Views.

Lemma handleNext_cases (step : nat) :
  (step < length App.steps)%nat ->
  (S step = length App.steps -> handleNext step = (step, true))
  /\ (S step <> length App.steps -> handleNext step = (S step, false)).
Proof.
  intros Hs. unfold handleNext.
  destruct (Z.ltb_spec (Z.of_nat step) (Z.of_nat (length App.steps) - 1));
    split; intros; try reflexivity; lia.
Qed.

Lemma onboardingRun_app (events : list NavEvent) (ev : NavEvent) :
  forall step : nat,
    snd (onboardingRun events step) = false ->
    onboardingRun (events ++ [ev]) step
    = (if snd (navigate ev (fst (onboardingRun events step)))
       then navigate ev (fst (onboardingRun events step))
       else (fst (navigate ev (fst (onboardingRun events step))), false)).
Proof.
  induction events as [|e rest IH]; intros step Hrun.
  - cbn. destruct (navigate ev step) as [s []]; reflexivity.
  - cbn [app onboardingRun] in *.
    destruct (snd (navigate e step)) eqn:Hfin; [|by apply IH].
    rewrite Hfin in Hrun. discriminate.
Qed.

Lemma onboardingRun_finish (events : list NavEvent) :
  forall step : nat,
    (step < length App.steps)%nat -> Forall dotInRange events ->
    snd (onboardingRun events step) = true ->
    S (fst (onboardingRun events step)) = length App.steps.
Proof.
  induction events as [|ev rest IH]; intros step Hs Hev Hfin; [discriminate|].
  apply Forall_cons in Hev as [Hd Hrest].
  cbn [onboardingRun] in *.
  destruct (snd (navigate ev step)) eqn:Hn.
  - destruct ev as [| |i]; cbn in Hn |- *; try discriminate.
    destruct (handleNext_cases step Hs) as [Hlast Hmid].
    destruct (decide (S step = length App.steps)) as [Heq|Hne].
    + rewrite (Hlast Heq). exact Heq.
    + rewrite (Hmid Hne) in Hn. discriminate.
  - apply IH; [|exact Hrest|exact Hfin].
    apply (navigate_in_range ev step Hs Hd).
Qed.

(** X1.  However the user moves through the onboarding screens (the
    button, the arrow, Enter and space keys and drags, which call
    [handleNext] or [handlePrev], and the dots, which set the step of
    their own index), the step stays an index of [steps], so
    [steps[step]] is always defined.  The visit ends only on the last
    step: [handleNext] there calls [onFinish] and leaves the step as it
    is, anywhere else it moves one step on, and [handlePrev] and the
    dots never call [onFinish]. *)
Theorem onboarding_step_in_range (events : list NavEvent) (step : nat) :
  (step < length App.steps)%nat ->
  Forall dotInRange events ->
  (fst (onboardingRun events step) < length App.steps)%nat
  /\ is_Some (App.steps !! fst (onboardingRun events step))
  /\ (snd (onboardingRun events step) = true ->
      S (fst (onboardingRun events step)) = length App.steps)
  /\ (snd (onboardingRun events step) = false ->
      let s := fst (onboardingRun events step) in
      (S s = length App.steps ->
       onboardingRun (events ++ [NavNext]) step = (s, true))
      /\ (S s <> length App.steps ->
          onboardingRun (events ++ [NavNext]) step = (S s, false))
      /\ snd (onboardingRun (events ++ [NavPrev]) step) = false
      /\ (forall i, snd (onboardingRun (events ++ [NavDot i]) step) = false)).
Proof.
  intros Hs Hev.
  assert (fst (onboardingRun events step) < length App.steps)%nat as Hr.
  { revert step Hs. induction Hev as [|ev rest Hd _ IH]; intros step Hs; [exact Hs|].
    cbn [onboardingRun]. pose proof (navigate_in_range ev step Hs Hd) as Hn.
    destruct (snd (navigate ev step)); [exact Hn | apply IH, Hn]. }
  split; [exact Hr|]. split; [by apply lookup_lt_is_Some|].
  split; [by apply onboardingRun_finish|].
  intros Hrun. cbv zeta.
  destruct (handleNext_cases _ Hr) as [Hlast Hmid].
  split; [|split; [|split]].
  - intros Heq. rewrite (onboardingRun_app events NavNext step Hrun).
    cbn [navigate]. rewrite (Hlast Heq). reflexivity.
  - intros Hne. rewrite (onboardingRun_app events NavNext step Hrun).
    cbn [navigate]. rewrite (Hmid Hne). reflexivity.
  - rewrite (onboardingRun_app events NavPrev step Hrun). reflexivity.
  - intros i. rewrite (onboardingRun_app events (NavDot i) step Hrun). reflexivity.
Qed.

Lemma onboarding_step_in_range_witness :
  (0 < length App.steps)%nat
  /\ Forall dotInRange [NavNext; NavNext; NavPrev; NavDot 2; NavNext; NavPrev]
  /\ is_Some (App.steps !!
               fst (onboardingRun
                      [NavNext; NavNext; NavPrev; NavDot 2; NavNext; NavPrev] 0))
  /\ onboardingRun [NavNext; NavNext; NavPrev; NavDot 2; NavNext; NavPrev] 0
     = (2%nat, true).
Proof.
  assert (0 < length App.steps)%nat as H0 by (cbn; lia).
  assert (Forall dotInRange [NavNext; NavNext; NavPrev; NavDot 2; NavNext; NavPrev])
    as Hev by (repeat constructor; cbn; lia).
  split; [exact H0|]. split; [exact Hev|].
  split; [|reflexivity].
  exact (proj1 (proj2 (onboarding_step_in_range _ 0%nat H0 Hev))).
Defined.

End MoreViewFacts.

(** ** Filters and the manual-add selection *)

Section FilterFacts.
Import Expiry Inventory Views.
Context (tz now : Z).

Lemma statusLabel_cases (item : FoodItem) :
  statusLabel tz now item = "Urgent" \/ statusLabel tz now item = "Soon"
  \/ statusLabel tz now item = "Fresh".
Proof.
  unfold statusLabel.
  destruct (Expiry.category (getExpiryStatus tz (expiry_date item) now)); cbn; auto.
Qed.

(** X4.  The filter 'All' keeps every item, each item is listed under
    exactly one of 'Urgent', 'Soon' and 'Fresh' (the three lists together
    have as many entries as the inventory), and the list of a category holds
    the items that [getExpiryStatus] puts in that category. *)
Theorem filters_partition (items : list FoodItem) :
  filteredItems tz now "All" items = items
  /\ (length (filteredItems tz now "Urgent" items)
      + length (filteredItems tz now "Soon" items)
      + length (filteredItems tz now "Fresh" items) = length items)%nat
  /\ (forall (c : Category) (item : FoodItem),
        item ∈ filteredItems tz now (categoryLabel c) items
        <-> item ∈ items
            /\ Expiry.category (getExpiryStatus tz (expiry_date item) now) = c).
Proof.
  split; [|split].
  - unfold filteredItems. induction items as [|i l IH]; [reflexivity|].
    rewrite filter_cons_True by (left; reflexivity). by rewrite IH.
  - unfold filteredItems. induction items as [|i l IH]; [reflexivity|].
    rewrite !filter_cons.
    destruct (statusLabel_cases i) as [E|[E|E]];
      repeat case_decide; cbn [length];
      repeat match goal with
             | H : _ \/ _ |- _ => destruct H
             | H : ~ (_ \/ _) |- _ => apply Decidable.not_or in H; destruct H
             end;
      try congruence; try lia.
  - intros c item. unfold filteredItems. rewrite list_elem_of_filter.
    unfold statusLabel. split.
    + intros [[Hall|Hlab] Hin].
      * destruct c; discriminate.
      * split; [exact Hin|].
        destruct c, (Expiry.category (getExpiryStatus tz (expiry_date item) now));
          cbn in Hlab; congruence.
    + intros [Hin <-]. split; [right; reflexivity | exact Hin].
Qed.

(** X5.  [expiringCount] counts the items whose category is 'Hoy', a string
    [getExpiryStatus] never returns: the count is 0 for every inventory, at
    every time, in every zone. *)
Theorem expiringCount_zero (items : list FoodItem) :
  expiringCount tz now items = 0%nat.
Proof.
  unfold expiringCount. induction items as [|i l IH]; [reflexivity|].
  rewrite filter_cons_False; [exact IH|].
  destruct (statusLabel_cases i) as [E|[E|E]]; rewrite E; discriminate.
Qed.

Lemma short_nodup_all_equal {A} (l : list A) (x y : A) :
  (length l < 2)%nat -> x ∈ l -> y ∈ l -> x = y.
Proof.
  destruct l as [|a [|b l]]; cbn; intros Hlen Hx Hy; try lia.
  - by apply elem_of_nil in Hx.
  - apply list_elem_of_singleton in Hx, Hy. congruence.
Qed.

Lemma filter_all {A} (P : A -> Prop) `{!forall x, Decision (P x)} (l : list A) :
  Forall P l -> base.filter P l = l.
Proof.
  induction 1 as [|x l Hx _ IH]; [reflexivity|].
  rewrite filter_cons_True by exact Hx. by rewrite IH.
Qed.

Lemma filter_none {A} (P : A -> Prop) `{!forall x, Decision (P x)} (l : list A) :
  Forall (fun x => ~ P x) l -> base.filter P l = [].
Proof.
  induction 1 as [|x l Hx _ IH]; [reflexivity|].
  rewrite filter_cons_False by exact Hx. exact IH.
Qed.

(** X6.  When the filter chips are hidden ([showChips] is false) all items
    are in one category, so every filter shows either the whole inventory or
    nothing. *)
Theorem chips_hidden_single_category (items : list FoodItem) :
  showChips tz now items = false ->
  (forall i j, i ∈ items -> j ∈ items ->
               statusLabel tz now i = statusLabel tz now j)
  /\ (forall filter : string,
        filteredItems tz now filter items = items
        \/ filteredItems tz now filter items = []).
Proof.
  unfold showChips. intros Hchips. apply Nat.leb_gt in Hchips.
  assert (forall i j, i ∈ items -> j ∈ items ->
                      statusLabel tz now i = statusLabel tz now j) as Hsame.
  { intros i j Hi Hj.
    apply (short_nodup_all_equal _ _ _ Hchips); apply elem_of_remove_dups;
      apply list_elem_of_fmap; eauto. }
  split; [exact Hsame|].
  intros filter. unfold filteredItems.
  destruct items as [|i0 l] eqn:Hitems; [by left|]. rewrite <- Hitems in *.
  assert (i0 ∈ items) as Hi0 by (rewrite Hitems; left).
  destruct (decide (filter = "All" \/ statusLabel tz now i0 = filter)) as [Hyes|Hno].
  - left. apply filter_all, Forall_forall. intros j Hj.
    destruct Hyes as [Hall|Hlab]; [by left|].
    right. rewrite <- Hlab. by apply Hsame.
  - right. apply filter_none, Forall_forall. intros j Hj Hyes. apply Hno.
    destruct Hyes as [Hall|Hlab]; [by left|].
    right. rewrite <- Hlab. by apply Hsame.
Qed.

End FilterFacts.

Section FilterWitnesses.
Import Expiry Inventory Views.

Lemma chips_hidden_single_category_witness :
  let now := utc 2024 1 10 43200000 in
  let milk := handleManualAdd_item now None {| food_name := "Milk"; shelfLife := 7 |} in
  let eggs := handleManualAdd_item now None {| food_name := "Eggs"; shelfLife := 30 |} in
  showChips 0 now [milk; eggs] = false
  /\ statusLabel 0 now milk = statusLabel 0 now eggs.
Proof.
  cbv zeta.
  assert (showChips 0 (utc 2024 1 10 43200000)
            [handleManualAdd_item (utc 2024 1 10 43200000) None
               {| food_name := "Milk"; shelfLife := 7 |};
             handleManualAdd_item (utc 2024 1 10 43200000) None
               {| food_name := "Eggs"; shelfLife := 30 |}] = false) as H
    by (vm_compute; reflexivity).
  split; [exact H|].
  apply (proj1 (chips_hidden_single_category 0 (utc 2024 1 10 43200000) _ H)).
  - left.
  - right. left.
Defined.

End FilterWitnesses.

Section SelectionFacts.
Import Inventory Views.

Lemma isSelected_elem (food : Food) (sel : list Food) :
  isSelected food sel = true <-> food_name food ∈ map food_name sel.
Proof.
  unfold isSelected. rewrite existsb_exists, list_elem_of_fmap.
  split.
  - intros (i & Hin & Hi). apply bool_decide_eq_true in Hi.
    exists i. split; [done | by apply list_elem_of_In].
  - intros (i & Hi & Hin). exists i.
    split; [by apply list_elem_of_In | by apply bool_decide_eq_true].
Qed.

Lemma find_selected (food : Food) (sel : list Food) :
  is_Some (List.find (fun i => bool_decide (food_name i = food_name food)) sel)
  <-> food_name food ∈ map food_name sel.
Proof.
  induction sel as [|i l IH]; cbn.
  - split; [intros [? ?]; discriminate | intros H; by apply elem_of_nil in H].
  - case_bool_decide as Hi.
    + split; [intros _; rewrite Hi; left | eauto].
    + rewrite IH. rewrite elem_of_cons. split; [auto|].
      intros [E|H]; [congruence | exact H].
Qed.

Lemma names_filter_out (n : string) (sel : list Food) :
  map food_name (base.filter (fun i => food_name i <> n) sel)
  = base.filter (fun m => m <> n) (map food_name sel).
Proof.
  induction sel as [|i l IH]; [reflexivity|].
  cbn [map]. rewrite !filter_cons. case_decide; cbn [map]; by rewrite IH.
Qed.


(** X7.  [toggleItemSelection] flips whether the clicked food is selected,
    leaves the selection state of every food with another name as it was,
    and keeps the names of a selection distinct. *)
Theorem toggle_flips_selection (food : Food) (prev : list Food) :
  isSelected food (toggleItemSelection food prev) = negb (isSelected food prev)
  /\ (forall other : Food,
        food_name other <> food_name food ->
        isSelected other (toggleItemSelection food prev) = isSelected other prev)
  /\ (NoDup (map food_name prev) ->
      NoDup (map food_name (toggleItemSelection food prev))).
Proof.
  assert (forall f l, isSelected f l = bool_decide (food_name f ∈ map food_name l))
    as Hsel.
  { intros f l. apply eq_true_iff_eq.
    rewrite isSelected_elem, bool_decide_eq_true. reflexivity. }
  rewrite !Hsel. unfold toggleItemSelection.
  destruct (List.find _ prev) as [i|] eqn:Hfind.
  - assert (food_name food ∈ map food_name prev) as Hin
      by (apply find_selected; rewrite Hfind; eauto).
    rewrite names_filter_out. split; [|split].
    + rewrite (bool_decide_eq_true_2 _ Hin). apply bool_decide_eq_false_2.
      rewrite list_elem_of_filter. tauto.
    + intros other Hne. rewrite !Hsel, names_filter_out. apply bool_decide_ext.
      rewrite list_elem_of_filter. tauto.
    + apply NoDup_filter.
  - assert (food_name food ∉ map food_name prev) as Hnin.
    { intros Hin. apply find_selected in Hin. rewrite Hfind in Hin.
      by destruct Hin. }
    rewrite map_app. cbn [map].
    split; [|split].
    + rewrite (bool_decide_eq_false_2 _ Hnin). apply bool_decide_eq_true_2.
      rewrite elem_of_app, list_elem_of_singleton. by right.
    + intros other Hne. rewrite !Hsel. apply bool_decide_ext.
      rewrite map_app. cbn [map].
      rewrite elem_of_app, list_elem_of_singleton. tauto.
    + intros Hnd. apply NoDup_app. split; [exact Hnd|]. split.
      * intros x Hx Hx'. apply list_elem_of_singleton in Hx'. congruence.
      * apply NoDup_singleton.
Qed.

(** X8.  Clicking a food that is not selected twice gives back the
    selection as it was, order included. *)
Theorem toggle_twice_restores (food : Food) (prev : list Food) :
  isSelected food prev = false ->
  toggleItemSelection food (toggleItemSelection food prev) = prev.
Proof.
  intros Hsel.
  assert (food_name food ∉ map food_name prev) as Hnin.
  { intros Hin. apply isSelected_elem in Hin. congruence. }
  unfold toggleItemSelection at 2.
  destruct (List.find _ prev) as [i|] eqn:Hfind.
  { exfalso. apply Hnin, find_selected. rewrite Hfind. eauto. }
  unfold toggleItemSelection.
  destruct (List.find _ (prev ++ [food])) as [i|] eqn:Hfind'.
  - rewrite filter_app. rewrite filter_all.
    + rewrite filter_cons_False by (intros H; by apply H). cbn.
      by rewrite app_nil_r.
    + apply Forall_forall. intros x Hx Hn. apply Hnin.
      apply list_elem_of_fmap. eauto.
  - exfalso.
    assert (food_name food ∈ map food_name (prev ++ [food])) as Hin.
    { rewrite map_app. apply elem_of_app. right. cbn. left. }
    apply find_selected in Hin. rewrite Hfind' in Hin. by destruct Hin.
Qed.

Lemma toggle_twice_restores_witness :
  let milk := {| food_name := "Milk"; shelfLife := 7 |} in
  let eggs := {| food_name := "Eggs"; shelfLife := 30 |} in
  isSelected milk [eggs] = false
  /\ toggleItemSelection milk (toggleItemSelection milk [eggs]) = [eggs].
Proof.
  cbv zeta.
  assert (isSelected {| food_name := "Milk"; shelfLife := 7 |}
            [{| food_name := "Eggs"; shelfLife := 30 |}] = false) as H
    by reflexivity.
  split; [exact H|].
  exact (toggle_twice_restores _ _ H).
Defined.




End SelectionFacts.

(** ** The recipe prompt and the captured photo *)

Section RecipeFacts.
Import Expiry Inventory Recipes.

Lemma hasComma_split (s : string) :
  hasComma s = false -> splitComma s = [s].
Proof.
  induction s as [|c s IH]; [reflexivity|]. cbn.
  case_bool_decide; cbn [orb]; [discriminate|].
  intros Hs. by rewrite (IH Hs).
Qed.

Lemma split_at_comma (p rest : string) :
  hasComma p = false ->
  splitComma (p +:+ String ","%char rest) = p :: splitComma rest.
Proof.
  induction p as [|c p IH]; [reflexivity|].
  intros H. cbn [hasComma] in H. apply orb_false_iff in H as [Hc Hp].
  change (splitComma (String c (p +:+ String ","%char rest))
          = String c p :: splitComma rest).
  cbn [splitComma]. rewrite Hc, (IH Hp). reflexivity.
Qed.

Lemma splitComma_nonempty (s : string) : splitComma s <> [].
Proof.
  induction s as [|c s IH]; cbn; [discriminate|].
  case_bool_decide; [discriminate|]. destruct (splitComma s); discriminate.
Qed.

(** X12.  [base64Image.split(',')[1] || base64Image] of [analyzeFoodImage]: a
    data URL with one comma is sent as its payload, a string without a comma
    is sent whole, a string that ends in its only comma is sent whole (the
    empty second piece is falsy), and what is sent is empty only for the
    empty string. *)
Theorem inlineImageData_strips_prefix :
  (forall prefix payload : string,
      hasComma prefix = false -> hasComma payload = false -> payload <> "" ->
      inlineImageData (prefix +:+ "," +:+ payload) = payload)
  /\ (forall s : string, hasComma s = false -> inlineImageData s = s)
  /\ (forall prefix : string,
        hasComma prefix = false ->
        inlineImageData (prefix +:+ ",") = prefix +:+ ",")
  /\ (forall s : string, inlineImageData s = "" <-> s = "").
Proof.
  split; [|split; [|split]].
  - intros prefix payload Hp Hd Hne. unfold inlineImageData.
    change ("," +:+ payload) with (String ","%char payload).
    rewrite split_at_comma by exact Hp. rewrite hasComma_split by exact Hd.
    cbn. by rewrite bool_decide_eq_false_2.
  - intros s Hs. unfold inlineImageData. by rewrite hasComma_split.
  - intros prefix Hp. unfold inlineImageData.
    change (splitComma (prefix +:+ ","))
      with (splitComma (prefix +:+ String ","%char "")).
    rewrite split_at_comma by exact Hp. reflexivity.
  - intros s. unfold inlineImageData. split; [|intros ->; reflexivity].
    destruct (splitComma s !! 1%nat) as [piece|]; [|done].
    case_bool_decide; [done | congruence].
Qed.

Lemma inlineImageData_strips_prefix_witness :
  hasComma "data:image/jpeg;base64" = false
  /\ inlineImageData "data:image/jpeg;base64,/9j/4AAQ" = "/9j/4AAQ".
Proof.
  split; [reflexivity|].
  apply (proj1 inlineImageData_strips_prefix "data:image/jpeg;base64" "/9j/4AAQ").
  - reflexivity.
  - reflexivity.
  - discriminate.
Defined.
End RecipeFacts.

Section RecipeImageFacts.
Import Async Gemini Recipes Trace.
Context (o : oracle).

(** X13.  The image step of [generateRecipe] makes exactly one provider call
    and never waits; the title, ingredients and steps of the recipe are
    returned as parsed whatever the call does; a call that resolves sets
    [imageUrl] (to the empty string when the response has no image) and
    logs nothing; a call that rejects leaves the recipe unchanged and logs
    one error line. *)
Theorem recipe_image_failure_swallowed (recipe : Recipe) (w : world) :
  let r := run o (generateRecipe_image recipe) w in
  let a := answer (provider o (ncalls w)) in
  ncalls (snd r) = S (ncalls w)
  /\ waits (trace (snd r)) = waits (trace w)
  /\ recipe_title (fst r) = recipe_title recipe
  /\ ingredients (fst r) = ingredients recipe
  /\ recipe_steps (fst r) = recipe_steps recipe
  /\ match a with
     | Ok _ => imageUrl (fst r) = Some (resultOf a)
               /\ consoleLines (trace (snd r)) = consoleLines (trace w)
     | Throw _ => fst r = recipe
                  /\ consoleLines (trace (snd r))
                     = consoleLines (trace w) ++ ["Error generating recipe image"]
     end.
Proof.
  cbv zeta. unfold generateRecipe_image, generateRecipeImage.
  rewrite !run_bind. cbn [call run issue complete fst snd].
  destruct (answer (provider o (ncalls w))) as [resp|err] eqn:Ha.
  - cbn [resultOf]. destruct (responseImage resp); cbn;
      rewrite ?waits_app, ?consoleLines_app, ?app_nil_r; repeat split.
  - rewrite ?run_bind. cbn.
    rewrite ?waits_app, ?consoleLines_app, ?app_nil_r. repeat split.
Qed.
End RecipeImageFacts.

(** ** The image script *)

Section ScriptFacts.
Import Async Gemini Script Trace Readings.
Context (o : oracle).

Lemma gaps_cons (gap t1 : Z) (tr : list event) :
  callsNotBefore (t1 + gap) tr ->
  gapsAtLeast gap (callTimes tr) ->
  gapsAtLeast gap (t1 :: callTimes tr).
Proof.
  intros Hcb Hg. destruct (callTimes tr) as [|t2 ts] eqn:Ht; [exact I|].
  cbn [gapsAtLeast]. split; [|exact Hg].
  clear Hg. induction Hcb as [|ev tr Hev _ IH]; [discriminate|].
  destruct ev; cbn in Ht; try (by apply IH).
  inversion Ht; subst. exact Hev.
Qed.

Lemma callTimes_cons_other (ev : event) (tr : list event) :
  Trace.isCall ev = false -> callTimes (ev :: tr) = callTimes tr.
Proof. destruct ev; cbn; intros; done. Qed.

(** The loop of the script from any turn on. *)
Lemma main_loop_spaced (total : nat) (rest : list string) :
  forall (i : nat) (results : list string) (w : world),
    (i + length rest = total)%nat ->
    exists tr,
      trace (snd (run o (main_loop total i rest results) w)) = trace w ++ tr
      /\ callsNotBefore (clock w) tr
      /\ gapsAtLeast 5000 (callTimes tr).
Proof.
  induction rest as [|p rest IH]; intros i results w Hi.
  - cbn. exists []. rewrite app_nil_r. repeat split; constructor.
  - cbn [main_loop]. unfold generate. rewrite !run_bind.
    cbn [call run issue complete fst snd].
    destruct (answer (provider o (ncalls (logged _ w)))) as [resp|err] eqn:Ha.
    + assert (forall img,
        exists tr,
          trace (snd (run o
            ((if Z.of_nat i <? Z.of_nat total - 1 then call (SetTimeout 5000)
              else Ret tt) ;; main_loop total (S i) rest (results ++ [img]))
            (answered (provider o (ncalls (logged
               ("Generating image " +:+ pretty (i + 1)%nat +:+ "...") w)))
               (dispatched (scriptPrompt p)
                  (logged ("Generating image " +:+ pretty (i + 1)%nat +:+ "...") w)))))
          = trace w ++ tr
          /\ callsNotBefore (clock w) tr
          /\ gapsAtLeast 5000 (callTimes tr)) as Hgo.
      { intros img. rewrite run_bind.
        destruct (Z.ltb_spec (Z.of_nat i) (Z.of_nat total - 1)) as [Hlt|Hge].
        - cbn [call run issue complete fst snd].
          set (w1 := waited 5000 _).
          destruct (IH (S i) (results ++ [img]) w1) as (tr & Ht & Hcb & Hg);
            [cbn in Hi; lia|].
          exists ([EvConsole ("Generating image " +:+ pretty (i + 1)%nat +:+ "...");
                   EvCall (scriptPrompt p) (clock w);
                   EvReply (clock w + Z.of_N (latency (provider o (ncalls w))))
                     (hasImage (answer (provider o (ncalls w))));
                   EvTimeout 5000] ++ tr).
          split; [|split].
          + rewrite Ht. subst w1. cbn. rewrite <- !app_assoc. reflexivity.
          + apply Forall_app. split.
            * repeat constructor. lia.
            * eapply callsNotBefore_mono; [|exact Hcb]. subst w1. cbn. lia.
          + cbn [app]. rewrite callTimes_cons_other by reflexivity.
            change (callTimes (EvCall (scriptPrompt p) (clock w) :: ?l))
              with (clock w :: callTimes l).
            cbn [callTimes omap]. apply gaps_cons.
            * constructor; [exact I|]. constructor; [exact I|].
              eapply callsNotBefore_mono; [|exact Hcb]. subst w1. cbn. lia.
            * exact Hg.
        - destruct rest as [|p' rest']; [|cbn in Hi; lia].
          cbn. eexists. split; [rewrite <- !app_assoc; reflexivity|].
          split; [repeat constructor; lia | cbn; exact I]. }
      destruct (responseImage resp); apply Hgo.
    + cbn. eexists. split; [rewrite <- !app_assoc; reflexivity|].
      split; [repeat constructor; lia | cbn; exact I].
Qed.

Lemma generate_run (p : string) (w : world) :
  run o (generate p) w
  = (match answer (provider o (ncalls w)) with
     | Ok resp => Ok (resultOf (Ok resp))
     | Throw e => Throw e
     end,
     answered (provider o (ncalls w)) (dispatched (scriptPrompt p) w)).
Proof.
  unfold generate. rewrite run_bind. cbn [call run issue complete fst snd].
  destruct (answer (provider o (ncalls w))) as [resp|err]; [|reflexivity].
  cbn [resultOf]. destruct (responseImage resp); reflexivity.
Qed.

Lemma main_loop_completes (total : nat) (rest : list string) :
  forall (i : nat) (results : list string) (w : world),
    (i + length rest = total)%nat ->
    (forall j, (j < length rest)%nat ->
               isThrow (answer (provider o (ncalls w + j))) = false) ->
    fst (run o (main_loop total i rest results) w)
    = Ok (results ++ map (fun j => resultOf (answer (provider o (ncalls w + j))))
                         (seq 0 (length rest)))
    /\ ncalls (snd (run o (main_loop total i rest results) w))
       = (ncalls w + length rest)%nat
    /\ waits (trace (snd (run o (main_loop total i rest results) w)))
       = waits (trace w) ++ replicate (length rest - 1) 5000.
Proof.
  induction rest as [|p rest IH]; intros i results w Hi Hok.
  - cbn. rewrite !app_nil_r. repeat split. lia.
  - cbn [main_loop]. rewrite !run_bind.
    cbn [call run issue complete fst snd]. rewrite generate_run.
    cbn [fst snd]. change (ncalls (logged ?m w)) with (ncalls w).
    pose proof (Hok 0%nat ltac:(cbn; lia)) as H0. rewrite Nat.add_0_r in H0.
    destruct (answer (provider o (ncalls w))) as [resp|err] eqn:Ha;
      [|discriminate].
    rewrite run_bind.
    set (w1 := snd (run o (if Z.of_nat i <? Z.of_nat total - 1
                           then call (SetTimeout 5000) else Ret tt) _)).
    assert (ncalls w1 = S (ncalls w)) as Hn1.
    { subst w1. destruct (Z.of_nat i <? Z.of_nat total - 1); reflexivity. }
    destruct (IH (S i) (results ++ [resultOf (Ok resp)]) w1) as (Hres & Hn & Hw).
    { cbn in Hi. lia. }
    { intros j Hj. rewrite Hn1.
      replace (S (ncalls w) + j)%nat with (ncalls w + S j)%nat by lia.
      apply Hok. cbn. lia. }
    rewrite Hres, Hn, Hw, Hn1. split; [|split].
    + f_equal. rewrite <- app_assoc. f_equal. cbn [length seq map app].
      rewrite Nat.add_0_r, Ha. f_equal.
      rewrite <- seq_shift, map_map. apply map_ext. intros j.
      by replace (S (ncalls w) + j)%nat with (ncalls w + S j)%nat by lia.
    + cbn. lia.
    + subst w1. cbn [length] in *.
      destruct (Z.ltb_spec (Z.of_nat i) (Z.of_nat total - 1)) as [Hlt|Hge].
      * cbn. rewrite !waits_app. cbn. rewrite !app_nil_r, <- app_assoc.
        f_equal. destruct rest as [|p' rest']; [cbn in Hi; lia|].
        cbn. by rewrite Nat.sub_0_r.
      * destruct rest as [|p' rest']; [|cbn in Hi; lia].
        cbn. rewrite !waits_app. cbn. by rewrite !app_nil_r.
Qed.

Lemma main_loop_aborts (total : nat) (rest : list string) :
  forall (i : nat) (results : list string) (w : world) (k : nat) (e : jsError),
    (i + length rest = total)%nat ->
    (k < length rest)%nat ->
    (forall j, (j < k)%nat ->
               isThrow (answer (provider o (ncalls w + j))) = false) ->
    answer (provider o (ncalls w + k)) = Throw e ->
    fst (run o (main_loop total i rest results) w) = Throw e
    /\ ncalls (snd (run o (main_loop total i rest results) w))
       = (ncalls w + k + 1)%nat
    /\ waits (trace (snd (run o (main_loop total i rest results) w)))
       = waits (trace w) ++ replicate k 5000.
Proof.
  induction rest as [|p rest IH]; intros i results w k e Hi Hk Hok He;
    [cbn in Hk; lia|].
  cbn [main_loop]. rewrite !run_bind.
  cbn [call run issue complete fst snd]. rewrite generate_run.
  cbn [fst snd]. change (ncalls (logged ?m w)) with (ncalls w).
  destruct k as [|k].
  - rewrite Nat.add_0_r in He. rewrite He. cbn.
    rewrite !waits_app. cbn. rewrite !app_nil_r. repeat split. lia.
  - pose proof (Hok 0%nat ltac:(lia)) as H0. rewrite Nat.add_0_r in H0.
    destruct (answer (provider o (ncalls w))) as [resp|err] eqn:Ha;
      [|discriminate].
    rewrite run_bind.
    assert ((Z.of_nat i <? Z.of_nat total - 1) = true) as ->.
    { apply Z.ltb_lt. cbn in Hi, Hk. lia. }
    cbn [call run issue complete fst snd].
    set (w1 := waited 5000 _).
    assert (ncalls w1 = S (ncalls w)) as Hn1 by reflexivity.
    destruct (IH (S i) (results ++ [resultOf (Ok resp)]) w1 k e)
      as (Hres & Hn & Hw).
    { cbn in Hi. lia. }
    { cbn in Hk. lia. }
    { intros j Hj. rewrite Hn1.
      replace (S (ncalls w) + j)%nat with (ncalls w + S j)%nat by lia.
      apply Hok. lia. }
    { rewrite Hn1.
      by replace (S (ncalls w) + k)%nat with (ncalls w + S k)%nat by lia. }
    rewrite Hres, Hn, Hw, Hn1. split; [reflexivity|]. split; [lia|].
    subst w1. cbn. rewrite !waits_app. cbn.
    rewrite !app_nil_r, <- app_assoc. reflexivity.
Qed.

(** X14.  Whatever the provider answers, consecutive provider calls of the
    image script are at least 5000 ms apart, and none is made before the
    script started. *)
Theorem script_calls_spaced (ps : list string) (w : world) :
  exists tr,
    trace (snd (run o (main_on ps) w)) = trace w ++ tr
    /\ gapsAtLeast 5000 (callTimes tr)
    /\ callsNotBefore (clock w) tr.
Proof.
  destruct (main_loop_spaced (length ps) ps 0%nat [] w eq_refl)
    as (tr & Ht & Hcb & Hg).
  exists tr. by repeat split.
Qed.

(** X15.  When none of its calls rejects, the image script makes one call per
    prompt, waits 5000 ms between calls and not after the last, and
    resolves to one result per prompt, in prompt order (the empty string
    for a response without an image). *)
Theorem script_completes (ps : list string) (w : world) :
  (forall j, (j < length ps)%nat ->
             isThrow (answer (provider o (ncalls w + j))) = false) ->
  fst (run o (main_on ps) w)
  = Ok (map (fun j => resultOf (answer (provider o (ncalls w + j))))
            (seq 0 (length ps)))
  /\ ncalls (snd (run o (main_on ps) w)) = (ncalls w + length ps)%nat
  /\ waits (trace (snd (run o (main_on ps) w)))
     = waits (trace w) ++ replicate (length ps - 1) 5000.
Proof.
  intros Hok. apply (main_loop_completes (length ps) ps 0%nat [] w eq_refl Hok).
Qed.

(** X16.  The image script has no retry: when the call for prompt [k] is the
    first to reject, the script rejects with that error after [k + 1]
    calls and [k] waits, and the remaining prompts are never sent. *)
Theorem script_aborts_on_error (ps : list string) (w : world) (k : nat)
    (e : jsError) :
  (k < length ps)%nat ->
  (forall j, (j < k)%nat ->
             isThrow (answer (provider o (ncalls w + j))) = false) ->
  answer (provider o (ncalls w + k)) = Throw e ->
  fst (run o (main_on ps) w) = Throw e
  /\ ncalls (snd (run o (main_on ps) w)) = (ncalls w + k + 1)%nat
  /\ waits (trace (snd (run o (main_on ps) w)))
     = waits (trace w) ++ replicate k 5000.
Proof.
  intros Hk Hok He.
  apply (main_loop_aborts (length ps) ps 0%nat [] w k e eq_refl Hk Hok He).
Qed.

End ScriptFacts.

Section ScriptWitnesses.
Import Async Gemini Script Trace Readings Samples.

Lemma script_completes_witness :
  (forall j, (j < length prompts)%nat ->
             isThrow (answer (provider alwaysImage (ncalls world0 + j))) = false)
  /\ ncalls (snd (run alwaysImage main world0)) = 3%nat
  /\ waits (trace (snd (run alwaysImage main world0))) = [5000; 5000].
Proof.
  assert (forall j, (j < length prompts)%nat ->
            isThrow (answer (provider alwaysImage (ncalls world0 + j))) = false)
    as Hok by (intros j _; reflexivity).
  split; [exact Hok|].
  destruct (script_completes alwaysImage prompts world0 Hok) as (_ & Hn & Hw).
  split; [exact Hn | exact Hw].
Defined.

Lemma script_aborts_on_error_witness :
  (1 < length prompts)%nat
  /\ answer (provider secondFails (ncalls world0 + 1)) = Throw error500
  /\ fst (run secondFails main world0) = Throw error500
  /\ ncalls (snd (run secondFails main world0)) = 2%nat.
Proof.
  assert (1 < length prompts)%nat as Hk by (cbn; lia).
  assert (forall j, (j < 1)%nat ->
            isThrow (answer (provider secondFails (ncalls world0 + j))) = false)
    as Hok.
  { intros j Hj. destruct j as [|j]; [reflexivity | lia]. }
  split; [exact Hk|]. split; [reflexivity|].
  destruct (script_aborts_on_error secondFails prompts world0 1 error500
              Hk Hok eq_refl) as (Hres & Hn & _).
  split; [exact Hres | exact Hn].
Defined.
End ScriptWitnesses.

(** ** The stored icon record *)

Section IconRecordFacts.
Import Async Gemini App Trace Readings.
Context (o : oracle).

Lemma fetchIcons_body_shown (cat : IconCategory) (icons : gmap string string)
    (w : world) :
  let r := run o (fetchIcons_body cat icons) w in
  idb_icons (snd r) = idb_icons w
  /\ idb (snd r) = idb w
  /\ (ncalls w <= ncalls (snd r))%nat
  /\ (categoryIcons (ui w) = icons -> categoryIcons (ui (snd r)) = fst r).
Proof.
  unfold fetchIcons_body. rewrite run_bind.
  pose proof (icon_generated o (icon_name cat) (icon_cat cat) (retryFuel 0) 0 w)
    as (Hui & Hidb & Hic & Hn & _).
  fold (generateIndividualIcon (icon_name cat) (icon_cat cat)) in *.
  destruct (run o (generateIndividualIcon (icon_name cat) (icon_cat cat)) w)
    as [url w1].
  cbn [fst snd] in *.
  destruct (present (Some url)).
  - cbn. rewrite Hui, Hidb, Hic. repeat split; [lia|].
    intros ->. reflexivity.
  - cbn. rewrite Hui, Hidb, Hic. repeat split; [lia|]. auto.
Qed.

Lemma fetchIcons_loop_shown (cats : list IconCategory) :
  forall (icons : gmap string string) (w : world),
    let r := run o (fetchIcons_loop cats icons) w in
    idb_icons (snd r) = idb_icons w
    /\ idb (snd r) = idb w
    /\ (ncalls w <= ncalls (snd r))%nat
    /\ (categoryIcons (ui w) = icons -> categoryIcons (ui (snd r)) = fst r).
Proof.
  induction cats as [|cat rest IH]; intros icons w.
  - cbn. repeat split; auto.
  - cbn [fetchIcons_loop]. rewrite run_bind.
    destruct (fetchIcons_body_shown cat icons w) as (H1 & H2 & H3 & H4).
    destruct (IH (fst (run o (fetchIcons_body cat icons) w))
                 (snd (run o (fetchIcons_body cat icons) w)))
      as (I1 & I2 & I3 & I4).
    cbv zeta. rewrite I1, I2. repeat split; auto; try lia.
Qed.

Lemma icon_without_image (name category : string) :
  (forall n, hasImage (answer (provider o n)) = false) ->
  forall (fuel : nat) (rc : Z) (w : world),
    fst (run o (generateIndividualIcon_from fuel name category rc) w) = "".
Proof.
  intros Hno. induction fuel as [|fuel IH]; intros rc w; [reflexivity|].
  cbn [generateIndividualIcon_from]. rewrite run_bind.
  cbn [call run issue complete fst snd].
  pose proof (Hno (ncalls w)) as Hn. unfold hasImage in Hn.
  destruct (answer (provider o (ncalls w))) as [resp|err].
  - destruct (responseImage resp) as [d|]; [|reflexivity].
    apply bool_decide_eq_false in Hn. exfalso. apply Hn. by eexists.
  - destruct (is429 (error_code err) && (rc <? 3)).
    + rewrite !run_bind. apply IH.
    + reflexivity.
Qed.

Lemma fetchIcons_loop_without_image (cats : list IconCategory) :
  (forall n, hasImage (answer (provider o n)) = false) ->
  forall (icons : gmap string string) (w : world),
    fst (run o (fetchIcons_loop cats icons) w) = icons.
Proof.
  intros Hno. induction cats as [|cat rest IH]; intros icons w; [reflexivity|].
  cbn [fetchIcons_loop]. rewrite run_bind. rewrite IH.
  unfold fetchIcons_body. rewrite run_bind.
  unfold generateIndividualIcon.
  rewrite (icon_without_image (icon_name cat) (icon_cat cat) Hno).
  reflexivity.
Qed.

Lemma fetchIcons_first_run (w : world) :
  idb_icons w = None \/ get_rejects o "categoryIcons" = true ->
  set_rejects o "categoryIcons" = false ->
  let r := run o (fetchIcons_loop categories ∅)
             (if get_rejects o "categoryIcons"
              then logged "Error reading from IndexedDB" w else w) in
  idb_icons (snd (run o fetchIcons w)) = Some (fst r)
  /\ ui (snd (run o fetchIcons w)) = ui (snd r)
  /\ idb (snd (run o fetchIcons w)) = idb (snd r).
Proof.
  intros Hmiss Hset. unfold fetchIcons. rewrite run_bind.
  cbn [call run issue complete fst snd].
  destruct (get_rejects o "categoryIcons") eqn:Hget.
  - cbn [fst snd]. rewrite run_bind. cbn [call run issue complete fst snd].
    unfold fetchIcons_generate. rewrite run_bind.
    destruct (run o (fetchIcons_loop categories ∅) _) as [icons w1].
    rewrite run_bind. cbn [call run issue complete fst snd]. rewrite Hset.
    cbn. auto.
  - destruct Hmiss as [Hnone|?]; [|discriminate].
    cbn [fst snd]. rewrite Hnone.
    unfold fetchIcons_generate. rewrite run_bind.
    destruct (run o (fetchIcons_loop categories ∅) _) as [icons w1].
    rewrite run_bind. cbn [call run issue complete fst snd]. rewrite Hset.
    cbn. auto.
Qed.

Lemma fetchIcons_from_record (o' : oracle) (w : world) (saved : gmap string string) :
  get_rejects o' "categoryIcons" = false ->
  idb_icons w = Some saved ->
  ncalls (snd (run o' fetchIcons w)) = ncalls w
  /\ trace (snd (run o' fetchIcons w)) = trace w
  /\ categoryIcons (ui (snd (run o' fetchIcons w))) = saved.
Proof.
  intros Hget Hsaved. unfold fetchIcons. rewrite run_bind.
  cbn [call run issue complete fst snd]. rewrite Hget. cbn [fst snd].
  rewrite Hsaved. cbn. auto.
Qed.

(** X18.  When [fetchIcons] finds no stored record and its write succeeds,
    the record it stores is exactly the icons it put on screen, and a later
    session over the same store shows the same icons without a provider
    call or any other event. *)
Theorem icons_persist_as_shown (o' : oracle) (w : world) :
  categoryIcons (ui w) = ∅ ->
  idb_icons w = None \/ get_rejects o "categoryIcons" = true ->
  set_rejects o "categoryIcons" = false ->
  get_rejects o' "categoryIcons" = false ->
  let w' := snd (run o fetchIcons w) in
  let w'' := snd (run o' fetchIcons (reopened w')) in
  idb_icons w' = Some (categoryIcons (ui w'))
  /\ categoryIcons (ui w'') = categoryIcons (ui w')
  /\ ncalls w'' = ncalls w'
  /\ trace w'' = trace w'.
Proof.
  intros Hempty Hmiss Hset Hget'. cbv zeta.
  destruct (fetchIcons_first_run w Hmiss Hset) as (Hrec & Hui & _).
  set (w0 := if get_rejects o "categoryIcons"
             then logged "Error reading from IndexedDB" w else w) in *.
  assert (categoryIcons (ui w0) = ∅) as Hempty0.
  { subst w0. destruct (get_rejects o "categoryIcons"); exact Hempty. }
  destruct (fetchIcons_loop_shown categories ∅ w0) as (_ & _ & _ & Hshown).
  specialize (Hshown Hempty0).
  assert (idb_icons (snd (run o fetchIcons w))
          = Some (categoryIcons (ui (snd (run o fetchIcons w))))) as Hstored.
  { rewrite Hrec, Hui, Hshown. reflexivity. }
  split; [exact Hstored|].
  destruct (fetchIcons_from_record o' (reopened (snd (run o fetchIcons w)))
              (categoryIcons (ui (snd (run o fetchIcons w)))) Hget' Hstored)
    as (Hn & Ht & Hc).
  split; [exact Hc|]. split; [exact Hn | exact Ht].
Qed.

(** X19.  When no answer of the provider carries an image during the first
    [fetchIcons], the empty record is stored; since a stored record is
    truthy, a later session shows no category icons and makes no provider
    call, also when the provider works again. *)
Theorem icon_outage_is_permanent (o' : oracle) (w : world) :
  (forall n, hasImage (answer (provider o n)) = false) ->
  idb_icons w = None \/ get_rejects o "categoryIcons" = true ->
  set_rejects o "categoryIcons" = false ->
  get_rejects o' "categoryIcons" = false ->
  let w' := snd (run o fetchIcons w) in
  let w'' := snd (run o' fetchIcons (reopened w')) in
  idb_icons w' = Some ∅
  /\ categoryIcons (ui w'') = ∅
  /\ ncalls w'' = ncalls w'.
Proof.
  intros Hno Hmiss Hset Hget'. cbv zeta.
  destruct (fetchIcons_first_run w Hmiss Hset) as (Hrec & _ & _).
  rewrite (fetchIcons_loop_without_image categories Hno) in Hrec.
  split; [exact Hrec|].
  destruct (fetchIcons_from_record o' (reopened (snd (run o fetchIcons w))) ∅
              Hget' Hrec) as (Hn & _ & Hc).
  split; [exact Hc | exact Hn].
Qed.

End IconRecordFacts.

Section IconRecordWitnesses.
Import Async Gemini App Trace Readings Samples.

Lemma icons_persist_as_shown_witness :
  categoryIcons (ui world0) = ∅
  /\ idb_icons (snd (run alwaysImage fetchIcons world0))
     = Some (categoryIcons (ui (snd (run alwaysImage fetchIcons world0))))
  /\ ncalls (snd (run firstFails fetchIcons
                    (reopened (snd (run alwaysImage fetchIcons world0)))))
     = ncalls (snd (run alwaysImage fetchIcons world0)).
Proof.
  assert (categoryIcons (ui world0) = ∅) as H1 by reflexivity.
  assert (idb_icons world0 = None \/ get_rejects alwaysImage "categoryIcons" = true)
    as H2 by (left; reflexivity).
  assert (set_rejects alwaysImage "categoryIcons" = false) as H3 by reflexivity.
  assert (get_rejects firstFails "categoryIcons" = false) as H4 by reflexivity.
  split; [exact H1|].
  destruct (icons_persist_as_shown alwaysImage firstFails world0 H1 H2 H3 H4)
    as (Hs & _ & Hn & _).
  split; [exact Hs | exact Hn].
Defined.

Lemma icon_outage_is_permanent_witness :
  (forall n, hasImage (answer (provider alwaysServerError n)) = false)
  /\ idb_icons (snd (run alwaysServerError fetchIcons world0)) = Some ∅
  /\ categoryIcons
       (ui (snd (run alwaysImage fetchIcons
                   (reopened (snd (run alwaysServerError fetchIcons world0))))))
     = ∅.
Proof.
  assert (forall n, hasImage (answer (provider alwaysServerError n)) = false)
    as H1 by (intros n; reflexivity).
  assert (idb_icons world0 = None
          \/ get_rejects alwaysServerError "categoryIcons" = true)
    as H2 by (left; reflexivity).
  assert (set_rejects alwaysServerError "categoryIcons" = false) as H3
    by reflexivity.
  assert (get_rejects alwaysImage "categoryIcons" = false) as H4 by reflexivity.
  split; [exact H1|].
  destruct (icon_outage_is_permanent alwaysServerError alwaysImage world0
              H1 H2 H3 H4) as (Hs & Hc & _).
  split; [exact Hs | exact Hc].
Defined.

End IconRecordWitnesses.

(** ** Loading flags and failed images *)

Section LoadingFlagFacts.
Import Async Gemini App Trace Readings.
Context (o : oracle).

Lemma fetchImage_generate_flag (step : nat) (loading : gmap nat bool) (w : world) :
  loadingImages (ui (snd (run o (fetchImage_generate step loading) w)))
  = if flagged (loading !! step) then loadingImages (ui w)
    else <[step := false]> (<[step := true]> (loadingImages (ui w))).
Proof.
  unfold fetchImage_generate. destruct (flagged (loading !! step)); [reflexivity|].
  rewrite run_bind. cbn [setLoadingImages call run issue complete fst snd].
  rewrite run_bind.
  destruct (steps !! step) as [s|].
  - rewrite run_bind.
    set (w1 := with_ui _ w).
    pose proof (onboarding_generated o (prompt s) (retryFuel 0) 0 w1)
      as (Hui & _).
    fold (generateOnboardingImage (prompt s)) in *.
    destruct (run o (generateOnboardingImage (prompt s)) w1) as [url w2].
    cbn [fst snd] in *.
    destruct (present (Some url)).
    + rewrite run_bind. cbn [setImages call run issue complete fst snd].
      rewrite run_bind. cbn [call run issue complete fst snd].
      destruct (set_rejects o (onboardingKey step)); cbn; rewrite Hui;
        reflexivity.
    + cbn. rewrite Hui. reflexivity.
  - cbn. reflexivity.
Qed.

Lemma fetchImage_flag (step : nat) (imgs : gmap nat string)
    (loading : gmap nat bool) (w : world) :
  let l' := loadingImages (ui (snd (run o (fetchImage step imgs loading) w))) in
  l' = loadingImages (ui w)
  \/ l' = <[step := false]> (<[step := true]> (loadingImages (ui w))).
Proof.
  cbv zeta. unfold fetchImage. destruct (present (imgs !! step)); [by left|].
  rewrite run_bind. cbn [call run issue complete fst snd].
  destruct (get_rejects o (onboardingKey step)).
  - cbn [fst snd]. rewrite run_bind. cbn [call run issue complete fst snd].
    rewrite fetchImage_generate_flag.
    destruct (flagged (loading !! step)); [by left | by right].
  - cbn [fst snd]. destruct (present (idb w !! onboardingKey step)).
    + by left.
    + rewrite fetchImage_generate_flag.
      destruct (flagged (loading !! step)); [by left | by right].
Qed.

(** X20.  [fetchImage] never leaves the loading flag of its step set when it
    was clear before, on any path and whatever the provider and the store
    do, and it never changes the flag of another step. *)
Theorem fetchImage_leaves_no_loading_flag (step : nat) (imgs : gmap nat string)
    (loading : gmap nat bool) (w : world) :
  let w' := snd (run o (fetchImage step imgs loading) w) in
  (flagged (loadingImages (ui w) !! step) = false ->
   flagged (loadingImages (ui w') !! step) = false)
  /\ (forall j : nat, j <> step ->
        loadingImages (ui w') !! j = loadingImages (ui w) !! j).
Proof.
  cbv zeta. destruct (fetchImage_flag step imgs loading w) as [-> | ->].
  - split; auto.
  - split.
    + intros _. by rewrite lookup_insert_eq.
    + intros j Hj. by rewrite !lookup_insert_ne.
Qed.

Lemma fetchEmptyStates_body_flag (state : EmptyState) (w : world) :
  let l' := loadingEmptyStates (ui (snd (run o (fetchEmptyStates_body state) w))) in
  l' = <[state_id state := false]> (loadingEmptyStates (ui w))
  \/ l' = <[state_id state := false]>
            (<[state_id state := true]> (loadingEmptyStates (ui w))).
Proof.
  cbv zeta. unfold fetchEmptyStates_body. rewrite run_bind.
  rewrite run_bind. cbn [call run issue complete fst snd].
  destruct (get_rejects o (emptyStateKey (state_id state))).
  - cbn. by left.
  - cbn [fst snd]. destruct (present (idb w !! emptyStateKey (state_id state))).
    + cbn. by left.
    + rewrite run_bind.
      cbn [setLoadingEmptyStates call run issue complete fst snd].
      rewrite run_bind.
      set (w1 := with_ui _ w).
      pose proof (onboarding_generated o (state_prompt state) (retryFuel 0) 0 w1)
        as (Hui & _).
      fold (generateOnboardingImage (state_prompt state)) in *.
      destruct (run o (generateOnboardingImage (state_prompt state)) w1)
        as [url w2].
      cbn [fst snd] in *.
      destruct (present (Some url)).
      * rewrite run_bind. cbn [setEmptyStates call run issue complete fst snd].
        rewrite run_bind. cbn [call run issue complete fst snd].
        destruct (set_rejects o (emptyStateKey (state_id state))); cbn;
          rewrite Hui; by right.
      * cbn. rewrite Hui. by right.
Qed.

Lemma fetchEmptyStates_body_keeps (state : EmptyState) (w : world) (id : string) :
  loadingEmptyStates (ui w) !! id = Some false ->
  loadingEmptyStates (ui (snd (run o (fetchEmptyStates_body state) w))) !! id
  = Some false.
Proof.
  intros Hid.
  destruct (fetchEmptyStates_body_flag state w) as [-> | ->];
    destruct (decide (state_id state = id)) as [->|Hne];
    rewrite ?lookup_insert_eq, ?lookup_insert_ne by done; done.
Qed.

Lemma fetchEmptyStates_loop_keeps (sts : list EmptyState) (id : string) :
  forall w : world,
    loadingEmptyStates (ui w) !! id = Some false ->
    loadingEmptyStates (ui (snd (run o (fetchEmptyStates_loop sts) w))) !! id
    = Some false.
Proof.
  induction sts as [|state rest IH]; intros w Hid; [exact Hid|].
  cbn [fetchEmptyStates_loop]. rewrite run_bind.
  apply IH. by apply fetchEmptyStates_body_keeps.
Qed.

Lemma fetchEmptyStates_loop_clears (sts : list EmptyState) :
  forall (w : world) (state : EmptyState),
    state ∈ sts ->
    loadingEmptyStates (ui (snd (run o (fetchEmptyStates_loop sts) w)))
      !! state_id state = Some false.
Proof.
  induction sts as [|st rest IH]; intros w state Hin.
  - by apply elem_of_nil in Hin.
  - cbn [fetchEmptyStates_loop]. rewrite run_bind.
    apply elem_of_cons in Hin as [->|Hin].
    + apply fetchEmptyStates_loop_keeps.
      destruct (fetchEmptyStates_body_flag st w) as [-> | ->];
        by rewrite lookup_insert_eq.
    + by apply IH.
Qed.

(** X21.  After [fetchEmptyStates] the loading flag of every empty state is
    [false], whatever the provider and the store did: the [finally] block
    runs on the cached path, on success and on failure. *)
Theorem fetchEmptyStates_clears_loading_flags (w : world) :
  Forall (fun state =>
            loadingEmptyStates (ui (snd (run o fetchEmptyStates w)))
              !! state_id state = Some false) states.
Proof.
  apply Forall_forall. intros state Hin.
  by apply fetchEmptyStates_loop_clears.
Qed.

(** X22.  A failed onboarding image is not cached: when [fetchImage] ran the
    generator and ended with no image shown for its step, the store is as
    before, and [fetchImage] started again from the resulting React state
    calls the provider again. *)
Theorem failed_onboarding_image_is_requested_again (step : nat)
    (imgs : gmap nat string) (loading : gmap nat bool) (s : OnboardingStep)
    (w : world) :
  present (imgs !! step) = false ->
  missed o w (onboardingKey step) ->
  flagged (loading !! step) = false ->
  steps !! step = Some s ->
  let w' := snd (run o (fetchImage step imgs loading) w) in
  present (images (ui w') !! step) = false ->
  let w'' := snd (run o (fetchImage step (images (ui w')) (loadingImages (ui w')))
                    w') in
  idb w' = idb w
  /\ (ncalls w < ncalls w')%nat
  /\ (ncalls w' < ncalls w'')%nat.
Proof.
  intros Himgs Hmiss Hflag Hstep. cbv zeta. intros Hfailed.
  destruct (fetchImage_miss o step imgs loading s w Himgs Hmiss Hflag Hstep)
    as (w1 & _ & Hidb1 & _ & Hn1 & _ & _ & _ & Hrun).
  cbv zeta in Hrun.
  destruct Hrun as (Hn & _ & _ & _ & Hload & Hnone & Hsome).
  pose proof (onboarding_generated o (prompt s) (retryFuel 0) 0 w1)
    as (_ & Hgidb & _ & _ & Hgn & _).
  fold (generateOnboardingImage (prompt s)) in *.
  specialize (Hgn ltac:(rewrite retryFuel_0; lia)).
  destruct (present (Some (fst (run o (generateOnboardingImage (prompt s)) w1))))
    eqn:Hurl.
  { destruct (Hsome eq_refl) as (Himg & _).
    rewrite Himg, lookup_insert_eq, Hurl in Hfailed. discriminate. }
  destruct (Hnone eq_refl) as (_ & Hidb').
  assert (idb (snd (run o (fetchImage step imgs loading) w)) = idb w) as Hkept.
  { rewrite Hidb', Hgidb, Hidb1. reflexivity. }
  split; [exact Hkept|]. split; [lia|].
  set (w' := snd (run o (fetchImage step imgs loading) w)) in *.
  assert (missed o w' (onboardingKey step)) as Hmiss'.
  { destruct Hmiss as [Hrej|Habs]; [by left|right]. by rewrite Hkept. }
  assert (flagged (loadingImages (ui w') !! step) = false) as Hflag'.
  { rewrite Hload, lookup_insert_eq. reflexivity. }
  destruct (fetchImage_miss o step (images (ui w')) (loadingImages (ui w')) s w'
              Hfailed Hmiss' Hflag' Hstep)
    as (w2 & _ & _ & _ & Hn2 & _ & _ & _ & Hrun2).
  cbv zeta in Hrun2. destruct Hrun2 as (Hn' & _).
  pose proof (onboarding_generated o (prompt s) (retryFuel 0) 0 w2)
    as (_ & _ & _ & _ & Hgn2 & _).
  fold (generateOnboardingImage (prompt s)) in *.
  specialize (Hgn2 ltac:(rewrite retryFuel_0; lia)).
  lia.
Qed.

End LoadingFlagFacts.

Section LoadingFlagWitnesses.
Import Async Gemini App Trace Readings Samples.

Lemma fetchImage_leaves_no_loading_flag_witness :
  flagged (loadingImages (ui world0) !! 0%nat) = false
  /\ flagged (loadingImages
                (ui (snd (run alwaysLimited (fetchImage 0 ∅ ∅) world0))) !! 0%nat)
     = false.
Proof.
  assert (flagged (loadingImages (ui world0) !! 0%nat) = false) as H
    by reflexivity.
  split; [exact H|].
  exact (proj1 (fetchImage_leaves_no_loading_flag alwaysLimited 0 ∅ ∅ world0) H).
Defined.

Lemma failed_onboarding_image_is_requested_again_witness :
  present (images (ui (snd (run firstFails (fetchImage 0 ∅ ∅) world0))) !! 0%nat)
  = false
  /\ (ncalls (snd (run firstFails (fetchImage 0 ∅ ∅) world0))
      < ncalls (snd (run firstFails
                       (fetchImage 0
                          (images (ui (snd (run firstFails (fetchImage 0 ∅ ∅) world0))))
                          (loadingImages
                             (ui (snd (run firstFails (fetchImage 0 ∅ ∅) world0)))))
                       (snd (run firstFails (fetchImage 0 ∅ ∅) world0)))))%nat.
Proof.
  assert (present (images (ui (snd (run firstFails (fetchImage 0 ∅ ∅) world0)))
                     !! 0%nat) = false) as Hfailed by (vm_compute; reflexivity).
  split; [exact Hfailed|].
  assert (steps !! 0%nat = Some {| prompt := prompt (default {| prompt := "" |}
                                                       (steps !! 0%nat)) |})
    as Hstep by reflexivity.
  exact (proj2 (proj2
    (failed_onboarding_image_is_requested_again firstFails 0 ∅ ∅ _ world0
       eq_refl (or_intror eq_refl) eq_refl Hstep Hfailed))).
Defined.

End LoadingFlagWitnesses.

(** ** Cache keys and canonical category names *)

Section KeyFacts.
Import Async App.

(** X23.  The IndexedDB keys of the four caches never collide: each key
    template is injective, and no onboarding key, item-icon key,
    empty-state key and the key 'categoryIcons' are equal, whatever the
    step, the food name and the state id. *)
Theorem store_keys_never_collide :
  (forall a b : nat, onboardingKey a = onboardingKey b -> a = b)
  /\ (forall a b : string, itemIconKey a = itemIconKey b -> a = b)
  /\ (forall a b : string, emptyStateKey a = emptyStateKey b -> a = b)
  /\ (forall (step : nat) (name id : string),
        onboardingKey step <> itemIconKey name
        /\ onboardingKey step <> emptyStateKey id
        /\ itemIconKey name <> emptyStateKey id
        /\ onboardingKey step <> "categoryIcons"
        /\ itemIconKey name <> "categoryIcons"
        /\ emptyStateKey id <> "categoryIcons").
Proof.
  unfold onboardingKey, itemIconKey, emptyStateKey.
  split; [|split; [|split]].
  - intros a b H. cbn in H. simplify_eq. by apply (inj pretty).
  - intros a b H. cbn in H. by simplify_eq.
  - intros a b H. cbn in H. by simplify_eq.
  - intros step name id. cbn. repeat split; discriminate.
Qed.

End KeyFacts.

Section CanonicalKeyFacts.
Import CategoryKey.

Lemma canonical_getCategoryKey (v : string) :
  v ∈ canonicalIds -> getCategoryKey v = JStr v.
Proof.
  intros Hin. pose proof canonical_fixed as Hf.
  rewrite Forall_forall in Hf. by apply Hf.
Qed.

(** X26.  When [getCategoryKey] returns a string, it returns the same string
    for the lower-cased name, the string is a fixed point of
    [getCategoryKey], and it is one of the five canonical ids or the
    lower-cased name itself. *)
Theorem getCategoryKey_normalises (c s : string) :
  getCategoryKey c = JStr s ->
  getCategoryKey (toLowerCase c) = JStr s
  /\ getCategoryKey s = JStr s
  /\ (s ∈ canonicalIds \/ s = toLowerCase c).
Proof.
  intros Hc.
  assert (getCategoryKey (toLowerCase c) = getCategoryKey c) as Hlow.
  { unfold getCategoryKey. by rewrite toLowerCase_idem. }
  split; [by rewrite Hlow|].
  pose proof Hc as Hkey.
  unfold getCategoryKey, CATEGORY_MAP_get in Hc.
  destruct (CATEGORY_MAP !! toLowerCase c) as [v|] eqn:Hmap.
  - pose proof (CATEGORY_MAP_values _ _ Hmap) as Hcan.
    assert (s = v) as ->.
    { unfold js_or in Hc. destruct (truthy (JStr v)) eqn:Ht; [congruence|].
      exfalso. cbn in Ht. apply negb_false_iff, bool_decide_eq_true in Ht.
      subst v. unfold canonicalIds in Hcan.
      repeat (apply elem_of_cons in Hcan as [Hcan|Hcan]; [discriminate|]).
      by apply elem_of_nil in Hcan. }
    split; [by apply canonical_getCategoryKey | by left].
  - assert (s = toLowerCase c) as ->.
    { unfold js_or in Hc.
      destruct (Object_prototype (toLowerCase c)) eqn:Hp; cbn in Hc;
        try congruence.
      unfold Object_prototype in Hp.
      repeat match type of Hp with
             | (if ?b then _ else _) = _ => destruct b
             end; discriminate. }
    split; [by rewrite Hlow | by right].
Qed.

Lemma getCategoryKey_normalises_witness :
  getCategoryKey "Dairy" = JStr "lacteos"
  /\ getCategoryKey "dairy" = JStr "lacteos"
  /\ getCategoryKey "lacteos" = JStr "lacteos".
Proof.
  assert (getCategoryKey "Dairy" = JStr "lacteos") as H by (vm_compute; reflexivity).
  split; [exact H|].
  destruct (getCategoryKey_normalises "Dairy" "lacteos" H) as (H1 & H2 & _).
  split; [exact H1 | exact H2].
Defined.

End CanonicalKeyFacts.

(** ** Recipes and ageing in a zone with transitions *)

Section ZonedRecipeFacts.
Import Expiry Inventory Zoned Recipes.

(** X10.  [generateRecipe] chooses its ingredients by the stored
    [status] alone: an item added by hand is always listed, an item
    written by [handleProcessImage] is listed exactly when its estimate
    was positive, nothing is listed that is not in the inventory, and an
    inventory whose items are all 'expired' gives the empty ingredient
    text. *)
Theorem recipe_lists_by_stored_status (items : list FoodItem) :
  (forall (z : Zone) (writeTime : Z) (cat : option FoodCategory) (food : Food)
          (item : FoodItem),
      Zoned.handleManualAdd_item z writeTime cat food = Normal item ->
      item ∈ items -> item ∈ listedItems items)
  /\ (forall (z : Zone) (writeTime : Z) (result : Analysis) (photo : string)
             (item : FoodItem),
      handleProcessImage_item z writeTime result photo = Normal item ->
      (item ∈ listedItems items
       <-> item ∈ items
           /\ exists x : Q, estimated_days_left result = Some x /\ (0 < x)%Q))
  /\ (forall item : FoodItem, item ∈ listedItems items -> item ∈ items)
  /\ (Forall (fun i => status i = expired) items ->
      forall now, expiringItems now items = "").
Proof.
  unfold listedItems. split; [|split; [|split]].
  - intros z writeTime cat food item Hitem Hin.
    apply list_elem_of_filter. split; [|exact Hin].
    destruct (manual_item z writeTime cat food item Hitem) as (-> & _).
    destruct (shelfLife food >? 3); discriminate.
  - intros z writeTime result photo item Hitem.
    destruct (process_item z writeTime result photo item Hitem)
      as (analyzed & Han & Hst & _).
    destruct (scan_item z writeTime result analyzed Han) as (x & Hx & Hsx & _).
    destruct (scan_status x) as (Hexp & _ & _).
    rewrite list_elem_of_filter, Hst, Hsx. split.
    + intros [Hne Hin]. split; [exact Hin|]. exists x. split; [exact Hx|].
      apply Qnot_le_lt. intros Hle. apply Hne, Hexp, Hle.
    + intros (Hin & x' & Hx' & Hpos). split; [|exact Hin].
      rewrite Hx in Hx'. injection Hx' as <-.
      intros Hst'. apply Hexp in Hst'. apply (Qlt_not_le _ _ Hpos Hst').
  - intros item Hin. by apply list_elem_of_filter in Hin as [_ ?].
  - intros Hexp now. unfold expiringItems, listedItems.
    assert (base.filter (fun i => status i <> expired) items = []) as ->;
      [|reflexivity].
    induction Hexp as [|i l Hi _ IH]; [reflexivity|].
    rewrite filter_cons_False by (intros H; by apply H). exact IH.
Qed.
End ZonedRecipeFacts.

Section ZonedDayCounts.
Import Expiry Inventory Zoned Recipes Readings.

Lemma LocalTime_steady (z : Zone) (tz t : Z) :
  steadyAt z tz t -> Day (LocalTime z t) = localDay tz t.
Proof. intros [Hu _]. unfold LocalTime, Day, localDay. by rewrite Hu. Qed.

Lemma zoned_rank (z : Zone) (e1 now1 e2 now2 : Z) :
  daysLeft (Zoned.getExpiryStatus z e1 now1)
  <= daysLeft (Zoned.getExpiryStatus z e2 now2) ->
  urgencyRank (Expiry.category (Zoned.getExpiryStatus z e1 now1))
  <= urgencyRank (Expiry.category (Zoned.getExpiryStatus z e2 now2)).
Proof.
  intros H.
  destruct (zoned_category z e1 now1) as (U1 & S1 & F1).
  destruct (zoned_category z e2 now2) as (U2 & S2 & F2).
  destruct (Expiry.category (Zoned.getExpiryStatus z e1 now1)) eqn:C1;
    destruct (Expiry.category (Zoned.getExpiryStatus z e2 now2)) eqn:C2;
    cbn; try lia.
  - pose proof (proj1 S1 eq_refl). pose proof (proj1 U2 eq_refl). lia.
  - pose proof (proj1 F1 eq_refl). pose proof (proj1 U2 eq_refl). lia.
  - pose proof (proj1 F1 eq_refl). pose proof (proj1 S2 eq_refl). lia.
Qed.

(** X11.  The day count [generateRecipe] writes for an item is at most
    0 exactly when the expiry instant has passed; it is the number of
    24-hour periods that have started between now and the expiry; and
    when the zone has one offset at both instants and at their local
    midnights it is the classifier's [daysLeft] or one more. *)
Theorem recipe_days_near_classifier (z : Zone) (expiry now : Z) :
  let shown := ceilDays expiry now in
  (shown <= 0 <-> expiry <= now)
  /\ (shown - 1) * msPerDay < expiry - now <= shown * msPerDay
  /\ (forall tz : Z,
        steadyAt z tz expiry -> steadyAt z tz now ->
        let left := daysLeft (Zoned.getExpiryStatus z expiry now) in
        left <= shown <= left + 1).
Proof.
  cbv zeta. unfold ceilDays.
  assert (msPerDay = 86400000) as HD by reflexivity.
  pose proof (Z.div_mod (now - expiry) 86400000 ltac:(lia)) as E3.
  pose proof (Z.mod_pos_bound (now - expiry) 86400000 ltac:(lia)) as B3.
  split; [rewrite HD; lia|]. split; [rewrite HD; lia|].
  intros tz He Hn. rewrite (getExpiryStatus_steady z tz expiry now He Hn).
  rewrite daysLeft_localDay. unfold localDay. rewrite HD.
  pose proof (Z.div_mod (expiry + tz) 86400000 ltac:(lia)) as E1.
  pose proof (Z.mod_pos_bound (expiry + tz) 86400000 ltac:(lia)) as B1.
  pose proof (Z.div_mod (now + tz) 86400000 ltac:(lia)) as E2.
  pose proof (Z.mod_pos_bound (now + tz) 86400000 ltac:(lia)) as B2.
  lia.
Qed.

(** Across an offset change the two counts can be further apart: in New
    York, one second after midnight on 9 March 2024, an item that
    expires at 23:59 on 11 March is three days away for the recipe
    prompt and has one day left for the classifier. *)
Lemma recipe_days_across_transition :
  let now := utc 2024 3 9 18001000 in
  let expiry := utc 2024 3 12 14340000 in
  ceilDays expiry now = 3
  /\ daysLeft (Zoned.getExpiryStatus newYork expiry now) = 1.
Proof. vm_compute. split; reflexivity. Qed.

(** X24.  When the local midnight of a later reading of the clock is
    not before that of an earlier one, the item has no more days left at
    the later reading and is in no less urgent a category.  While the
    zone's offset does not change, local midnights are ordered like the
    instants, and the days lost are exactly the local calendar days that
    went by. *)
Theorem freshness_never_improves_with_time (z : Zone) (e now1 now2 : Z) :
  (Zoned.setHoursMidnight z now1 <= Zoned.setHoursMidnight z now2 ->
   daysLeft (Zoned.getExpiryStatus z e now2)
   <= daysLeft (Zoned.getExpiryStatus z e now1)
   /\ urgencyRank (Expiry.category (Zoned.getExpiryStatus z e now2))
      <= urgencyRank (Expiry.category (Zoned.getExpiryStatus z e now1)))
  /\ (forall tz : Z,
        steadyAt z tz e -> steadyAt z tz now1 -> steadyAt z tz now2 ->
        now1 <= now2 ->
        Zoned.setHoursMidnight z now1 <= Zoned.setHoursMidnight z now2
        /\ daysLeft (Zoned.getExpiryStatus z e now1)
           - daysLeft (Zoned.getExpiryStatus z e now2)
           = Day (LocalTime z now2) - Day (LocalTime z now1)).
Proof.
  split.
  - intros Hm.
    assert (daysLeft (Zoned.getExpiryStatus z e now2)
            <= daysLeft (Zoned.getExpiryStatus z e now1)) as Hd.
    { rewrite !zoned_daysLeft. apply Z.div_le_mono; [apply msPerDay_pos | lia]. }
    split; [exact Hd | by apply zoned_rank].
  - intros tz He H1 H2 Hle.
    rewrite (setHoursMidnight_steady z tz now1 H1),
      (setHoursMidnight_steady z tz now2 H2).
    rewrite (getExpiryStatus_steady z tz e now1 He H1),
      (getExpiryStatus_steady z tz e now2 He H2).
    rewrite (LocalTime_steady z tz now1 H1), (LocalTime_steady z tz now2 H2).
    rewrite !daysLeft_localDay. unfold Expiry.setHoursMidnight.
    assert (localDay tz now1 <= localDay tz now2) as Hday.
    { unfold localDay. apply Z.div_le_mono; [apply msPerDay_pos | lia]. }
    pose proof msPerDay_pos. split; [nia | lia].
Qed.

Lemma freshness_never_improves_with_time_witness :
  let e := utc 2024 3 12 57600000 in
  let now1 := utc 2024 3 9 61200000 in
  let now2 := utc 2024 3 11 57600000 in
  Zoned.setHoursMidnight newYork now1 <= Zoned.setHoursMidnight newYork now2
  /\ daysLeft (Zoned.getExpiryStatus newYork e now1) = 2
  /\ daysLeft (Zoned.getExpiryStatus newYork e now2) = 1
  /\ urgencyRank (Expiry.category (Zoned.getExpiryStatus newYork e now2))
     <= urgencyRank (Expiry.category (Zoned.getExpiryStatus newYork e now1)).
Proof.
  cbv zeta.
  assert (Zoned.setHoursMidnight newYork (utc 2024 3 9 61200000)
          <= Zoned.setHoursMidnight newYork (utc 2024 3 11 57600000)) as H
    by (vm_compute; discriminate).
  split; [exact H|]. split; [reflexivity|]. split; [reflexivity|].
  exact (proj2 (proj1 (freshness_never_improves_with_time newYork
                         (utc 2024 3 12 57600000) (utc 2024 3 9 61200000)
                         (utc 2024 3 11 57600000)) H)).
Defined.

(** X25.  At one moment, an item whose expiry has the later local
    midnight never has fewer days left and is never in a more urgent
    category.  While the zone's offset does not change, local midnights
    are ordered like the instants, and the difference in days left is the
    whole days between the two expiry instants or one more. *)
Theorem later_expiry_is_never_more_urgent (z : Zone) (e1 e2 now : Z) :
  (Zoned.setHoursMidnight z e1 <= Zoned.setHoursMidnight z e2 ->
   daysLeft (Zoned.getExpiryStatus z e1 now)
   <= daysLeft (Zoned.getExpiryStatus z e2 now)
   /\ urgencyRank (Expiry.category (Zoned.getExpiryStatus z e1 now))
      <= urgencyRank (Expiry.category (Zoned.getExpiryStatus z e2 now)))
  /\ (forall tz : Z,
        steadyAt z tz e1 -> steadyAt z tz e2 -> steadyAt z tz now ->
        e1 <= e2 ->
        Zoned.setHoursMidnight z e1 <= Zoned.setHoursMidnight z e2
        /\ (e2 - e1) / msPerDay
           <= daysLeft (Zoned.getExpiryStatus z e2 now)
              - daysLeft (Zoned.getExpiryStatus z e1 now)
           <= (e2 - e1) / msPerDay + 1).
Proof.
  split.
  - intros Hm.
    assert (daysLeft (Zoned.getExpiryStatus z e1 now)
            <= daysLeft (Zoned.getExpiryStatus z e2 now)) as Hd.
    { rewrite !zoned_daysLeft. apply Z.div_le_mono; [apply msPerDay_pos | lia]. }
    split; [exact Hd | by apply zoned_rank].
  - intros tz H1 H2 Hn Hle.
    rewrite (setHoursMidnight_steady z tz e1 H1),
      (setHoursMidnight_steady z tz e2 H2).
    rewrite (getExpiryStatus_steady z tz e1 now H1 Hn),
      (getExpiryStatus_steady z tz e2 now H2 Hn).
    rewrite !daysLeft_localDay. unfold Expiry.setHoursMidnight, localDay.
    pose proof msPerDay_pos as Hp.
    pose proof (Z.div_mod (e1 + tz) msPerDay ltac:(lia)) as D1.
    pose proof (Z.mod_pos_bound (e1 + tz) msPerDay Hp) as B1.
    pose proof (Z.div_mod (e2 + tz) msPerDay ltac:(lia)) as D2.
    pose proof (Z.mod_pos_bound (e2 + tz) msPerDay Hp) as B2.
    pose proof (Z.div_mod (e2 - e1) msPerDay ltac:(lia)) as D3.
    pose proof (Z.mod_pos_bound (e2 - e1) msPerDay Hp) as B3.
    assert ((e1 + tz) / msPerDay <= (e2 + tz) / msPerDay) as Hday
      by (apply Z.div_le_mono; lia).
    split; [nia|]. nia.
Qed.

Lemma later_expiry_is_never_more_urgent_witness :
  let now := utc 2024 3 9 61200000 in
  let e1 := utc 2024 3 10 21600000 in
  let e2 := utc 2024 3 12 21600000 in
  Zoned.setHoursMidnight newYork e1 <= Zoned.setHoursMidnight newYork e2
  /\ daysLeft (Zoned.getExpiryStatus newYork e1 now) = 1
  /\ daysLeft (Zoned.getExpiryStatus newYork e2 now) = 2
  /\ urgencyRank (Expiry.category (Zoned.getExpiryStatus newYork e1 now))
     <= urgencyRank (Expiry.category (Zoned.getExpiryStatus newYork e2 now)).
Proof.
  cbv zeta.
  assert (Zoned.setHoursMidnight newYork (utc 2024 3 10 21600000)
          <= Zoned.setHoursMidnight newYork (utc 2024 3 12 21600000)) as H
    by (vm_compute; discriminate).
  split; [exact H|]. split; [reflexivity|]. split; [reflexivity|].
  exact (proj2 (proj1 (later_expiry_is_never_more_urgent newYork
                         (utc 2024 3 10 21600000) (utc 2024 3 12 21600000)
                         (utc 2024 3 9 61200000)) H)).
Defined.

End ZonedDayCounts.
